(** * matrix_hebrew.py: the falling-glyph engine and its frame loop

    A shallow embedding of [src/matrix_hebrew.py]: the loading of the
    dictionary, the classes [Drop] and [Cluster], the word detection of
    [main] and one iteration of its loop.

    Python floats are IEEE-754 binary64 values; they are modelled by the
    Standard Library's executable specification [spec_float] at precision 53
    and maximal exponent 1024 (round to nearest, ties to even), which is the
    arithmetic CPython performs.  Python integers are [Z], a [str] is the list
    of its code points, and the calls into [random], [time] and [curses] are
    inputs and outputs of a tick: the random draws and the key arrive in a
    record, the screen calls leave as a list of events. *)

From Stdlib Require Import ZArith PArith List Bool Lia Sorted.
From Stdlib Require Import Floats.
Import ListNotations.

Local Open Scope Z_scope.
Set Warnings "-inexact-float".

(** ** Exceptions *)

Inductive exn : Type :=
| ZeroDivisionError
| OverflowError
| ValueError
| IndexError
| AttributeError.

Inductive result (A : Type) : Type :=
| Ok (a : A)
| Raise (e : exn).

Arguments Ok {A} a.
Arguments Raise {A} e.

Definition bind {A B : Type} (m : result A) (k : A -> result B) : result B :=
  match m with
  | Ok a => k a
  | Raise e => Raise e
  end.

Notation "x <- m ;; k" := (bind m (fun x => k))
  (at level 61, m at next level, right associativity).
Notation "' p <- m ;; k" := (bind m (fun x => match x with p => k end))
  (at level 61, p pattern, m at next level, right associativity).

(** ** Python values *)

(** One character of a [str]: its code point. *)
Definition glyph : Type := Z.
Definition pystr : Type := list glyph.

(** [len(l)] *)
Definition len {A : Type} (l : list A) : Z := Z.of_nat (length l).

(** [l[i]], negative indices counting from the end. *)
Definition py_index {A : Type} (l : list A) (i : Z) : result A :=
  let j := if i <? 0 then i + len l else i in
  if (0 <=? j) && (j <? len l) then
    match nth_error l (Z.to_nat j) with
    | Some a => Ok a
    | None => Raise IndexError
    end
  else Raise IndexError.

(** [w in s] on strings: [w] occurs in [s] as a contiguous substring. *)
Fixpoint starts_with (s w : pystr) : bool :=
  match w, s with
  | [], _ => true
  | _ :: _, [] => false
  | a :: w', b :: s' => (a =? b) && starts_with s' w'
  end.

Fixpoint str_contains (s w : pystr) : bool :=
  starts_with s w ||
  match s with
  | [] => false
  | _ :: s' => str_contains s' w
  end.

(** [w in l] on a list of strings. *)
Definition list_contains (l : list pystr) (w : pystr) : bool :=
  existsb (fun v => if list_eq_dec Z.eq_dec v w then true else false) l.

(** ** Python floats *)

Module PyFloat.

Definition float : Type := spec_float.

Definition add (a b : float) : float := SF64add a b.
Definition sub (a b : float) : float := SF64sub a b.
Definition mul (a b : float) : float := SF64mul a b.

(** [a / b]; a zero divisor raises. *)
Definition div (a b : float) : result float :=
  match b with
  | S754_zero _ => Raise ZeroDivisionError
  | _ => Ok (SF64div a b)
  end.

Definition ltb (a b : float) : bool := SFltb a b.
Definition leb (a b : float) : bool := SFleb a b.

(** Python's [max(a, b)]: the first argument is kept unless the second is
    strictly greater. *)
Definition max (a b : float) : float := if ltb a b then b else a.

(** The value of an [int] operand of a float operation (exact below 2^53). *)
Definition of_int (n : Z) : float := binary_normalize prec emax n 0 false.

(** [int(a)]: truncation toward zero; an infinity or a NaN raises. *)
Definition to_int (a : float) : result Z :=
  match a with
  | S754_zero _ => Ok 0
  | S754_finite s m e => Ok (cond_Zopp s (Z.shiftl (Zpos m) e))
  | S754_infinity _ => Raise OverflowError
  | S754_nan => Raise ValueError
  end.

(** [a < n] for a float [a] and an [int] [n]: Python compares the two exact
    values. *)
Definition lt_int (a : float) (n : Z) : bool :=
  match a with
  | S754_nan => false
  | S754_infinity s => s
  | S754_zero _ => 0 <? n
  | S754_finite s m e =>
      if 0 <=? e then cond_Zopp s (Zpos m * 2 ^ e) <? n
      else cond_Zopp s (Zpos m) <? n * 2 ^ (- e)
  end.

(** A float is well formed when its mantissa is in canonical position. *)
Definition valid (a : float) : bool := valid_binary a.

Definition is_nan (a : float) : bool :=
  match a with
  | S754_nan => true
  | _ => false
  end.

Definition is_finite (a : float) : bool :=
  match a with
  | S754_zero _ | S754_finite _ _ _ => true
  | _ => false
  end.

(** The decimal literals of the source as the nearest binary64 values
    ([float.hex] shows the same mantissas and exponents). *)
Definition zero   : float := S754_zero false.
Definition f0_4   : float := S754_finite false 7205759403792794 (-54).
Definition f0_8   : float := S754_finite false 7205759403792794 (-53).
Definition f1_2   : float := S754_finite false 5404319552844595 (-52).
Definition f1_6   : float := S754_finite false 7205759403792794 (-52).
Definition f0_05  : float := S754_finite false 7205759403792794 (-57).
Definition f0_01  : float := S754_finite false 5764607523034235 (-59).
Definition f0_15  : float := S754_finite false 5404319552844595 (-55).
Definition f0_3   : float := S754_finite false 5404319552844595 (-54).
Definition f0_1   : float := S754_finite false 7205759403792794 (-56).
Definition f3_1415 : float := S754_finite false 7074029114692207 (-51).

End PyFloat.

(** ** Configuration (lines 27-41) *)

Definition MIN_LEN : Z := 10.
Definition MAX_LEN : Z := 13.
Definition TARGET_COUNT : Z := 10.

(** The twenty-two letters of [ALPHABET], alef to tav without final forms. *)
Definition ALPHABET : list glyph :=
  [1488; 1489; 1490; 1491; 1492; 1493; 1494; 1495; 1496; 1497; 1499;
   1500; 1502; 1504; 1505; 1506; 1508; 1510; 1511; 1512; 1513; 1514].

(** [SPINNER = ['|','/','-','\\']] *)
Definition SPINNER : list glyph := [124; 47; 45; 92].
Definition SPIN_SPEED : Z := 6.

(** What line 47 guarantees of every entry of [WORD_LIST]. *)
Definition in_length_range (w : pystr) : bool :=
  (MIN_LEN <=? len w) && (len w <=? MAX_LEN).

(** ** Calls that leave the program *)

Inductive event : Type :=
| Getch                                        (* stdscr.getch() *)
| Erase                                        (* stdscr.erase() *)
| AddStr (row col : Z) (text : pystr) (pair : Z) (* stdscr.addstr, bold *)
| Hud (row : Z) (elapsed wps : PyFloat.float) (ndrops nclusters : Z)
                                               (* the HUD line, unformatted *)
| Refresh                                      (* stdscr.refresh() *)
| Sleep (delay : PyFloat.float)                (* time.sleep(delay) *)
| Beep                                         (* curses.beep() *)
| LogFound (w : pystr).                        (* logging.info("Found w") *)

(** ** class Drop *)

Module Drop.

(** One element [(y, char, age)] of [self.trail]. *)
Record entry : Type := Entry { ty : Z; ch : glyph; age : Z }.

Record t : Type := Make {
  x : Z;
  layer : Z;
  y : PyFloat.float;
  speed : PyFloat.float;
  char : glyph;
  trail : list entry;
  colors : list Z
}.

Definition LAYER_SPEEDS : list PyFloat.float :=
  [PyFloat.f0_4; PyFloat.f0_8; PyFloat.f1_2; PyFloat.f1_6].

(** [__init__]: [y0] is the draw of [random.uniform(-max_row, 0)] and [c]
    the draw of [random.choice(ALPHABET)]. *)
Definition init (x layer : Z) (y0 : PyFloat.float) (c : glyph)
    (colors : list Z) : result t :=
  s <- py_index LAYER_SPEEDS layer ;;
  Ok (Make x layer y0 s c [] colors).

(** The loop of lines 67-70: entries younger than the palette depth are
    kept, one tick older; the others are dropped. *)
Fixpoint age_and_prune (depth : Z) (tr : list entry) : list entry :=
  match tr with
  | [] => []
  | Entry r c a :: rest =>
      if a <? depth then Entry r c (a + 1) :: age_and_prune depth rest
      else age_and_prune depth rest
  end.

(** [update(max_row)]: [morph] is [Some g] when [random.random() < 0.02] and
    [random.choice(ALPHABET)] gave [g].  Returns the drop and its liveness. *)
Definition update (d : t) (max_row : Z) (morph : option glyph)
    : result (t * bool) :=
  let y' := PyFloat.add (y d) (speed d) in
  row <- PyFloat.to_int y' ;;
  let trail' := age_and_prune (len (colors d)) (Entry row (char d) 0 :: trail d) in
  let char' := match morph with Some g => g | None => char d end in
  Ok (Make (x d) (layer d) y' (speed d) char' trail' (colors d),
      PyFloat.lt_int y' (max_row + len (colors d))).

(** [color_idx] of [draw]. *)
Definition color_idx (d : t) (a : Z) : Z := Z.min a (len (colors d) - 1).

(** [draw]: one [addstr] per trail entry; a [curses.error] of the call is
    swallowed by the source, an [IndexError] of [self.colors[...]] is not. *)
Fixpoint draw_entries (d : t) (tr : list entry) : result (list event) :=
  match tr with
  | [] => Ok []
  | Entry r c a :: rest =>
      cp <- py_index (colors d) (color_idx d a) ;;
      evs <- draw_entries d rest ;;
      Ok (AddStr r (x d) [c] cp :: evs)
  end.

Definition draw (d : t) (max_col : Z) : result (list event) :=
  draw_entries d (trail d).

(** The gradient positions [draw] reads, one per trail entry. *)
Definition drawn_indices (d : t) : list Z :=
  map (fun e => color_idx d (age e)) (trail d).

(** Successive updates of one drop, one morph draw per tick. *)
Fixpoint updates (d : t) (max_row : Z) (morphs : list (option glyph))
    : result t :=
  match morphs with
  | [] => Ok d
  | m :: rest =>
      '(d', _) <- update d max_row m ;;
      updates d' max_row rest
  end.

End Drop.

(** ** class Cluster *)

Module Cluster.

(** One element [{'ch': ch, 'angle': angle, 'rad': rad}] of [self.letters]. *)
Record letter : Type := Letter {
  l_ch : glyph;
  angle : PyFloat.float;
  rad : PyFloat.float
}.

Record t : Type := Make {
  letters : list letter;
  lifespan : Z;
  age : Z;
  colors : list Z;
  cx : Z;
  cy : Z
}.

(** The loop over [enumerate(word)], [i] the running index. *)
Fixpoint make_letters (angle_step : PyFloat.float) (i : Z) (word : pystr)
    : list letter :=
  match word with
  | [] => []
  | c :: rest =>
      Letter c (PyFloat.mul (PyFloat.of_int i) angle_step) PyFloat.zero
      :: make_letters angle_step (i + 1) rest
  end.

(** [__init__]: [2*3.1415/len(word)] raises for the empty word. *)
Definition init (word : pystr) (center_x center_y lifespan : Z)
    (colors : list Z) : result t :=
  angle_step <- PyFloat.div (PyFloat.mul (PyFloat.of_int 2) PyFloat.f3_1415)
                            (PyFloat.of_int (len word)) ;;
  Ok (Make (make_letters angle_step 0 word) lifespan 0 colors center_x center_y).

(** [update]: returns the cluster and [self.age < self.lifespan]. *)
Definition update (c : t) : t * bool :=
  let age' := age c + 1 in
  let letters' :=
    map (fun l => Letter (l_ch l) (PyFloat.add (angle l) PyFloat.f0_1)
                         (PyFloat.add (rad l) PyFloat.f0_3))
        (letters c) in
  (Make letters' (lifespan c) age' (colors c) (cx c) (cy c),
   age' <? lifespan c).

(** The value a function without [return] statement hands back. *)
Inductive NoneType : Type := PyNone.

(** [bool(None)] *)
Definition truthy (v : NoneType) : bool := false.

Section Draw.

(** [curses.COLS] and [curses.LINES], and what the attribute references
    [curses.cos] and [curses.sin] do when called: the [curses] module is
    outside the program, so both are taken as given (an interpreter whose
    [curses] has no such attribute raises [AttributeError] there). *)
Variables COLS LINES : Z.
Variables cos sin : PyFloat.float -> result PyFloat.float.

Definition color_idx (c : t) : Z := Z.min (age c / 3) (len (colors c) - 1).

(** The body of the loop of [draw] for one letter.  The two coordinates are
    computed outside the [try]; whatever the [addstr] line raises, the index
    error of [self.colors[...]] included, is swallowed by the bare [except]. *)
Definition draw_letter (c : t) (l : letter) : result (list event) :=
  vc <- cos (angle l) ;;
  px <- PyFloat.to_int
          (PyFloat.add (PyFloat.of_int (cx c))
             (PyFloat.mul
                (SF64div (PyFloat.mul (rad l) (PyFloat.of_int COLS))
                         (PyFloat.of_int 100))
                vc)) ;;
  vs <- sin (angle l) ;;
  py <- PyFloat.to_int
          (PyFloat.add (PyFloat.of_int (cy c))
             (PyFloat.mul
                (SF64div (PyFloat.mul (rad l) (PyFloat.of_int LINES))
                         (PyFloat.of_int 100))
                vs)) ;;
  match py_index (colors c) (color_idx c) with
  | Ok cp => Ok [AddStr py px [l_ch l] cp]
  | Raise _ => Ok []
  end.

Fixpoint draw_letters (c : t) (ls : list letter) : result (list event) :=
  match ls with
  | [] => Ok []
  | l :: rest =>
      evs <- draw_letter c l ;;
      evs' <- draw_letters c rest ;;
      Ok (evs ++ evs')
  end.

(** [draw] has no [return]: a call that completes evaluates to [None]. *)
Definition draw (c : t) : result (NoneType * list event) :=
  evs <- draw_letters c (letters c) ;;
  Ok (PyNone, evs).

End Draw.

End Cluster.

(** ** main *)

(** [layer_colors] (line 121) *)
Definition layer_colors : list (list Z) :=
  [[1; 2; 3; 4; 5]; [2; 3; 4; 5; 1]; [3; 4; 5; 1; 2]; [4; 5; 1; 2; 3]].

(** The random draws behind one [Drop(random.randrange(cols),
    random.randrange(4), rows, layer_colors[random.randrange(4)])]. *)
Record spawn_draw : Type := SpawnDraw {
  s_x : Z;
  s_layer : Z;
  s_gradient : Z;
  s_y0 : PyFloat.float;
  s_char : glyph
}.

(** What one iteration of the loop reads from outside: the key ([-1] when
    none is pending), [time.time() - start], the new drop when
    [random.random() < 0.4], and one morph draw per drop in list order. *)
Record input : Type := Input {
  key : Z;
  elapsed : PyFloat.float;
  spawn : option spawn_draw;
  morphs : list (option glyph)
}.

(** The local variables of [main] that live across iterations. *)
Record state : Type := State {
  drops : list Drop.t;
  clusters : list Cluster.t;
  found : list pystr;
  frame : Z;
  spin : Z;
  delay : PyFloat.float;
  paused : bool
}.

(** How an iteration ends: the loop goes on, or a [break] leads to the end
    screen. *)
Inductive outcome : Type :=
| Running (st : state)
| Summary (st : state).

(** [found], [clusters] and the calls made so far, threaded through the loop
    over the drops. *)
Record world : Type := World {
  w_found : list pystr;
  w_clusters : list Cluster.t;
  w_events : list event
}.

Definition new_drop (sd : spawn_draw) : result Drop.t :=
  grad <- py_index layer_colors (s_gradient sd) ;;
  Drop.init (s_x sd) (s_layer sd) (s_y0 sd) (s_char sd) grad.

(** [''.join([t[1] for t in d.trail])] *)
Definition probe (d : Drop.t) : pystr := map Drop.ch (Drop.trail d).

(** [delay = max(0.01, delay - 0.01)] and [delay += 0.01] *)
Definition speed_up (delay : PyFloat.float) : PyFloat.float :=
  PyFloat.max PyFloat.f0_01 (PyFloat.sub delay PyFloat.f0_01).

Definition slow_down (delay : PyFloat.float) : PyFloat.float :=
  PyFloat.add delay PyFloat.f0_01.

(** Lines 132-140: the key dispatch; [None] is the [break] of [q]. *)
Definition handle_key (st : state) (ch : Z) : option state :=
  if ch =? -1 then Some st
  else if ch =? 112 (* p *) then
    Some (State (drops st) (clusters st) (found st) (frame st) (spin st)
                (delay st) (negb (paused st)))
  else if ch =? 115 (* s *) then Some st
  else if ch =? 118 (* v *) then Some st
  else if ch =? 114 (* r *) then Some st
  else if ch =? 43 (* + *) then
    Some (State (drops st) (clusters st) (found st) (frame st) (spin st)
                (speed_up (delay st)) (paused st))
  else if ch =? 45 (* - *) then
    Some (State (drops st) (clusters st) (found st) (frame st) (spin st)
                (slow_down (delay st)) (paused st))
  else if ch =? 113 (* q *) then None
  else Some st.

(** [wps = len(found)/elapsed if elapsed>0 else 0] (line 130) *)
Definition words_per_second (found : list pystr) (elapsed : PyFloat.float)
    : PyFloat.float :=
  if PyFloat.ltb PyFloat.zero elapsed
  then SF64div (PyFloat.of_int (len found)) elapsed
  else PyFloat.zero.

Section Main.

(** The dictionary left by line 47, the size [stdscr.getmaxyx()] reports
    (also [curses.LINES] and [curses.COLS]) and the two attribute calls of
    [Cluster.draw]. *)
Variable WORD_LIST : list pystr.
Variables height width : Z.
Variables cos sin : PyFloat.float -> result PyFloat.float.

Definition rows : Z := height - 1.
Definition cols : Z := width.

(** Lines 150-155 for one retired drop with probe string [p]. *)
Fixpoint detect_words (words : list pystr) (p : pystr) (w : world)
    : result world :=
  match words with
  | [] => Ok w
  | wd :: rest =>
      if str_contains p wd then
        if negb (list_contains (w_found w) wd) then
          c <- Cluster.init wd (cols / 2) (rows / 2) 40 (nth 0 layer_colors []) ;;
          detect_words rest p
            (World (w_found w ++ [wd]) (w_clusters w ++ [c])
                   (w_events w ++ [LogFound wd; Beep]))
        else detect_words rest p w
      else detect_words rest p w
  end.

(** Lines 145-156: the loop over [drops]; returns [new_drops]. *)
Fixpoint step_drops (ds : list Drop.t) (ms : list (option glyph)) (w : world)
    : result (list Drop.t * world) :=
  match ds with
  | [] => Ok ([], w)
  | d :: rest =>
      '(d', alive) <- Drop.update d rows (hd None ms) ;;
      w' <- (if alive then
               evs <- Drop.draw d' cols ;;
               Ok (World (w_found w) (w_clusters w) (w_events w ++ evs))
             else detect_words WORD_LIST (probe d') w) ;;
      '(kept, w'') <- step_drops rest (tl ms) w' ;;
      Ok (if alive then d' :: kept else kept, w'')
  end.

(** Line 158: [[c for c in clusters if c.update() and c.draw(stdscr)]]. *)
Fixpoint update_clusters (cs : list Cluster.t)
    : result (list Cluster.t * list event) :=
  match cs with
  | [] => Ok ([], [])
  | c :: rest =>
      let '(c', alive) := Cluster.update c in
      '(keep, evs) <- (if alive then
                         '(v, evs) <- Cluster.draw width height cos sin c' ;;
                         Ok (Cluster.truthy v, evs)
                       else Ok (false, [])) ;;
      '(kept, evs') <- update_clusters rest ;;
      Ok (if keep then c' :: kept else kept, evs ++ evs')
  end.

(** Lines 142-165: the body run when the session is not paused.  The
    [addstr] calls of lines 161 and 164 stand outside any [try] and are
    recorded as calls that return; where [curses] raises there (a window too
    narrow for the HUD line) the iteration ends in [curses.error].  A result
    [Ok] of [update_phase], [tick] or [run] is about the iterations in
    which both calls return. *)
Definition update_phase (st : state) (inp : input) (wps : PyFloat.float)
    : result (state * list event) :=
  ds <- match spawn inp with
        | Some sd => d <- new_drop sd ;; Ok (drops st ++ [d])
        | None => Ok (drops st)
        end ;;
  '(new_drops, w) <- step_drops ds (morphs inp)
                       (World (found st) (clusters st) [Erase]) ;;
  '(cs, cevs) <- update_clusters (w_clusters w) ;;
  let spin' := if frame st mod SPIN_SPEED =? 0
               then (spin st + 1) mod len SPINNER else spin st in
  sp <- py_index SPINNER spin' ;;
  Ok (State new_drops cs (w_found w) (frame st) spin' (delay st) (paused st),
      w_events w ++ cevs ++
      [AddStr 0 (cols - 2) [sp] 5;
       Hud (height - 1) (elapsed inp) wps (len new_drops) (len cs);
       Refresh; Sleep (delay st)]).

(** One iteration of [while True] (lines 130-166). *)
Definition tick (st : state) (inp : input) : result (outcome * list event) :=
  let st0 := State (drops st) (clusters st) (found st) (frame st + 1)
                   (spin st) (delay st) (paused st) in
  let wps := words_per_second (found st) (elapsed inp) in
  match handle_key st0 (key inp) with
  | None => Ok (Summary st0, [Getch])
  | Some st1 =>
      if paused st1 then Ok (Running st1, [Getch])
      else
        '(st2, evs) <- update_phase st1 inp wps ;;
        if TARGET_COUNT <=? len (found st2)
        then Ok (Summary st2, Getch :: evs)
        else Ok (Running st2, Getch :: evs)
  end.

(** Lines 123-127: the state before the first iteration, [draws] holding
    the random draws of the [cols//8] initial drops, in order. *)
Fixpoint initial_drops (draws : list spawn_draw) : result (list Drop.t) :=
  match draws with
  | [] => Ok []
  | sd :: rest =>
      d <- new_drop sd ;;
      ds <- initial_drops rest ;;
      Ok (d :: ds)
  end.

Definition initial_state (draws : list spawn_draw) : result state :=
  ds <- initial_drops (firstn (Z.to_nat (cols / 8)) draws) ;;
  Ok (State ds [] [] 0 0 PyFloat.f0_05 false).

(** The loop, for as many iterations as there are inputs. *)
Fixpoint run (st : state) (ins : list input) : result (outcome * list event) :=
  match ins with
  | [] => Ok (Running st, [])
  | inp :: rest =>
      '(o, evs) <- tick st inp ;;
      match o with
      | Running st' =>
          '(o', evs') <- run st' rest ;;
          Ok (o', evs ++ evs')
      | Summary _ => Ok (o, evs)
      end
  end.

End Main.

(** ** The conversions of an iteration (lines 133 and 163) *)

(** [chr(ch)] (line 133), evaluated for every key read: a [ValueError]
    outside [range(0x110000)], an [OverflowError] for an argument that does
    not fit a C [int]. *)
Definition py_chr (ch : Z) : result glyph :=
  if (0 <=? ch) && (ch <? 1114112) then Ok ch
  else if (- 2 ^ 31 <=? ch) && (ch <? 2 ^ 31) then Raise ValueError
  else Raise OverflowError.

(** [int(elapsed)] and [int(wps)] of the HUD line (line 163). *)
Definition hud_numbers (elapsed wps : PyFloat.float) : result (Z * Z) :=
  t <- PyFloat.to_int elapsed ;;
  w <- PyFloat.to_int wps ;;
  Ok (t, w).

(** ** The drop phase of an iteration *)

(** Lines 144-156, the first part of [update_phase]: the new drop, if one is
    created, then the loop over [drops].  It reads the drops, the clusters
    and the found words of [st], which the key dispatch leaves as they
    are. *)
Definition drop_phase (WORD_LIST : list pystr) (height width : Z)
    (st : state) (inp : input) : result (list Drop.t * world) :=
  ds <- match spawn inp with
        | Some sd => d <- new_drop sd ;; Ok (drops st ++ [d])
        | None => Ok (drops st)
        end ;;
  step_drops WORD_LIST height width ds (morphs inp)
    (World (found st) (clusters st) [Erase]).

(** ** Loading the dictionary (lines 44-49) *)

(** [str.isspace] on one character: the code points [str.strip()] removes. *)
Definition is_space (c : glyph) : bool :=
  ((9 <=? c) && (c <=? 13)) || ((28 <=? c) && (c <=? 32)) ||
  (c =? 133) || (c =? 160) || (c =? 5760) ||
  ((8192 <=? c) && (c <=? 8202)) ||
  (c =? 8232) || (c =? 8233) || (c =? 8239) || (c =? 8287) || (c =? 12288).

Fixpoint lstrip (s : pystr) : pystr :=
  match s with
  | [] => []
  | c :: rest => if is_space c then lstrip rest else s
  end.

Definition rstrip (s : pystr) : pystr := rev (lstrip (rev s)).

(** [w.strip()] *)
Definition strip (s : pystr) : pystr := rstrip (lstrip s).

(** The two messages printed before [sys.exit(1)]. *)
Inductive startup_error : Type :=
| MissingFile       (* "Error: Missing hebrew_words.txt" *)
| NoWordsInRange.   (* "Error: No words in specified length range." *)

(** What [open] or the decoding of a line raises when the file is there but
    cannot be read: a directory or a file without read permission, bytes that
    are not UTF-8. *)
Inductive read_error : Type :=
| OSError
| UnicodeDecodeError.

(** What lines 44-47 find on disk: no file; a file that [open], or the
    iteration over it, fails on; or the lines the iteration yields. *)
Inductive dictionary_file : Type :=
| Absent
| Unreadable (e : read_error)
| Content (lines : list pystr).

(** How the module-level code ends: the process exits with status 1, an
    exception of lines 46-47 is left uncaught, or [WORD_LIST] is bound. *)
Inductive startup : Type :=
| Exit (status : Z) (why : startup_error)
| Uncaught (e : read_error)
| Loaded (words : list pystr).

Definition load_dictionary (file : dictionary_file) : startup :=
  match file with
  | Absent => Exit 1 MissingFile
  | Unreadable e => Uncaught e
  | Content lines =>
      match map strip (filter (fun w => in_length_range (strip w)) lines) with
      | [] => Exit 1 NoWordsInRange
      | words => Loaded words
      end
  end.

(** * Vocabulary of the properties *)

(** The ages of a trail count up from [k], newest entry first. *)
Fixpoint ages_from (k : Z) (tr : list Drop.entry) : Prop :=
  match tr with
  | [] => True
  | e :: rest => Drop.age e = k /\ ages_from (k + 1) rest
  end.

(** What every drop satisfies between two updates. *)
Definition trail_inv (d : Drop.t) : Prop :=
  ages_from 1 (Drop.trail d) /\ len (Drop.trail d) <= len (Drop.colors d).

(** The word a cluster spells. *)
Definition cluster_word (c : Cluster.t) : pystr :=
  map Cluster.l_ch (Cluster.letters c).

(** The log entries and beeps of a list of claimed words. *)
Definition claim_events (ws : list pystr) : list event :=
  flat_map (fun wd => [LogFound wd; Beep]) ws.

(** The exact value of a finite float, in units of [2^-1074] (the spacing of
    the smallest binary64 numbers, so the result is an integer). *)
Definition exact (a : PyFloat.float) : Z :=
  match a with
  | S754_finite s m e => cond_Zopp s (Zpos m * 2 ^ (e + 1074))
  | _ => 0
  end.

(** A finite float below [2^1022] in magnitude. *)
Definition moderate (a : PyFloat.float) : bool :=
  match a with
  | S754_zero _ => true
  | S754_finite _ _ e => e <=? 969
  | _ => false
  end.

(** What [binary_round_aux] does once the mantissa [m''] has been rounded at
    exponent [e']: a last renormalising shift and the overflow test. *)
Definition finish (sx : bool) (m'' e' : Z) : spec_float :=
  let k2 := fexp prec emax (Zdigits2 m'' + e') - e' in
  let m3 := if 0 <? k2 then m'' / 2 ^ k2 else m'' in
  let e3 := if 0 <? k2 then e' + k2 else e' in
  match m3 with
  | Z0 => S754_zero sx
  | Zpos p => if e3 <=? emax - prec then S754_finite sx p e3 else S754_infinity sx
  | Zneg _ => S754_nan
  end.

(** What every drop satisfies between two updates, for its position: a
    well-formed float that is not a NaN, moved by one of the layer speeds. *)
Definition position_inv (d : Drop.t) : Prop :=
  PyFloat.valid (Drop.y d) = true /\ PyFloat.is_nan (Drop.y d) = false /\
  In (Drop.speed d) Drop.LAYER_SPEEDS.

(** The key dispatch of successive iterations; [None] once [q] was read. *)
Fixpoint press_keys (keys : list Z) (st : state) : option state :=
  match keys with
  | [] => Some st
  | ch :: rest =>
      match handle_key st ch with
      | Some st' => press_keys rest st'
      | None => None
      end
  end.

(** The state an iteration ends in. *)
Definition state_of (o : outcome) : state :=
  match o with
  | Running st => st
  | Summary st => st
  end.

(** The drops, the clusters and the found words of [st'] are those of [st]. *)
Definition frozen (st st' : state) : Prop :=
  drops st' = drops st /\ clusters st' = clusters st /\ found st' = found st.

(** The value of [paused] when line 141 tests it, were it reached. *)
Definition paused_in_tick (st : state) (ch : Z) : bool :=
  match handle_key st ch with
  | Some st1 => paused st1
  | None => paused st
  end.

(** The words of the log entries among some calls, in order. *)
Fixpoint logged (evs : list event) : list pystr :=
  match evs with
  | [] => []
  | LogFound w :: rest => w :: logged rest
  | _ :: rest => logged rest
  end.

(** Two answers of the [curses] module to [curses.cos] and [curses.sin]: a
    module that has the attribute and returns a float, and one that has not. *)
Definition trig_returns (a : PyFloat.float) : result PyFloat.float :=
  Ok PyFloat.zero.

Definition trig_missing (a : PyFloat.float) : result PyFloat.float :=
  Raise AttributeError.

(** What an iteration, or several, may add to [found]: new words, none of
    them found before, each once, each with its log entry. *)
Definition extends (fd : list pystr) (evs : list event) (fd' : list pystr)
    (evs' : list event) : Prop :=
  exists new,
    fd' = fd ++ new /\ logged evs' = logged evs ++ new /\
    NoDup new /\ forall wd, In wd new -> ~ In wd fd.

(** An iteration without key, new drop or elapsed time; [ms] are the morph
    draws of the drops. *)
Definition quiet (ms : list (option glyph)) : input :=
  Input (-1) PyFloat.zero None ms.

(** An iteration that reads the key [ch] and draws nothing. *)
Definition keypress (ch : Z) : input := Input ch PyFloat.zero None [].

(** A window of 24 lines by 80 columns whose ten initial drops are of the
    fastest layer and start at row [-1.0]: all retire on iteration 19.  The
    first two morph on iterations 15 to 18, so that their trails read the
    ten letters alef to yod when they retire.  The dictionary holds these
    ten letters as one-letter words (a dictionary line 47 yields once
    [MIN_LEN] is lowered to 1; see [filtered_dictionary_never_matches] for
    the dictionary under [MIN_LEN = 10]). *)
Definition ten_letter_draws : list spawn_draw :=
  SpawnDraw 3 3 0 (PyFloat.of_int (-1)) 1488
  :: SpawnDraw 11 3 1 (PyFloat.of_int (-1)) 1493
  :: map (fun i => SpawnDraw (8 * i + 3) 3 2 (PyFloat.of_int (-1)) 1488)
         [2; 3; 4; 5; 6; 7; 8; 9].

Definition ten_letter_inputs : list input :=
  repeat (quiet (repeat None 10)) 14 ++
  [quiet (Some 1489 :: Some 1494 :: repeat None 8);
   quiet (Some 1490 :: Some 1495 :: repeat None 8);
   quiet (Some 1491 :: Some 1496 :: repeat None 8);
   quiet (Some 1492 :: Some 1497 :: repeat None 8);
   quiet (repeat None 10)].

Definition ten_letter_words : list pystr :=
  map (fun g => [g]) [1488; 1489; 1490; 1491; 1492; 1493; 1494; 1495; 1496; 1497].

(** A fast and a slow drop whose trails both read alef, bet when they
    retire, the first on the fifth iteration, the second on the ninth; the
    dictionary they meet holds that two-letter word. *)
Definition twice_draws : list spawn_draw :=
  [SpawnDraw 3 3 0 (PyFloat.of_int (-1)) 1489;
   SpawnDraw 5 1 1 (PyFloat.of_int (-1)) 1489].

Definition twice_inputs : list input :=
  [quiet []; quiet []; quiet []; quiet [Some 1488; None]; quiet [];
   quiet []; quiet []; quiet [Some 1488]; quiet []].

(** A drop of [main]: its trail satisfies [trail_inv] under a five-colour
    gradient. *)
Definition main_drop (d : Drop.t) : Prop :=
  trail_inv d /\ len (Drop.colors d) = 5.

(** A paused session holding one fresh drop. *)
Definition paused_sample : state :=
  State [Drop.Make 3 0 (PyFloat.of_int (-1)) PyFloat.f0_4 1488 [] [1; 2; 3; 4; 5]]
        [] [] 7 1 PyFloat.f0_05 true.

(** A drop as [main] creates it, used by the examples: column 3, layer 0,
    start row [-1.0], gradient 0, glyph alef. *)
Definition sample_draw : spawn_draw :=
  SpawnDraw 3 0 0 (PyFloat.of_int (-1)) 1488.

(** The delays of the [time.sleep] calls among some calls, in order. *)
Fixpoint sleeps (evs : list event) : list PyFloat.float :=
  match evs with
  | [] => []
  | Sleep d :: rest => d :: sleeps rest
  | _ :: rest => sleeps rest
  end.

(** A pacing delay that is a well-formed float not below 0.01. *)
Definition delay_ok (d : PyFloat.float) : Prop :=
  PyFloat.valid d = true /\ PyFloat.leb PyFloat.f0_01 d = true.

(** Random draws as [random.randrange(4)] and [random.uniform(-max_row, 0)]
    give them: indices in [0, 4) and a well-formed finite start row below
    [2^1022] in magnitude. *)
Definition draw_ok (sd : spawn_draw) : Prop :=
  0 <= s_layer sd < 4 /\ 0 <= s_gradient sd < 4 /\
  PyFloat.valid (s_y0 sd) = true /\ moderate (s_y0 sd) = true.

(** What an iteration reads: a key code [getch] can return, a finite elapsed
    time, and a new drop as [draw_ok] describes. *)
Definition input_ok (inp : input) : Prop :=
  -1 <= key inp < 1114112 /\ PyFloat.is_finite (elapsed inp) = true /\
  match spawn inp with
  | Some sd => draw_ok sd
  | None => True
  end.

(** The draws of line 127 or 144 on a window of [height] by [width]:
    [randrange(cols)], [randrange(4)] twice, [uniform(-rows, 0)] and
    [choice(ALPHABET)]. *)
Definition draw_of_main (height width : Z) (sd : spawn_draw) : Prop :=
  draw_ok sd /\ 0 <= s_x sd < width /\
  PyFloat.leb (PyFloat.of_int (- (height - 1))) (s_y0 sd) = true /\
  PyFloat.leb (s_y0 sd) PyFloat.zero = true /\
  In (s_char sd) ALPHABET.

(** What an iteration of [main] reads on such a window: the new drop and
    the morph glyphs are drawn as the source draws them. *)
Definition input_of_main (height width : Z) (inp : input) : Prop :=
  input_ok inp /\
  match spawn inp with
  | Some sd => draw_of_main height width sd
  | None => True
  end /\
  Forall (fun m => match m with
                   | Some g => In g ALPHABET
                   | None => True
                   end) (morphs inp).

(** The ten initial drops of a window of 24 lines by 80 columns, two
    iterations of its session, the second with a key and a new drop, and the
    iteration that follows. *)
Definition wide_draws : list spawn_draw :=
  map (fun i => SpawnDraw (8 * i + 3) (i mod 4) ((i + 1) mod 4)
                          (PyFloat.of_int (- i)) 1488)
      [0; 1; 2; 3; 4; 5; 6; 7; 8; 9].

Definition wide_inputs : list input :=
  [Input (-1) PyFloat.zero None (repeat None 10);
   Input 43 PyFloat.f0_05
     (Some (SpawnDraw 40 2 1 (PyFloat.of_int (-5)) 1489))
     (Some 1490 :: repeat None 10)].

Definition wide_next : input :=
  Input 45 PyFloat.f0_1 (Some (SpawnDraw 79 3 0 (PyFloat.of_int (-23)) 1514))
        (repeat None 12).

(** What [main] keeps true of every drop in [drops]. *)
Definition live_drop (d : Drop.t) : Prop :=
  main_drop d /\ position_inv d /\ moderate (Drop.y d) = true.

(** What [main] keeps true of its state between iterations. *)
Definition session_inv (st : state) : Prop :=
  Forall live_drop (drops st) /\ clusters st = [] /\ 0 <= spin st < 4.

(** A cluster as line 154 creates it: not yet updated, forty iterations to
    live, at least one letter. *)
Definition fresh_cluster (c : Cluster.t) : Prop :=
  Cluster.age c = 0 /\ Cluster.lifespan c = 40 /\ Cluster.letters c <> [].

(** A session whose only drop, past the bottom of a ten-line screen, retires
    on the next update with a trail that reads alef, bet. *)
Definition retiring_sample : state :=
  State [Drop.Make 3 0 (PyFloat.of_int 30) PyFloat.f0_4 1488
           [Drop.Entry 30 1489 1] [1; 2; 3; 4; 5]]
        [] [] 0 0 PyFloat.f0_05 false.

(** The rows of a trail, newest entry first, start at or above row [top]
    and never move down again. *)
Fixpoint rows_descend (top : Z) (tr : list Drop.entry) : Prop :=
  match tr with
  | [] => True
  | e :: rest => Drop.ty e <= top /\ rows_descend (Drop.ty e) rest
  end.

(** The trail of a drop lies at or above the row of the drop itself. *)
Definition trail_below (d : Drop.t) : Prop :=
  forall row, PyFloat.to_int (Drop.y d) = Ok row ->
              rows_descend row (Drop.trail d).

(** A cluster after [n] calls of [update]. *)
Definition cluster_after (n : nat) (c : Cluster.t) : Cluster.t :=
  Nat.iter n (fun c => fst (Cluster.update c)) c.

(** A radius [update] can extend: a well-formed float, not a NaN. *)
Definition radius_ok (l : Cluster.letter) : Prop :=
  PyFloat.valid (Cluster.rad l) = true /\ Cluster.rad l <> S754_nan.

(** * Properties *)

(** The literals are the values the binary64 parser produces. *)
Example literals_are_binary64 :
  map Prim2SF [0.4; 0.8; 1.2; 1.6; 0.05; 0.01; 0.15; 0.3; 0.1; 3.1415]%float =
  [PyFloat.f0_4; PyFloat.f0_8; PyFloat.f1_2; PyFloat.f1_6; PyFloat.f0_05;
   PyFloat.f0_01; PyFloat.f0_15; PyFloat.f0_3; PyFloat.f0_1; PyFloat.f3_1415].
Proof. reflexivity. Qed.

(** ** The error monad *)

Lemma bind_Ok_inv {A B : Type} (m : result A) (k : A -> result B) (b : B) :
  bind m k = Ok b -> exists a, m = Ok a /\ k a = Ok b.
Proof. destruct m as [a|e]; simpl; [eauto | discriminate]. Qed.

Ltac inv_bind H :=
  let a := fresh "a" in
  let Ha := fresh "Ha" in
  apply bind_Ok_inv in H; destruct H as (a & Ha & H).

Tactic Notation "bind_inv" hyp(H) "as" ident(a) ident(Ha) :=
  apply bind_Ok_inv in H; destruct H as (a & Ha & H).

Lemma len_nonneg {A : Type} (l : list A) : 0 <= len l.
Proof. unfold len; lia. Qed.

Lemma len_cons {A : Type} (a : A) (l : list A) : len (a :: l) = len l + 1.
Proof. unfold len; simpl length; lia. Qed.

(** ** Binary64 rounding *)

Section Binary64.

Local Abbreviation fexp64 := (fexp prec emax).

Lemma fexp64_eq (t : Z) : fexp64 t = Z.max (t - 53) (-1074).
Proof. reflexivity. Qed.

Lemma digits2_size (p : positive) : digits2_pos p = Pos.size p.
Proof. induction p; simpl; congruence. Qed.

Lemma pow2_pos (k : Z) : 0 <= k -> 0 < 2 ^ k.
Proof. intros; apply Z.pow_pos_nonneg; lia. Qed.

Lemma pow2_succ (k : Z) : 0 <= k -> 2 ^ (k + 1) = 2 * 2 ^ k.
Proof. intros; rewrite Z.pow_add_r by lia; lia. Qed.

(** [Zdigits2 z] is the bit length of a positive [z]. *)
Lemma Zdigits2_bounds (z : Z) :
  0 < z -> 1 <= Zdigits2 z /\ 2 ^ (Zdigits2 z - 1) <= z < 2 ^ Zdigits2 z.
Proof.
  destruct z as [|p|p]; try lia; intros _; unfold Zdigits2.
  rewrite digits2_size.
  pose proof (Pos.size_gt p) as Hgt. pose proof (Pos.size_le p) as Hle.
  apply Pos2Z.pos_lt_pos in Hgt. apply Pos2Z.pos_le_pos in Hle.
  rewrite Pos2Z.inj_pow in Hgt, Hle. rewrite Pos2Z.inj_xO in Hle.
  assert (H1 : 1 <= Z.pos (Pos.size p)) by lia.
  replace (Z.pos (Pos.size p)) with ((Z.pos (Pos.size p) - 1) + 1) in Hle at 1 by lia.
  rewrite pow2_succ in Hle by lia. lia.
Qed.

Lemma Zdigits2_unique (z d : Z) :
  2 ^ (d - 1) <= z < 2 ^ d -> 0 < z -> Zdigits2 z = d.
Proof.
  intros [Hlo Hhi] Hz.
  destruct (Zdigits2_bounds z Hz) as (H1 & Hlo' & Hhi').
  assert (Hd : 0 <= d).
  { destruct (Z.lt_ge_cases d 0) as [Hneg|]; [|assumption].
    rewrite Z.pow_neg_r in Hhi by assumption. lia. }
  assert (Zdigits2 z - 1 < d).
  { apply (Z.pow_lt_mono_r_iff 2); lia. }
  assert (d - 1 < Zdigits2 z).
  { apply (Z.pow_lt_mono_r_iff 2); lia. }
  lia.
Qed.

Lemma Zdigits2_nonneg (z : Z) : 0 <= Zdigits2 z.
Proof. destruct z; simpl; lia. Qed.

Lemma Zdigits2_mono (a b : Z) : 0 < a -> a <= b -> Zdigits2 a <= Zdigits2 b.
Proof.
  intros Ha Hab.
  destruct (Zdigits2_bounds a Ha) as (_ & Hlo & _).
  destruct (Zdigits2_bounds b) as (_ & _ & Hhi); [lia|].
  assert (Zdigits2 a - 1 < Zdigits2 b); [|lia].
  apply (Z.pow_lt_mono_r_iff 2); [lia | apply Zdigits2_nonneg | lia].
Qed.

Lemma Zdigits2_shl (z j : Z) :
  0 < z -> 0 <= j -> Zdigits2 (z * 2 ^ j) = Zdigits2 z + j.
Proof.
  intros Hz Hj. destruct (Zdigits2_bounds z Hz) as (H1 & Hlo & Hhi).
  pose proof (pow2_pos j Hj).
  apply Zdigits2_unique; [|nia].
  replace (Zdigits2 z + j - 1) with ((Zdigits2 z - 1) + j) by lia.
  rewrite !Z.pow_add_r by lia. nia.
Qed.

Lemma Zdigits2_shr (z k : Z) :
  0 < z -> 0 <= k -> 0 < z / 2 ^ k -> Zdigits2 (z / 2 ^ k) = Zdigits2 z - k.
Proof.
  intros Hz Hk Hq. destruct (Zdigits2_bounds z Hz) as (H1 & Hlo & Hhi).
  pose proof (pow2_pos k Hk) as Hp.
  assert (Hkd : k < Zdigits2 z).
  { destruct (Z.lt_ge_cases k (Zdigits2 z)) as [|Hge]; [assumption|].
    assert (2 ^ Zdigits2 z <= 2 ^ k) by (apply Z.pow_le_mono_r; lia).
    rewrite Z.div_small in Hq by lia. lia. }
  apply Zdigits2_unique; [|assumption]. split.
  - apply Z.div_le_lower_bound; [assumption|].
    rewrite <- Z.pow_add_r by lia.
    replace (k + (Zdigits2 z - k - 1)) with (Zdigits2 z - 1) by lia. assumption.
  - apply Z.div_lt_upper_bound; [assumption|].
    rewrite <- Z.pow_add_r by lia.
    replace (k + (Zdigits2 z - k)) with (Zdigits2 z) by lia. assumption.
Qed.

(** Shifting right. *)

Lemma shr_1_m (mrs : shr_record) :
  0 <= shr_m mrs -> shr_m (shr_1 mrs) = shr_m mrs / 2.
Proof.
  destruct mrs as [m r s]; simpl; intros Hm.
  rewrite <- Z.div2_div.
  destruct m as [|[p|p|]|p]; try reflexivity; lia.
Qed.

Lemma iter_shr_m (n : positive) (mrs : shr_record) :
  0 <= shr_m mrs ->
  shr_m (iter_pos shr_1 n mrs) = shr_m mrs / 2 ^ Z.pos n.
Proof.
  revert mrs; induction n as [n IH|n IH|]; intros mrs Hm; simpl iter_pos.
  - assert (H2 : 0 <= shr_m (shr_1 mrs)).
    { rewrite shr_1_m by assumption. apply Z.div_pos; lia. }
    pose proof (pow2_pos (Z.pos n) ltac:(lia)) as Hp.
    assert (H3 : 0 <= shr_m (iter_pos shr_1 n (shr_1 mrs))).
    { rewrite IH by assumption. apply Z.div_pos; lia. }
    rewrite IH, IH, shr_1_m by assumption.
    rewrite !Z.div_div by lia. f_equal.
    assert (E : Z.pos n~1 = 1 + Z.pos n + Z.pos n) by lia.
    rewrite E, !Z.pow_add_r by lia. lia.
  - pose proof (pow2_pos (Z.pos n) ltac:(lia)) as Hp.
    assert (H3 : 0 <= shr_m (iter_pos shr_1 n mrs)).
    { rewrite IH by assumption. apply Z.div_pos; lia. }
    rewrite IH, IH by assumption.
    rewrite !Z.div_div by lia. f_equal.
    assert (E : Z.pos n~0 = Z.pos n + Z.pos n) by lia.
    rewrite E, !Z.pow_add_r by lia. lia.
  - rewrite shr_1_m by assumption. reflexivity.
Qed.

Lemma shr_record_of_loc_m (m : Z) (l : location) :
  shr_m (shr_record_of_loc m l) = m.
Proof. destruct l as [|[]]; reflexivity. Qed.

(** The mantissa and exponent [shr_fexp] leaves. *)
Lemma shr_fexp_spec (m e : Z) (l : location) :
  0 <= m ->
  let k := fexp64 (Zdigits2 m + e) - e in
  shr_m (fst (shr_fexp prec emax m e l)) = (if 0 <? k then m / 2 ^ k else m) /\
  snd (shr_fexp prec emax m e l) = (if 0 <? k then e + k else e).
Proof.
  intros Hm k. unfold shr_fexp, shr. fold k.
  destruct k as [|p|p] eqn:Hk; simpl.
  - split; [apply shr_record_of_loc_m | reflexivity].
  - split; [|reflexivity].
    rewrite iter_shr_m; rewrite shr_record_of_loc_m; [reflexivity | assumption].
  - split; [apply shr_record_of_loc_m | reflexivity].
Qed.

Lemma round_nearest_even_bounds (m : Z) (l : location) :
  m <= round_nearest_even m l <= m + 1.
Proof. destruct l as [|[]]; simpl; try destruct (Z.even m); lia. Qed.


Lemma binary_round_aux_unfold (sx : bool) (mx ex : Z) (lx : location) :
  0 <= mx ->
  let k1 := fexp64 (Zdigits2 mx + ex) - ex in
  let F := if 0 <? k1 then mx / 2 ^ k1 else mx in
  let e' := if 0 <? k1 then ex + k1 else ex in
  exists m'', F <= m'' <= F + 1 /\
              binary_round_aux prec emax sx mx ex lx = finish sx m'' e'.
Proof.
  intros Hm k1 F e'. unfold binary_round_aux.
  destruct (shr_fexp_spec mx ex lx Hm) as [H1 H2]. fold k1 in H1, H2.
  destruct (shr_fexp prec emax mx ex lx) as [mrs1 e1]. cbn [fst snd] in H1, H2.
  fold F in H1. fold e' in H2. subst e1.
  set (m'' := round_nearest_even (shr_m mrs1) (loc_of_shr_record mrs1)).
  assert (Hb : F <= m'' <= F + 1).
  { unfold m''. rewrite <- H1. apply round_nearest_even_bounds. }
  assert (HF : 0 <= F).
  { unfold F. destruct (0 <? k1) eqn:Hk; [|assumption].
    apply Z.div_pos; [assumption|]. apply pow2_pos. apply Z.ltb_lt in Hk; lia. }
  exists m''. split; [exact Hb|].
  destruct (shr_fexp_spec m'' e' loc_Exact ltac:(lia)) as [H3 H4].
  destruct (shr_fexp prec emax m'' e' loc_Exact) as [mrs2 e2]. cbn [fst snd] in H3, H4.
  unfold finish. rewrite H3, H4. reflexivity.
Qed.

Lemma shl_align_spec (mx : positive) (ex ex' : Z) :
  Z.pos (fst (shl_align mx ex ex')) =
    (if ex' <? ex then Z.pos mx * 2 ^ (ex - ex') else Z.pos mx) /\
  snd (shl_align mx ex ex') = (if ex' <? ex then ex' else ex).
Proof.
  unfold shl_align.
  destruct (ex' - ex) as [|d|d] eqn:Hd.
  - destruct (Z.ltb_spec ex' ex); [lia|]. split; reflexivity.
  - destruct (Z.ltb_spec ex' ex); [lia|]. split; reflexivity.
  - destruct (Z.ltb_spec ex' ex); [|lia]. cbn [fst snd]. split; [|reflexivity].
    change (Pos.iter xO mx d) with (shift_pos d mx).
    rewrite shift_pos_correct, Z.pow_pos_fold.
    replace (ex - ex') with (Z.pos d) by lia. lia.
Qed.

Lemma binary_round_unfold (sx : bool) (m : positive) (e : Z) :
  let e0 := fexp64 (Zdigits2 (Z.pos m) + e) in
  let F := if e0 <? e then Z.pos m * 2 ^ (e - e0) else Z.pos m / 2 ^ (e0 - e) in
  exists m'', F <= m'' <= F + 1 /\
              binary_round prec emax sx m e = finish sx m'' e0.
Proof.
  intros e0 F. unfold binary_round.
  change (Z.pos (digits2_pos m)) with (Zdigits2 (Z.pos m)). fold e0.
  destruct (shl_align_spec m e e0) as [Hm He].
  destruct (shl_align m e e0) as [mz ez]. cbn [fst snd] in Hm, He.
  destruct (binary_round_aux_unfold sx (Z.pos mz) ez loc_Exact ltac:(lia))
    as (m'' & Hb & Heq).
  exists m''. rewrite Heq. clear Heq.
  revert Hm He Hb. unfold F.
  destruct (Z.ltb_spec e0 e) as [Hlt|Hge]; intros Hm He Hb.
  - (* the mantissa was shifted left to the canonical exponent *)
    assert (Hd : Zdigits2 (Z.pos mz) + ez = Zdigits2 (Z.pos m) + e).
    { rewrite Hm, He, Zdigits2_shl by lia. lia. }
    rewrite Hd in Hb |- *. fold e0 in Hb |- *. subst ez.
    rewrite Z.sub_diag in Hb |- *. cbn [Z.ltb Z.compare] in Hb |- *.
    rewrite <- Hm. split; [exact Hb | reflexivity].
  - injection Hm as ->. subst ez. fold e0 in Hb |- *.
    destruct (Z.ltb_spec 0 (e0 - e)) as [Hk|Hk].
    + replace (e + (e0 - e)) with e0 by lia. split; [exact Hb | reflexivity].
    + replace (e0 - e) with 0 by lia.
      rewrite Z.pow_0_r, Z.div_1_r. split; [exact Hb|].
      f_equal. unfold e0 in Hge, Hk |- *. lia.
Qed.


Lemma bounded_spec (m : positive) (e : Z) :
  bounded prec emax m e = true <->
  fexp64 (Zdigits2 (Z.pos m) + e) = e /\ e <= 971.
Proof.
  unfold bounded, canonical_mantissa.
  rewrite andb_true_iff, Z.eqb_eq, Z.leb_le. reflexivity.
Qed.

Lemma fexp64_mono (a b : Z) : a <= b -> fexp64 a <= fexp64 b.
Proof. rewrite !fexp64_eq; lia. Qed.

Lemma fexp64_ge (a : Z) : -1074 <= fexp64 a.
Proof. rewrite fexp64_eq; lia. Qed.

(** The last step of rounding returns a signed zero, a signed infinity or a
    canonical finite number. *)
Lemma finish_shape (sx : bool) (m'' e' : Z) :
  0 <= m'' -> -1074 <= e' ->
  (0 < m'' -> e' <= fexp64 (Zdigits2 m'' + e')) ->
  finish sx m'' e' = S754_zero sx \/ finish sx m'' e' = S754_infinity sx \/
  exists m3 e3, finish sx m'' e' = S754_finite sx m3 e3 /\
                bounded prec emax m3 e3 = true.
Proof.
  intros Hm He Hk. unfold finish.
  set (k2 := fexp64 (Zdigits2 m'' + e') - e').
  destruct (Z.ltb_spec 0 k2) as [Hk2|Hk2].
  - destruct (m'' / 2 ^ k2) as [|p|p] eqn:Hq; [auto | | ].
    + destruct (Z.leb_spec (e' + k2) (emax - prec)) as [Hle|Hgt]; [|auto].
      right; right. exists p, (e' + k2). split; [reflexivity|].
      apply bounded_spec. split; [|exact Hle].
      assert (Hpos : 0 < m'').
      { destruct (Z.eq_dec m'' 0) as [->|]; [|lia].
        rewrite Z.div_0_l in Hq by (pose proof (pow2_pos k2); lia). discriminate. }
      rewrite <- Hq, Zdigits2_shr by lia.
      replace (Zdigits2 m'' - k2 + (e' + k2)) with (Zdigits2 m'' + e') by lia.
      unfold k2; lia.
    + pose proof (Z.div_pos m'' (2 ^ k2) Hm (pow2_pos k2 ltac:(lia))). lia.
  - destruct m'' as [|p|p]; [auto | | lia].
    destruct (Z.leb_spec e' (emax - prec)) as [Hle|Hgt]; [|auto].
    right; right. exists p, e'. split; [reflexivity|].
    apply bounded_spec. split; [|exact Hle].
    specialize (Hk ltac:(lia)). unfold k2 in Hk2. lia.
Qed.

Lemma binary_round_shape (sx : bool) (m : positive) (e : Z) :
  binary_round prec emax sx m e = S754_zero sx \/
  binary_round prec emax sx m e = S754_infinity sx \/
  exists m3 e3, binary_round prec emax sx m e = S754_finite sx m3 e3 /\
                bounded prec emax m3 e3 = true.
Proof.
  destruct (binary_round_unfold sx m e) as (m'' & Hb & ->).
  set (e0 := fexp64 (Zdigits2 (Z.pos m) + e)) in *.
  pose proof (fexp64_ge (Zdigits2 (Z.pos m) + e)) as He0. fold e0 in He0.
  destruct (Zdigits2_bounds (Z.pos m) ltac:(lia)) as (Hd1 & Hlo & Hhi).
  revert Hb. destruct (Z.ltb_spec e0 e) as [Hlt|Hge]; intros Hb.
  - pose proof (pow2_pos (e - e0) ltac:(lia)) as Hp.
    apply finish_shape; [nia | lia |]. intros Hpos.
    assert (Hd : Zdigits2 (Z.pos m * 2 ^ (e - e0)) <= Zdigits2 m'').
    { apply Zdigits2_mono; nia. }
    rewrite Zdigits2_shl in Hd by lia.
    unfold e0 at 1. apply fexp64_mono. lia.
  - pose proof (pow2_pos (e0 - e) ltac:(lia)) as Hp.
    pose proof (Z.div_pos (Z.pos m) (2 ^ (e0 - e)) ltac:(lia) Hp) as HF.
    apply finish_shape; [lia | lia |]. intros Hpos.
    destruct (Z.eq_dec (Z.pos m / 2 ^ (e0 - e)) 0) as [Hz|Hnz].
    + (* underflow: the canonical exponent is the least one *)
      assert (Hsmall : Z.pos m < 2 ^ (e0 - e)).
      { apply Z.div_small_iff in Hz; lia. }
      assert (Zdigits2 (Z.pos m) - 1 < e0 - e).
      { apply (Z.pow_lt_mono_r_iff 2); lia. }
      assert (e0 = -1074) by (unfold e0 in *; rewrite fexp64_eq in *; lia).
      pose proof (fexp64_ge (Zdigits2 m'' + e0)). lia.
    + assert (Hd : Zdigits2 (Z.pos m / 2 ^ (e0 - e)) <= Zdigits2 m'').
      { apply Zdigits2_mono; lia. }
      rewrite Zdigits2_shr in Hd by lia.
      unfold e0 at 1. apply fexp64_mono. lia.
Qed.

(** Rounding a value that is not below the canonical number [(my, ey)]
    returns an infinity or a number that is not below it. *)
Lemma binary_round_ge (sx : bool) (m : positive) (e : Z) (my : positive) (ey : Z) :
  fexp64 (Zdigits2 (Z.pos my) + ey) = ey ->
  e <= ey ->
  Z.pos my * 2 ^ (ey - e) <= Z.pos m ->
  binary_round prec emax sx m e = S754_infinity sx \/
  exists m3 e3, binary_round prec emax sx m e = S754_finite sx m3 e3 /\
                (ey < e3 \/ (ey = e3 /\ Z.pos my <= Z.pos m3)).
Proof.
  intros Hcy Hey Hle.
  destruct (binary_round_unfold sx m e) as (m'' & Hb & ->).
  set (e0 := fexp64 (Zdigits2 (Z.pos m) + e)) in *.
  destruct (Zdigits2_bounds (Z.pos m) ltac:(lia)) as (Hd1 & Hlo & Hhi).
  destruct (Zdigits2_bounds (Z.pos my) ltac:(lia)) as (Hy1 & Hylo & Hyhi).
  pose proof (pow2_pos (ey - e) ltac:(lia)) as Hpy.
  assert (Hmag : Zdigits2 (Z.pos my) + ey <= Zdigits2 (Z.pos m) + e).
  { assert (Zdigits2 (Z.pos my) - 1 + (ey - e) < Zdigits2 (Z.pos m)); [|lia].
    apply (Z.pow_lt_mono_r_iff 2); [lia | lia |].
    rewrite Z.pow_add_r by lia. nia. }
  assert (He0 : ey <= e0).
  { rewrite <- Hcy. unfold e0. apply fexp64_mono. exact Hmag. }
  pose proof (fexp64_ge (Zdigits2 (Z.pos my) + ey)) as Hey_min.
  rewrite Hcy in Hey_min.
  revert Hb. destruct (Z.ltb_spec e0 e) as [Hlt|Hge]; [lia|]. intros Hb.
  pose proof (pow2_pos (e0 - e) ltac:(lia)) as Hp0.
  set (F := Z.pos m / 2 ^ (e0 - e)) in *.
  assert (HF1 : 1 <= F).
  { apply Z.div_le_lower_bound; [assumption|].
    destruct (Z.eq_dec e0 ey) as [Heq|Hne].
    - rewrite Heq. nia.
    - assert (Hc : e0 = Zdigits2 (Z.pos m) + e - 53).
      { unfold e0 in *. rewrite fexp64_eq in *. lia. }
      assert (2 ^ (e0 - e) <= 2 ^ (Zdigits2 (Z.pos m) - 1)).
      { apply Z.pow_le_mono_r; lia. }
      lia. }
  assert (HFy : e0 = ey -> Z.pos my <= F).
  { intros Heq. apply Z.div_le_lower_bound; [assumption|]. rewrite Heq. lia. }
  unfold finish.
  set (k2 := fexp64 (Zdigits2 m'' + e0) - e0).
  destruct (Zdigits2_bounds m'' ltac:(lia)) as (Hd'' & Hlo'' & Hhi'').
  destruct (Z.ltb_spec 0 k2) as [Hk2|Hk2].
  - assert (Hk : k2 = Zdigits2 m'' - 53).
    { unfold k2 in *. rewrite fexp64_eq in *. lia. }
    assert (Hq : 1 <= m'' / 2 ^ k2).
    { apply Z.div_le_lower_bound; [apply pow2_pos; lia|].
      assert (2 ^ k2 <= 2 ^ (Zdigits2 m'' - 1)) by (apply Z.pow_le_mono_r; lia).
      lia. }
    destruct (m'' / 2 ^ k2) as [|p|p]; try lia.
    destruct (e0 + k2 <=? emax - prec); [|auto].
    right. exists p, (e0 + k2). split; [reflexivity|]. left; lia.
  - destruct m'' as [|p|p]; try lia.
    destruct (e0 <=? emax - prec); [|auto].
    right. exists p, e0. split; [reflexivity|].
    destruct (Z.eq_dec e0 ey) as [Heq|Hne]; [right | left; lia].
    split; [lia|]. specialize (HFy Heq). lia.
Qed.

(** Rounding a value below the canonical number [(mx, ex)] returns a zero
    or a number that is not above it; it cannot overflow. *)
Lemma binary_round_le (sx : bool) (m : positive) (e : Z) (mx : positive) (ex : Z) :
  fexp64 (Zdigits2 (Z.pos mx) + ex) = ex -> ex <= 971 ->
  e <= ex ->
  Z.pos m < Z.pos mx * 2 ^ (ex - e) ->
  binary_round prec emax sx m e = S754_zero sx \/
  exists m3 e3, binary_round prec emax sx m e = S754_finite sx m3 e3 /\
                (e3 < ex \/ (e3 = ex /\ Z.pos m3 <= Z.pos mx)).
Proof.
  intros Hcx Hbx Hex Hlt.
  destruct (binary_round_unfold sx m e) as (m'' & Hb & ->).
  set (e0 := fexp64 (Zdigits2 (Z.pos m) + e)) in *.
  destruct (Zdigits2_bounds (Z.pos m) ltac:(lia)) as (Hd1 & Hlo & Hhi).
  destruct (Zdigits2_bounds (Z.pos mx) ltac:(lia)) as (Hx1 & Hxlo & Hxhi).
  pose proof (pow2_pos (ex - e) ltac:(lia)) as Hpx.
  pose proof (fexp64_ge (Zdigits2 (Z.pos m) + e)) as He0min. fold e0 in He0min.
  assert (Hmag : Zdigits2 (Z.pos m) + e <= Zdigits2 (Z.pos mx) + ex).
  { assert (Zdigits2 (Z.pos m) - 1 < Zdigits2 (Z.pos mx) + (ex - e)); [|lia].
    apply (Z.pow_lt_mono_r_iff 2); [lia | lia |].
    rewrite Z.pow_add_r by lia. nia. }
  assert (He0 : e0 <= ex).
  { rewrite <- Hcx. unfold e0. apply fexp64_mono. exact Hmag. }
  pose proof (pow2_pos (ex - e0) ltac:(lia)) as HpB.
  set (B := Z.pos mx * 2 ^ (ex - e0)).
  assert (HB : 0 <= m'' <= B).
  { revert Hb. destruct (Z.ltb_spec e0 e) as [Hl|Hg]; intros Hb.
    - pose proof (pow2_pos (e - e0) ltac:(lia)) as Hp.
      assert (Z.pos m * 2 ^ (e - e0) < B); [|nia].
      unfold B. replace (ex - e0) with ((ex - e) + (e - e0)) by lia.
      rewrite Z.pow_add_r by lia. nia.
    - pose proof (pow2_pos (e0 - e) ltac:(lia)) as Hp.
      pose proof (Z.div_pos (Z.pos m) (2 ^ (e0 - e)) ltac:(lia) Hp).
      assert (Z.pos m / 2 ^ (e0 - e) < B); [|lia].
      apply Z.div_lt_upper_bound; [assumption|].
      unfold B. rewrite Z.mul_comm, <- Z.mul_assoc, <- Z.pow_add_r by lia.
      replace (ex - e0 + (e0 - e)) with (ex - e) by lia. exact Hlt. }
  clear Hb. unfold finish.
  set (k2 := fexp64 (Zdigits2 m'' + e0) - e0).
  destruct (Z.eq_dec m'' 0) as [->|Hnz].
  { assert (k2 <= 0) by (unfold k2; simpl; rewrite fexp64_eq; lia).
    destruct (Z.ltb_spec 0 k2); [lia | auto]. }
  assert (Hd'' : Zdigits2 m'' + e0 <= Zdigits2 (Z.pos mx) + ex).
  { assert (Zdigits2 m'' <= Zdigits2 B) by (apply Zdigits2_mono; lia).
    unfold B in *. rewrite Zdigits2_shl in * by lia. lia. }
  assert (He3 : fexp64 (Zdigits2 m'' + e0) <= ex).
  { rewrite <- Hcx. apply fexp64_mono. exact Hd''. }
  destruct (Z.ltb_spec 0 k2) as [Hk2|Hk2].
  - pose proof (pow2_pos k2 ltac:(lia)) as Hpk.
    pose proof (Z.div_pos m'' (2 ^ k2) ltac:(lia) Hpk) as Hq0.
    destruct (m'' / 2 ^ k2) as [|p|p] eqn:Hq; [auto | | lia].
    destruct (Z.leb_spec (e0 + k2) (emax - prec)) as [_|Hov];
      [|change (emax - prec) with 971 in Hov; unfold k2 in Hov; lia].
    right. exists p, (e0 + k2). split; [reflexivity|].
    destruct (Z.eq_dec (e0 + k2) ex) as [Heq|Hne]; [right | left; unfold k2 in *; lia].
    split; [exact Heq|]. rewrite <- Hq.
    apply Z.div_le_upper_bound; [assumption|].
    replace k2 with (ex - e0) by lia. unfold B in HB. lia.
  - destruct m'' as [|p|p]; try lia.
    destruct (Z.leb_spec e0 (emax - prec)) as [_|Hov];
      [|change (emax - prec) with 971 in Hov; lia].
    right. exists p, e0. split; [reflexivity|].
    destruct (Z.eq_dec e0 ex) as [Heq|Hne]; [right | left; lia].
    split; [exact Heq|]. unfold B in HB. rewrite Heq, Z.sub_diag in HB. lia.
Qed.


Lemma align_value (mx : positive) (ex ez : Z) :
  ez <= ex -> Z.pos (fst (shl_align mx ex ez)) = Z.pos mx * 2 ^ (ex - ez).
Proof.
  intros H. destruct (shl_align_spec mx ex ez) as [-> _].
  destruct (Z.ltb_spec ez ex); [reflexivity|].
  replace (ex - ez) with 0 by lia. lia.
Qed.

Lemma SFleb_finite (s : bool) (m1 m2 : positive) (e1 e2 : Z) :
  (if s then e2 < e1 \/ (e2 = e1 /\ Z.pos m2 <= Z.pos m1)
   else e1 < e2 \/ (e1 = e2 /\ Z.pos m1 <= Z.pos m2)) ->
  SFleb (S754_finite s m1 e1) (S754_finite s m2 e2) = true.
Proof.
  unfold SFleb, SFcompare.
  change (Pos.compare_cont Eq m1 m2) with (Pos.compare m1 m2).
  destruct s; intros [H|[-> H]].
  - rewrite (proj2 (Z.compare_gt_iff e1 e2)) by lia. reflexivity.
  - rewrite Z.compare_refl.
    destruct (Pos.compare_spec m1 m2); simpl; try reflexivity; lia.
  - rewrite (proj2 (Z.compare_lt_iff e1 e2)) by lia. reflexivity.
  - rewrite Z.compare_refl.
    destruct (Pos.compare_spec m1 m2); simpl; try reflexivity; lia.
Qed.

(** Adding a positive finite number [s] to a well-formed [x] that is not a
    NaN gives a well-formed number, not a NaN, that is not below [x]. *)
Lemma SF64add_pos_ge (x : spec_float) (ms : positive) (es : Z) :
  valid_binary x = true -> x <> S754_nan ->
  bounded prec emax ms es = true ->
  let r := SF64add x (S754_finite false ms es) in
  SFleb x r = true /\ valid_binary r = true /\ r <> S754_nan.
Proof.
  intros Hvx Hnan Hvs r. subst r.
  destruct x as [sx|sx| |sx mx ex]; [| | congruence |].
  - (* zero *) simpl. repeat split; [exact Hvs | discriminate].
  - (* infinity *) simpl. destruct sx; repeat split; discriminate.
  - simpl in Hvx. apply bounded_spec in Hvx. destruct Hvx as [Hcx Hbx].
    unfold SF64add, SFadd.
    set (ez := Z.min ex es).
    rewrite !align_value by (unfold ez; lia).
    pose proof (pow2_pos (ex - ez) ltac:(unfold ez; lia)) as Hpx.
    pose proof (pow2_pos (es - ez) ltac:(unfold ez; lia)) as Hps.
    set (X := Z.pos mx * 2 ^ (ex - ez)) in *.
    set (S := Z.pos ms * 2 ^ (es - ez)) in *.
    assert (HX : 0 < X) by (unfold X; nia).
    assert (HS : 0 < S) by (unfold S; nia).
    destruct sx; unfold cond_Zopp.
    + (* x negative *)
      destruct (- X + S) as [|p|p] eqn:HM; unfold binary_normalize.
      * repeat split; discriminate.
      * destruct (binary_round_shape false p ez)
          as [-> | [-> | (m3 & e3 & -> & Hv)]];
          repeat split; try discriminate; exact Hv.
      * destruct (binary_round_le true p ez mx ex Hcx Hbx
                    ltac:(unfold ez; lia) ltac:(fold X; lia))
          as [Hr | (m3 & e3 & Hr & Hcmp)].
        -- rewrite Hr. repeat split; discriminate.
        -- destruct (binary_round_shape true p ez)
             as [Hz | [Hi | (m3' & e3' & Hf & Hv)]]; try congruence.
           rewrite Hf in Hr |- *. injection Hr as -> ->.
           split; [apply SFleb_finite; exact Hcmp|].
           split; [exact Hv | discriminate].
    + (* x positive *)
      destruct (X + S) as [|p|p] eqn:HM; try lia. unfold binary_normalize.
      destruct (binary_round_ge false p ez mx ex Hcx
                  ltac:(unfold ez; lia) ltac:(fold X; lia))
        as [Hr | (m3 & e3 & Hr & Hcmp)].
      * rewrite Hr. repeat split; discriminate.
      * destruct (binary_round_shape false p ez)
          as [Hz | [Hi | (m3' & e3' & Hf & Hv)]]; try congruence.
        rewrite Hf in Hr |- *. injection Hr as -> ->.
        split; [apply SFleb_finite; exact Hcmp|].
        split; [exact Hv | discriminate].
Qed.

Lemma SFleb_trans (a b c : spec_float) :
  SFleb a b = true -> SFleb b c = true -> SFleb a c = true.
Proof.
  unfold SFleb, SFcompare.
  destruct a as [sa|sa| |sa ma ea], b as [sb|sb| |sb mb eb],
           c as [sc|sc| |sc mc ec];
    try destruct sa; try destruct sb; try destruct sc;
    try discriminate; try reflexivity;
    change (Pos.compare_cont Eq ?p ?q) with (Pos.compare p q);
    repeat match goal with
           | |- context [Z.compare ?u ?v] => destruct (Z.compare_spec u v)
           | |- context [Pos.compare ?u ?v] => destruct (Pos.compare_spec u v)
           end; simpl; try discriminate; try reflexivity; intros; lia.
Qed.

Lemma SFleb_refl (a : spec_float) : a <> S754_nan -> SFleb a a = true.
Proof.
  unfold SFleb, SFcompare. intros Hnan.
  destruct a as [sa|sa| |sa ma ea]; [reflexivity | destruct sa; reflexivity | congruence |].
  change (Pos.compare_cont Eq ma ma) with (Pos.compare ma ma).
  rewrite Z.compare_refl, Pos.compare_refl. destruct sa; reflexivity.
Qed.

Lemma finish_nonzero (sx s' : bool) (m'' e' : Z) :
  1 <= m'' -> -1074 <= e' -> finish sx m'' e' <> S754_zero s'.
Proof.
  intros Hm He. unfold finish.
  set (k2 := fexp64 (Zdigits2 m'' + e') - e').
  destruct (Zdigits2_bounds m'' ltac:(lia)) as (Hd & Hlo & Hhi).
  destruct (Z.ltb_spec 0 k2) as [Hk2|Hk2].
  - assert (Hk : k2 = Zdigits2 m'' - 53).
    { unfold k2 in *. rewrite fexp64_eq in *. lia. }
    assert (Hq : 1 <= m'' / 2 ^ k2).
    { apply Z.div_le_lower_bound; [apply pow2_pos; lia|].
      assert (2 ^ k2 <= 2 ^ (Zdigits2 m'' - 1)) by (apply Z.pow_le_mono_r; lia).
      lia. }
    destruct (m'' / 2 ^ k2) as [|p|p]; try lia.
    destruct (e' + k2 <=? emax - prec); discriminate.
  - destruct m'' as [|p|p]; try lia.
    destruct (e' <=? emax - prec); discriminate.
Qed.

(** Above the least exponent a positive mantissa never rounds to zero. *)
Lemma binary_round_nonzero (sx s' : bool) (m : positive) (e : Z) :
  -1074 <= e -> binary_round prec emax sx m e <> S754_zero s'.
Proof.
  intros He.
  destruct (binary_round_unfold sx m e) as (m'' & Hb & ->).
  set (e0 := fexp64 (Zdigits2 (Z.pos m) + e)) in *.
  pose proof (fexp64_ge (Zdigits2 (Z.pos m) + e)) as He0. fold e0 in He0.
  destruct (Zdigits2_bounds (Z.pos m) ltac:(lia)) as (Hd1 & Hlo & Hhi).
  apply finish_nonzero; [|exact He0].
  revert Hb. destruct (Z.ltb_spec e0 e) as [Hlt|Hge]; intros Hb.
  - pose proof (pow2_pos (e - e0) ltac:(lia)). nia.
  - pose proof (pow2_pos (e0 - e) ltac:(lia)) as Hp.
    assert (1 <= Z.pos m / 2 ^ (e0 - e)); [|lia].
    apply Z.div_le_lower_bound; [assumption|].
    destruct (Z.eq_dec e0 e) as [Heq|Hne].
    + rewrite Heq, Z.sub_diag. simpl. lia.
    + assert (Hc : e0 = Zdigits2 (Z.pos m) + e - 53).
      { unfold e0 in *. rewrite fexp64_eq in *. lia. }
      assert (2 ^ (e0 - e) <= 2 ^ (Zdigits2 (Z.pos m) - 1)).
      { apply Z.pow_le_mono_r; lia. }
      lia.
Qed.

Lemma of_int_nonzero (n : Z) (s : bool) :
  0 < n -> PyFloat.of_int n <> S754_zero s.
Proof.
  intros Hn. destruct n as [|p|p]; try lia.
  unfold PyFloat.of_int, binary_normalize. apply binary_round_nonzero. lia.
Qed.

Lemma canonical_mantissa_lt (m : positive) (e : Z) :
  fexp64 (Zdigits2 (Z.pos m) + e) = e -> Z.pos m < 2 ^ 53.
Proof.
  intros Hc. destruct (Zdigits2_bounds (Z.pos m) ltac:(lia)) as (H1 & _ & Hhi).
  rewrite fexp64_eq in Hc.
  assert (2 ^ Zdigits2 (Z.pos m) <= 2 ^ 53) by (apply Z.pow_le_mono_r; lia).
  lia.
Qed.

(** Adding a positive finite number to a finite number far from the largest
    floats (both below [2^1022]) gives a finite number. *)
Lemma SF64add_pos_finite (x : spec_float) (ms : positive) (es : Z) :
  valid_binary x = true -> moderate x = true ->
  bounded prec emax ms es = true -> es <= 969 ->
  PyFloat.is_finite (SF64add x (S754_finite false ms es)) = true.
Proof.
  intros Hvx Hmx Hvs Hes.
  apply bounded_spec in Hvs. destruct Hvs as [Hcs Hbs].
  destruct x as [sx|sx| |sx mx ex]; try discriminate; [reflexivity|].
  simpl in Hvx, Hmx. apply bounded_spec in Hvx. destruct Hvx as [Hcx Hbx].
  apply Z.leb_le in Hmx.
  unfold SF64add, SFadd.
  set (ez := Z.min ex es).
  rewrite !align_value by (unfold ez; lia).
  pose proof (pow2_pos (ex - ez) ltac:(unfold ez; lia)) as Hpx.
  pose proof (pow2_pos (es - ez) ltac:(unfold ez; lia)) as Hps.
  pose proof (canonical_mantissa_lt mx ex Hcx) as Hmx53.
  pose proof (canonical_mantissa_lt ms es Hcs) as Hms53.
  set (X := Z.pos mx * 2 ^ (ex - ez)) in *.
  set (S := Z.pos ms * 2 ^ (es - ez)) in *.
  assert (HX : 0 < X) by (unfold X; nia).
  assert (HS : 0 < S) by (unfold S; nia).
  assert (Hbig : forall m e, Z.pos m < 2 ^ 53 -> ez <= e -> e <= 969 ->
                             Z.pos m * 2 ^ (e - ez) < 2 ^ (1022 - ez)).
  { intros m e Hm He1 He2.
    pose proof (pow2_pos (e - ez) ltac:(lia)).
    assert (2 ^ 53 * 2 ^ (e - ez) <= 2 ^ (1022 - ez)).
    { rewrite <- Z.pow_add_r by lia. apply Z.pow_le_mono_r; lia. }
    nia. }
  pose proof (Hbig mx ex Hmx53 ltac:(unfold ez; lia) Hmx) as HXb. fold X in HXb.
  pose proof (Hbig ms es Hms53 ltac:(unfold ez; lia) Hes) as HSb. fold S in HSb.
  assert (Htop : 2 ^ 52 * 2 ^ (971 - ez) = 2 * 2 ^ (1022 - ez)).
  { rewrite <- Z.pow_add_r by (unfold ez; lia).
    replace (52 + (971 - ez)) with ((1022 - ez) + 1) by lia.
    apply pow2_succ. unfold ez; lia. }
  assert (Hfin : forall sx p, Z.pos p < 2 * 2 ^ (1022 - ez) ->
            PyFloat.is_finite (binary_round prec emax sx p ez) = true).
  { intros s p Hp.
    destruct (binary_round_le s p ez 4503599627370496 971)
      as [-> | (m3 & e3 & -> & _)]; try reflexivity; try (unfold ez; lia).
    change (Z.pos 4503599627370496) with (2 ^ 52). rewrite Htop. exact Hp. }
  destruct sx; unfold cond_Zopp, binary_normalize.
  - destruct (- X + S) as [|p|p] eqn:HM; [reflexivity | |]; apply Hfin; lia.
  - destruct (X + S) as [|p|p] eqn:HM; try lia. apply Hfin; lia.
Qed.

End Binary64.

(** ** Drop: the trail *)

Section DropTrail.

Import Drop.

Lemma prune_all_old (depth : Z) (tr : list entry) (k : Z) :
  depth <= k -> ages_from k tr -> age_and_prune depth tr = [].
Proof.
  revert k; induction tr as [|[r c a] rest IH]; intros k Hk Hages; simpl.
  - reflexivity.
  - destruct Hages as [Ha Hrest]; simpl in Ha; subst a.
    destruct (Z.ltb_spec k depth); [lia|].
    apply (IH (k + 1)); [lia | exact Hrest].
Qed.

Lemma prune_ages (depth : Z) (tr : list entry) (k : Z) :
  ages_from k tr ->
  ages_from (k + 1) (age_and_prune depth tr) /\
  len (age_and_prune depth tr) <= Z.max 0 (depth - k).
Proof.
  revert k; induction tr as [|[r c a] rest IH]; intros k Hages; simpl.
  - split; [exact I | unfold len; simpl; lia].
  - destruct Hages as [Ha Hrest]; simpl in Ha; subst a.
    destruct (Z.ltb_spec k depth) as [Hlt|Hge].
    + destruct (IH (k + 1) Hrest) as [IH1 IH2].
      split; [simpl; auto | rewrite len_cons; lia].
    + rewrite (prune_all_old depth rest (k + 1)) by (lia || assumption).
      split; [exact I | unfold len; simpl; lia].
Qed.

Lemma init_trail_inv x layer y0 c colors d :
  init x layer y0 c colors = Ok d -> trail_inv d /\ Drop.colors d = colors.
Proof.
  unfold init; intros H; inv_bind H; injection H as <-.
  repeat split; simpl. apply len_nonneg.
Qed.

Lemma update_fields d max_row m d' alive :
  update d max_row m = Ok (d', alive) ->
  exists row,
    PyFloat.to_int (PyFloat.add (y d) (speed d)) = Ok row /\
    trail d' = age_and_prune (len (colors d)) (Entry row (char d) 0 :: trail d) /\
    colors d' = colors d /\ speed d' = speed d /\ layer d' = layer d /\
    x d' = x d /\ y d' = PyFloat.add (y d) (speed d) /\
    alive = PyFloat.lt_int (y d') (max_row + len (colors d)).
Proof.
  unfold update; intros H; inv_bind H; injection H as <- <-.
  exists a; simpl; repeat split; assumption.
Qed.

Lemma update_trail_inv d max_row m d' alive :
  trail_inv d -> update d max_row m = Ok (d', alive) -> trail_inv d'.
Proof.
  intros [Hages _] H.
  destruct (update_fields _ _ _ _ _ H) as (row & _ & Htr & Hc & _).
  unfold trail_inv; rewrite Htr, Hc.
  destruct (prune_ages (len (colors d)) (Entry row (char d) 0 :: trail d) 0)
    as [H1 H2]; [simpl; auto|].
  split; [exact H1|]. pose proof (len_nonneg (colors d)). lia.
Qed.

Lemma updates_trail_inv d max_row ms d' :
  trail_inv d -> updates d max_row ms = Ok d' ->
  trail_inv d' /\ colors d' = colors d.
Proof.
  revert d; induction ms as [|m rest IH]; intros d Hinv H; simpl in H.
  - injection H as <-; auto.
  - inv_bind H; destruct a as [d1 alive].
    destruct (IH d1 (update_trail_inv _ _ _ _ _ Hinv Ha) H) as [H1 H2].
    split; [exact H1|]. rewrite H2.
    destruct (update_fields _ _ _ _ _ Ha) as (_ & _ & _ & Hc & _); exact Hc.
Qed.

Lemma ages_from_lower k tr : ages_from k tr -> Forall (fun e => k <= age e) tr.
Proof.
  revert k; induction tr as [|e rest IH]; intros k H; constructor.
  - destruct H as [-> _]; lia.
  - destruct H as [_ H]. apply IH in H.
    eapply Forall_impl; [|exact H]. simpl; intros; lia.
Qed.

End DropTrail.

Lemma new_drop_colors sd d :
  new_drop sd = Ok d -> len (Drop.colors d) = 5 /\ trail_inv d.
Proof.
  unfold new_drop; intros H; inv_bind H.
  destruct (init_trail_inv _ _ _ _ _ _ H) as [Hinv ->]. split; [|exact Hinv].
  unfold py_index in Ha.
  destruct ((0 <=? _) && _); [|discriminate].
  remember (Z.to_nat _) as n eqn:Hn; clear Hn.
  do 4 (destruct n as [|n]; [injection Ha as <-; reflexivity|]).
  destruct n; discriminate.
Qed.

(** C4: a drop updated any number of times since its creation has, after
    each update, a trail no longer than its colour gradient; for the
    gradients of [main] that bound is 5. *)
Theorem trail_length_bounded (x layer : Z) (y0 : PyFloat.float) (c : glyph)
    (colors : list Z) (d0 d : Drop.t) (max_row : Z)
    (ms : list (option glyph)) :
  Drop.init x layer y0 c colors = Ok d0 ->
  Drop.updates d0 max_row ms = Ok d ->
  len (Drop.trail d) <= len (Drop.colors d) /\
  Drop.colors d = colors /\
  (In colors layer_colors -> len (Drop.trail d) <= 5).
Proof.
  intros H0 H.
  destruct (init_trail_inv _ _ _ _ _ _ H0) as [Hinv Hc0].
  destruct (updates_trail_inv _ _ _ _ Hinv H) as [[_ Hlen] Hc].
  assert (Hcol : Drop.colors d = colors) by congruence.
  repeat split; try assumption.
  intros Hin. rewrite Hcol in Hlen.
  simpl in Hin. destruct Hin as [<-|[<-|[<-|[<-|[]]]]]; exact Hlen.
Qed.

Lemma trail_length_bounded_witness :
  exists d0 d,
    Drop.init 3 0 (PyFloat.of_int (-1)) 1488 [1; 2; 3; 4; 5] = Ok d0 /\
    Drop.updates d0 20 (repeat None 7) = Ok d /\
    len (Drop.trail d) = 5 /\
    len (Drop.trail d) <= len (Drop.colors d) /\
    Drop.colors d = [1; 2; 3; 4; 5] /\
    (In [1; 2; 3; 4; 5] layer_colors -> len (Drop.trail d) <= 5).
Proof.
  eexists; eexists.
  split; [reflexivity|]. split; [vm_compute; reflexivity|].
  split; [reflexivity|].
  eapply (trail_length_bounded 3 0 (PyFloat.of_int (-1)) 1488 [1; 2; 3; 4; 5]
            _ _ 20 (repeat None 7));
    [reflexivity | vm_compute; reflexivity].
Defined.

(** Whatever the drop, the entry an update inserts leaves the update with
    age 1: the loop of lines 68-69 ages it together with the older ones. *)
Lemma update_newest_entry (d d' : Drop.t) (max_row : Z) (m : option glyph)
    (alive : bool) :
  1 <= len (Drop.colors d) ->
  Drop.update d max_row m = Ok (d', alive) ->
  exists row rest, Drop.trail d' = Drop.Entry row (Drop.char d) 1 :: rest.
Proof.
  intros Hdepth H.
  destruct (update_fields _ _ _ _ _ H) as (row & _ & Htr & _).
  rewrite Htr; simpl.
  destruct (Z.ltb_spec 0 (len (Drop.colors d))); [|lia].
  eauto.
Qed.

(** C5: the update of a fresh drop of [main] (five-colour gradient) leaves
    its only entry with age 1, not 0, and after five updates the oldest
    entry is kept with age 5, the palette depth. *)
Theorem update_ages_are_one_to_depth :
  exists d0 d1 d5,
    new_drop sample_draw = Ok d0 /\
    Drop.update d0 20 None = Ok (d1, true) /\
    Drop.trail d1 = [Drop.Entry 0 1488 1] /\
    Drop.updates d0 20 (repeat None 5) = Ok d5 /\
    map Drop.age (Drop.trail d5) = [1; 2; 3; 4; 5] /\
    len (Drop.colors d5) = 5.
Proof.
  do 3 eexists.
  split; [reflexivity|]. split; [vm_compute; reflexivity|].
  split; [reflexivity|]. split; [vm_compute; reflexivity|].
  split; reflexivity.
Qed.

(** C10: after every update of a drop of [main], each trail entry, the one
    inserted by that update included, has age at least 1; with the
    five-colour gradient the index [min(age, depth-1)] that [draw] reads is
    therefore at least 1 and position 0 of the gradient is never read. *)
Theorem ages_at_least_one (sd : spawn_draw) (d0 d d' : Drop.t) (max_row : Z)
    (ms : list (option glyph)) (m : option glyph) (alive : bool) :
  new_drop sd = Ok d0 ->
  Drop.updates d0 max_row ms = Ok d ->
  Drop.update d max_row m = Ok (d', alive) ->
  Forall (fun e => 1 <= Drop.age e) (Drop.trail d') /\
  Forall (fun i => 1 <= i) (Drop.drawn_indices d') /\
  ~ In 0 (Drop.drawn_indices d').
Proof.
  intros H0 Hms H.
  destruct (new_drop_colors _ _ H0) as [H5 Hinv0].
  destruct (updates_trail_inv _ _ _ _ Hinv0 Hms) as [Hinv Hc].
  pose proof (update_trail_inv _ _ _ _ _ Hinv H) as [Hages _].
  destruct (update_fields _ _ _ _ _ H) as (_ & _ & _ & Hc' & _).
  assert (Hdepth : len (Drop.colors d') = 5) by congruence.
  pose proof (ages_from_lower _ _ Hages) as Hlow.
  assert (Hidx : Forall (fun i => 1 <= i) (Drop.drawn_indices d')).
  { unfold Drop.drawn_indices. apply Forall_map.
    eapply Forall_impl; [|exact Hlow].
    intros e He; unfold Drop.color_idx; simpl in *. lia. }
  repeat split; [exact Hlow | exact Hidx |].
  intros Hin. rewrite Forall_forall in Hidx. apply Hidx in Hin. lia.
Qed.

Lemma ages_at_least_one_witness :
  exists d0 d d',
    new_drop sample_draw = Ok d0 /\
    Drop.updates d0 20 (repeat None 6) = Ok d /\
    Drop.update d 20 (Some 1489) = Ok (d', true) /\
    Drop.drawn_indices d' = [1; 2; 3; 4; 4] /\
    Forall (fun e => 1 <= Drop.age e) (Drop.trail d') /\
    Forall (fun i => 1 <= i) (Drop.drawn_indices d') /\
    ~ In 0 (Drop.drawn_indices d').
Proof.
  do 3 eexists.
  split; [reflexivity|]. split; [vm_compute; reflexivity|].
  split; [vm_compute; reflexivity|]. split; [reflexivity|].
  eapply ages_at_least_one with (sd := sample_draw) (max_row := 20)
                                (ms := repeat None 6) (m := Some 1489);
    [reflexivity | vm_compute; reflexivity | vm_compute; reflexivity].
Defined.

(** ** Word detection *)

Lemma list_contains_In (l : list pystr) (w : pystr) :
  list_contains l w = true <-> In w l.
Proof.
  unfold list_contains; rewrite existsb_exists; split.
  - intros (v & Hin & Hv).
    destruct (list_eq_dec Z.eq_dec v w) as [<-|]; [exact Hin | discriminate].
  - intros Hin; exists w; split; [exact Hin|].
    destruct (list_eq_dec Z.eq_dec w w) as [|Hne]; [reflexivity | now elim Hne].
Qed.

Lemma make_letters_word (step : PyFloat.float) (i : Z) (w : pystr) :
  map Cluster.l_ch (Cluster.make_letters step i w) = w.
Proof.
  revert i; induction w as [|c w IH]; intros i; simpl; [|rewrite IH]; reflexivity.
Qed.

Lemma cluster_init_fields w cx cy life cols c :
  Cluster.init w cx cy life cols = Ok c ->
  cluster_word c = w /\ Cluster.age c = 0 /\ Cluster.lifespan c = life.
Proof.
  unfold Cluster.init; intros H; inv_bind H; injection H as <-.
  unfold cluster_word; simpl. rewrite make_letters_word. auto.
Qed.

Section Detection.

Variable WORD_LIST : list pystr.
Variables height width : Z.

Local Abbreviation detect := (detect_words height width).

(** What lines 150-155 do for one retired drop: the words claimed are
    appended to [found], each with one cluster, one log entry and one beep;
    they are the dictionary words contained in the probe string that [found]
    did not hold, every one of them and each once. *)
Lemma detect_words_spec (words : list pystr) (p : pystr) (w w' : world) :
  detect words p w = Ok w' ->
  exists new cs,
    w_found w' = w_found w ++ new /\
    w_clusters w' = w_clusters w ++ cs /\
    w_events w' = w_events w ++ claim_events new /\
    map cluster_word cs = new /\
    NoDup new /\
    (forall wd, In wd new <->
                In wd words /\ str_contains p wd = true /\ ~ In wd (w_found w)).
Proof.
  revert w; induction words as [|wd0 rest IH]; intros w H; simpl in H.
  - injection H as <-. exists [], []. rewrite !app_nil_r.
    split; [reflexivity|]. split; [reflexivity|]. split; [reflexivity|].
    split; [reflexivity|]. split; [constructor|].
    intros wd; simpl; tauto.
  - destruct (str_contains p wd0) eqn:Hc.
    + destruct (list_contains (w_found w) wd0) eqn:Hf; simpl in H.
      * rewrite list_contains_In in Hf.
        destruct (IH w H) as (new & cs & H1 & H2 & H3 & H4 & H5 & H6).
        exists new, cs. repeat split; try assumption.
        -- apply H6 in H0. simpl; tauto.
        -- apply H6 in H0; tauto.
        -- apply H6 in H0; tauto.
        -- intros (Hin & Hp & Hnf). apply H6. repeat split; try assumption.
           destruct Hin as [->|Hin]; [contradiction | exact Hin].
      * assert (Hnf : ~ In wd0 (w_found w)).
        { rewrite <- list_contains_In. congruence. }
        inv_bind H.
        destruct (cluster_init_fields _ _ _ _ _ _ Ha) as (Hw & _).
        destruct (IH _ H) as (new & cs & H1 & H2 & H3 & H4 & H5 & H6).
        simpl in H1, H2, H3.
        assert (Hnew : ~ In wd0 new).
        { intros Hin. apply H6 in Hin. simpl in Hin.
          destruct Hin as (_ & _ & Hin). apply Hin, in_or_app; simpl; auto. }
        exists (wd0 :: new), (a :: cs).
        rewrite H1, H2, H3, <- !app_assoc. simpl.
        repeat split; try reflexivity.
        -- congruence.
        -- constructor; assumption.
        -- destruct H0 as [<-|Hin]; [simpl; auto|].
           apply H6 in Hin. simpl; tauto.
        -- destruct H0 as [<-|Hin]; [exact Hc|]. apply H6 in Hin; tauto.
        -- destruct H0 as [<-|Hin]; [exact Hnf|]. apply H6 in Hin.
           destruct Hin as (_ & _ & Hin). intros Hin'. apply Hin.
           simpl. apply in_or_app; auto.
        -- intros (Hin & Hp & Hnfw).
           destruct (list_eq_dec Z.eq_dec wd0 wd) as [->|Hne]; [simpl; auto|].
           right. apply H6. simpl. repeat split; try assumption.
           ++ destruct Hin as [Heq|Hin]; [contradiction | exact Hin].
           ++ intros Hin'. apply in_app_or in Hin'. simpl in Hin'.
              destruct Hin' as [Hin'|[Heq|[]]]; [contradiction | congruence].
    + destruct (IH w H) as (new & cs & H1 & H2 & H3 & H4 & H5 & H6).
      exists new, cs. repeat split; try assumption.
      -- apply H6 in H0. simpl; tauto.
      -- apply H6 in H0; tauto.
      -- apply H6 in H0; tauto.
      -- intros (Hin & Hp & Hnf). apply H6. repeat split; try assumption.
         destruct Hin as [->|Hin]; [congruence | exact Hin].
Qed.

End Detection.

(** ** Drop: the position *)

Lemma py_index_In {A : Type} (l : list A) (i : Z) (a : A) :
  py_index l i = Ok a -> In a l.
Proof.
  unfold py_index. destruct (_ && _); [|discriminate].
  destruct (nth_error l _) eqn:Hn; [|discriminate].
  intros H; injection H as <-. eapply nth_error_In; eassumption.
Qed.

Lemma layer_speed_positive (s : PyFloat.float) :
  In s Drop.LAYER_SPEEDS ->
  exists ms es, s = S754_finite false ms es /\ bounded prec emax ms es = true /\
               es <= 969.
Proof.
  simpl. intros [<-|[<-|[<-|[<-|[]]]]]; do 2 eexists;
    (split; [reflexivity|]); (split; [reflexivity|]); discriminate.
Qed.

Lemma is_nan_false (a : PyFloat.float) :
  PyFloat.is_nan a = false <-> a <> S754_nan.
Proof. destruct a; simpl; split; congruence. Qed.

Lemma update_position (d d' : Drop.t) (max_row : Z) (m : option glyph)
    (alive : bool) :
  position_inv d -> Drop.update d max_row m = Ok (d', alive) ->
  position_inv d' /\ PyFloat.leb (Drop.y d) (Drop.y d') = true.
Proof.
  intros (Hv & Hn & Hs) H.
  destruct (update_fields _ _ _ _ _ H) as (_ & _ & _ & _ & Hsp & _ & _ & Hy & _).
  destruct (layer_speed_positive _ Hs) as (ms & es & Hse & Hb & _).
  apply is_nan_false in Hn.
  destruct (SF64add_pos_ge (Drop.y d) ms es Hv Hn Hb) as (Hle & Hv' & Hn').
  unfold position_inv, PyFloat.leb. rewrite Hy, Hsp.
  unfold PyFloat.add. rewrite Hse.
  repeat split; try assumption.
  - apply is_nan_false; exact Hn'.
  - rewrite <- Hse; exact Hs.
Qed.

(** A drop whose position is below [2^1022] in magnitude can be updated:
    [int(self.y)] does not raise. *)
Lemma update_total (d : Drop.t) (max_row : Z) (m : option glyph) :
  position_inv d -> moderate (Drop.y d) = true ->
  exists d' alive, Drop.update d max_row m = Ok (d', alive).
Proof.
  intros (Hv & _ & Hs) Hmod.
  destruct (layer_speed_positive _ Hs) as (ms & es & Hse & Hb & Hes).
  pose proof (SF64add_pos_finite (Drop.y d) ms es Hv Hmod Hb Hes) as Hfin.
  unfold Drop.update, PyFloat.add. rewrite Hse.
  destruct (SF64add (Drop.y d) (S754_finite false ms es)); try discriminate;
    simpl; eauto.
Qed.

Lemma updates_position (d d' : Drop.t) (max_row : Z) (ms : list (option glyph)) :
  position_inv d -> Drop.updates d max_row ms = Ok d' ->
  position_inv d' /\ PyFloat.leb (Drop.y d) (Drop.y d') = true /\
  Drop.speed d' = Drop.speed d /\ Drop.layer d' = Drop.layer d.
Proof.
  revert d; induction ms as [|m rest IH]; intros d Hinv H; simpl in H.
  - injection H as <-. repeat split; try apply Hinv.
    apply SFleb_refl, is_nan_false, Hinv.
  - inv_bind H; destruct a as [d1 alive].
    destruct (update_position _ _ _ _ _ Hinv Ha) as [Hinv1 Hle1].
    destruct (update_fields _ _ _ _ _ Ha) as (_ & _ & _ & _ & Hsp & Hl & _).
    destruct (IH d1 Hinv1 H) as (Hinv' & Hle' & Hsp' & Hl').
    repeat split; try apply Hinv'; try congruence.
    eapply SFleb_trans; eassumption.
Qed.

Lemma new_drop_position (sd : spawn_draw) (d : Drop.t) :
  PyFloat.valid (s_y0 sd) = true -> PyFloat.is_nan (s_y0 sd) = false ->
  new_drop sd = Ok d ->
  position_inv d /\ py_index Drop.LAYER_SPEEDS (Drop.layer d) = Ok (Drop.speed d).
Proof.
  unfold new_drop, Drop.init. intros Hv Hn H.
  inv_bind H. inv_bind H. injection H as <-. simpl.
  repeat split; try assumption. eapply py_index_In; eassumption.
Qed.

(** C7, the claim as stated fails: the fifth update of a drop of layer 0
    started at row [-1.0] moves it from 0.6000000000000001 to 1.0, which is
    not an increase by 0.4, neither in exact arithmetic nor as the float
    difference [y' - y]. *)
Lemma exact_speed_delta_counterexample :
  exists d0 d4 d5,
    new_drop sample_draw = Ok d0 /\
    Drop.updates d0 2 (repeat None 4) = Ok d4 /\
    Drop.update d4 2 None = Ok (d5, true) /\
    Drop.speed d4 = PyFloat.f0_4 /\
    exact (Drop.y d5) - exact (Drop.y d4) <> exact (Drop.speed d4) /\
    PyFloat.sub (Drop.y d5) (Drop.y d4) <> Drop.speed d4.
Proof.
  do 3 eexists.
  split; [reflexivity|]. split; [vm_compute; reflexivity|].
  split; [vm_compute; reflexivity|]. split; [reflexivity|].
  split; vm_compute; discriminate.
Qed.

(** C7, amended: the position of a drop of [main] never decreases over any
    sequence of updates; its speed is the entry of [0.4, 0.8, 1.2, 1.6] for
    its layer and never changes, nor does the layer; and each update sets
    the position to the binary64 sum of the position and that speed, that is
    the exact sum rounded to the nearest float. *)
Theorem position_never_decreases (sd : spawn_draw) (d0 d d' : Drop.t)
    (max_row : Z) (ms ms' : list (option glyph)) :
  PyFloat.valid (s_y0 sd) = true -> PyFloat.is_nan (s_y0 sd) = false ->
  new_drop sd = Ok d0 ->
  Drop.updates d0 max_row ms = Ok d ->
  Drop.updates d max_row ms' = Ok d' ->
  PyFloat.leb (Drop.y d) (Drop.y d') = true /\
  py_index Drop.LAYER_SPEEDS (Drop.layer d0) = Ok (Drop.speed d0) /\
  Drop.speed d' = Drop.speed d0 /\ Drop.layer d' = Drop.layer d0 /\
  forall m d'' alive,
    Drop.update d' max_row m = Ok (d'', alive) ->
    Drop.y d'' = PyFloat.add (Drop.y d') (Drop.speed d0) /\
    PyFloat.leb (Drop.y d') (Drop.y d'') = true.
Proof.
  intros Hv Hn H0 H1 H2.
  destruct (new_drop_position _ _ Hv Hn H0) as [Hinv0 Hidx].
  destruct (updates_position _ _ _ _ Hinv0 H1) as (Hinv & _ & Hsp & Hl).
  destruct (updates_position _ _ _ _ Hinv H2) as (Hinv' & Hle & Hsp' & Hl').
  repeat split; try assumption; try congruence.
  - destruct (update_fields _ _ _ _ _ H) as (_ & _ & _ & _ & _ & _ & _ & Hy & _).
    congruence.
  - eapply update_position; eassumption.
Qed.

Lemma position_never_decreases_witness :
  exists d0 d d',
    new_drop sample_draw = Ok d0 /\
    Drop.updates d0 2 (repeat None 3) = Ok d /\
    Drop.updates d 2 [None; Some 1489] = Ok d' /\
    Drop.y d' = S754_finite false 4503599627370496 (-52) /\
    PyFloat.leb (Drop.y d) (Drop.y d') = true /\
    py_index Drop.LAYER_SPEEDS (Drop.layer d0) = Ok (Drop.speed d0) /\
    Drop.speed d' = Drop.speed d0 /\ Drop.layer d' = Drop.layer d0 /\
    forall m d'' alive,
      Drop.update d' 2 m = Ok (d'', alive) ->
      Drop.y d'' = PyFloat.add (Drop.y d') (Drop.speed d0) /\
      PyFloat.leb (Drop.y d') (Drop.y d'') = true.
Proof.
  do 3 eexists.
  split; [reflexivity|]. split; [vm_compute; reflexivity|].
  split; [vm_compute; reflexivity|]. split; [reflexivity|].
  eapply position_never_decreases with (sd := sample_draw) (ms := repeat None 3)
                                       (ms' := [None; Some 1489]);
    [reflexivity | reflexivity | reflexivity
     | vm_compute; reflexivity | vm_compute; reflexivity].
Defined.

(** ** The pacing delay *)

(** C9: ten consecutive slow-down commands (key [-]) from the initial delay
    0.05 leave the delay at the binary64 value of the literal 0.15, bit for
    bit; nothing bounds the delay from above on the way. *)
Theorem slow_down_ten_times (ds : list Drop.t) (cs : list Cluster.t)
    (fd : list pystr) (fr sp : Z) (pa : bool) :
  press_keys (repeat 45 10) (State ds cs fd fr sp PyFloat.f0_05 pa)
  = Some (State ds cs fd fr sp PyFloat.f0_15 pa).
Proof. reflexivity. Qed.

(** ** Clusters *)

Lemma cluster_init_total (w : pystr) (cx cy life : Z) (cols : list Z) :
  w <> [] -> exists c, Cluster.init w cx cy life cols = Ok c.
Proof.
  intros Hw. unfold Cluster.init, PyFloat.div.
  assert (Hlen : 0 < len w).
  { destruct w; [congruence | rewrite len_cons; pose proof (len_nonneg w); lia]. }
  destruct (PyFloat.of_int (len w)) as [s| | |] eqn:Hz; simpl; eauto.
  exfalso. exact (of_int_nonzero _ _ Hlen Hz).
Qed.

Section Clusters.

Variables height width : Z.
Variables cos sin : PyFloat.float -> result PyFloat.float.

(** No cluster survives line 158: [draw] returns [None], so the filter
    [c.update() and c.draw(stdscr)] is never true. *)
Lemma update_clusters_keeps_nothing (cs kept : list Cluster.t)
    (evs : list event) :
  update_clusters height width cos sin cs = Ok (kept, evs) -> kept = [].
Proof.
  revert kept evs; induction cs as [|c rest IH]; intros kept evs H;
    cbn [update_clusters] in H.
  - injection H as <- <-; reflexivity.
  - destruct (Cluster.update c) as [c' alive].
    inv_bind H. destruct a as [keep evs1]. inv_bind H. destruct a as [kept' evs2].
    injection H as <- <-. rewrite (IH _ _ Ha0).
    destruct alive.
    + inv_bind Ha. destruct a as [v evs0]. injection Ha as <- <-. reflexivity.
    + injection Ha as <- <-. reflexivity.
Qed.

Lemma draw_letter_logged (c : Cluster.t) (l : Cluster.letter) (evs : list event) :
  Cluster.draw_letter width height cos sin c l = Ok evs -> logged evs = [].
Proof.
  unfold Cluster.draw_letter. intros H.
  inv_bind H. inv_bind H. inv_bind H. inv_bind H.
  destruct (py_index _ _); injection H as <-; reflexivity.
Qed.

Lemma logged_app (evs evs' : list event) :
  logged (evs ++ evs') = logged evs ++ logged evs'.
Proof.
  induction evs as [|e rest IH]; simpl; [reflexivity|].
  destruct e; simpl; rewrite ?IH; reflexivity.
Qed.

Lemma draw_letters_logged (c : Cluster.t) (ls : list Cluster.letter)
    (evs : list event) :
  Cluster.draw_letters width height cos sin c ls = Ok evs -> logged evs = [].
Proof.
  revert evs; induction ls as [|l rest IH]; intros evs H; simpl in H.
  - injection H as <-; reflexivity.
  - inv_bind H. inv_bind H. injection H as <-.
    rewrite logged_app, (draw_letter_logged _ _ _ Ha), (IH _ Ha0). reflexivity.
Qed.

Lemma update_clusters_logged (cs kept : list Cluster.t) (evs : list event) :
  update_clusters height width cos sin cs = Ok (kept, evs) -> logged evs = [].
Proof.
  revert kept evs; induction cs as [|c rest IH]; intros kept evs H;
    cbn [update_clusters] in H.
  - injection H as <- <-; reflexivity.
  - destruct (Cluster.update c) as [c' alive].
    inv_bind H. destruct a as [keep evs1]. inv_bind H. destruct a as [kept' evs2].
    injection H as <- <-. rewrite logged_app, (IH _ _ Ha0), app_nil_r.
    destruct alive.
    + inv_bind Ha. destruct a as [v evs0]. injection Ha as <- <-.
      unfold Cluster.draw in Ha1. inv_bind Ha1. injection Ha1 as <- <-.
      eapply draw_letters_logged; eassumption.
    + injection Ha as <- <-. reflexivity.
Qed.

End Clusters.

(** C2: a cluster created as line 154 does, with lifespan 40, reports itself
    alive after its first update (age 1 of 40) and is all the same absent
    from the list line 158 builds on that tick, whether [curses] answers the
    calls of [draw] (the list is empty) or not (the tick raises). *)
Theorem cluster_removed_on_first_tick :
  exists c c1 evs,
    Cluster.init [1513; 1500; 1493; 1501] 40 12 40 [1; 2; 3; 4; 5] = Ok c /\
    Cluster.update c = (c1, true) /\
    Cluster.age c1 = 1 /\ Cluster.lifespan c1 = 40 /\
    update_clusters 24 80 trig_returns trig_returns [c] = Ok ([], evs) /\
    update_clusters 24 80 trig_missing trig_missing [c] = Raise AttributeError.
Proof.
  do 3 eexists.
  split; [vm_compute; reflexivity|]. split; [vm_compute; reflexivity|].
  split; [reflexivity|]. split; [reflexivity|].
  split; vm_compute; reflexivity.
Qed.

(** ** Word detection, continued *)

Lemma logged_claim_events (ws : list pystr) : logged (claim_events ws) = ws.
Proof. induction ws as [|w rest IH]; simpl; [|rewrite IH]; reflexivity. Qed.

Lemma list_contains_snoc (l : list pystr) (v w : pystr) :
  v <> w -> list_contains (l ++ [v]) w = list_contains l w.
Proof.
  intros Hne. unfold list_contains. rewrite existsb_app. simpl.
  destruct (list_eq_dec Z.eq_dec v w); [contradiction|].
  rewrite !orb_false_r. reflexivity.
Qed.

Section DetectionOrder.

Variables height width : Z.

Local Abbreviation detect := (detect_words height width).

Lemma detect_words_total (words : list pystr) (p : pystr) (w : world) :
  Forall (fun wd => wd <> []) words -> exists w', detect words p w = Ok w'.
Proof.
  intros Hne; revert w; induction Hne as [|wd0 rest Hwd _ IH]; intros w;
    cbn [detect_words].
  - eauto.
  - destruct (str_contains p wd0); [|apply IH].
    destruct (list_contains (w_found w) wd0); cbn [negb]; [apply IH|].
    destruct (cluster_init_total wd0 (cols width / 2) (rows height / 2) 40
                (nth 0 layer_colors []) Hwd) as [c Hc].
    rewrite Hc. cbn [bind]. apply IH.
Qed.

(** With a dictionary without repetition the words claimed are the matching
    unclaimed ones in dictionary order. *)
Lemma detect_words_order (words : list pystr) (p : pystr) (w w' : world) :
  NoDup words -> detect words p w = Ok w' ->
  w_found w' =
  w_found w ++
  filter (fun wd => str_contains p wd && negb (list_contains (w_found w) wd))
         words.
Proof.
  intros Hnd; revert w; induction Hnd as [|wd0 rest Hnin _ IH]; intros w H;
    simpl in H |- *.
  - injection H as <-. rewrite app_nil_r. reflexivity.
  - destruct (str_contains p wd0); simpl; [|apply IH; exact H].
    destruct (list_contains (w_found w) wd0) eqn:Hf; simpl in H |- *;
      [apply IH; exact H|].
    inv_bind H. rewrite (IH _ H). simpl. rewrite <- app_assoc. simpl.
    do 2 f_equal. apply filter_ext_in. intros wd Hin.
    rewrite list_contains_snoc; [reflexivity|].
    intros ->. contradiction.
Qed.

End DetectionOrder.

(** C1, the claim as stated fails: a drop of [main] whose five trail glyphs
    read alef, bet, gimel, dalet, he retires over a dictionary holding the
    words alef-bet and gimel-dalet, none of them found before; the loop over
    the drops ends with both words in [found], two clusters and two log
    entries, not with the first word alone. *)
Lemma first_match_only_counterexample :
  exists d0 d4 w,
    new_drop (SpawnDraw 3 3 0 (PyFloat.of_int (-1)) 1492) = Ok d0 /\
    Drop.updates d0 1 [Some 1491; Some 1490; Some 1489; Some 1488] = Ok d4 /\
    step_drops [[1488; 1489]; [1490; 1491]] 2 16 [d4] [None]
               (World [] [] [Erase]) = Ok ([], w) /\
    w_found w = [[1488; 1489]; [1490; 1491]] /\
    map cluster_word (w_clusters w) = [[1488; 1489]; [1490; 1491]] /\
    logged (w_events w) = [[1488; 1489]; [1490; 1491]].
Proof.
  do 3 eexists.
  split; [reflexivity|]. split; [vm_compute; reflexivity|].
  split; [vm_compute; reflexivity|]. repeat split; reflexivity.
Qed.

(** C1, amended: when a drop retires, every dictionary word that its probe
    string contains and that is not yet in the found set is claimed on that
    tick: each is appended to the found set once and spawns one cluster
    spelling it, in dictionary order; no word outside the dictionary or
    absent from the probe string is claimed. *)
Theorem detect_claims_every_match (height width : Z) (words : list pystr)
    (p : pystr) (w : world) :
  Forall (fun wd => wd <> []) words ->
  exists w' new cs,
    detect_words height width words p w = Ok w' /\
    w_found w' = w_found w ++ new /\
    w_clusters w' = w_clusters w ++ cs /\
    map cluster_word cs = new /\
    NoDup new /\
    (forall wd, In wd new <->
                In wd words /\ str_contains p wd = true /\ ~ In wd (w_found w)) /\
    (NoDup words ->
     new = filter (fun wd => str_contains p wd &&
                             negb (list_contains (w_found w) wd)) words).
Proof.
  intros Hne.
  destruct (detect_words_total height width words p w Hne) as [w' Hw'].
  destruct (detect_words_spec height width words p w w' Hw')
    as (new & cs & H1 & H2 & H3 & H4 & H5 & H6).
  exists w', new, cs.
  split; [exact Hw'|]. split; [exact H1|]. split; [exact H2|].
  split; [exact H4|]. split; [exact H5|]. split; [exact H6|].
  intros Hnd. pose proof (detect_words_order _ _ _ _ _ _ Hnd Hw') as Ho.
  rewrite H1 in Ho. apply app_inv_head in Ho. exact Ho.
Qed.

Lemma detect_claims_every_match_witness :
  exists w' new cs,
    detect_words 2 16 [[1488; 1489]; [1490; 1491]; [1492; 1493]]
                 [1488; 1489; 1490; 1491; 1492] (World [] [] []) = Ok w' /\
    new = [[1488; 1489]; [1490; 1491]] /\
    w_found w' = [] ++ new /\
    w_clusters w' = [] ++ cs /\
    map cluster_word cs = new.
Proof.
  destruct (detect_claims_every_match 2 16
              [[1488; 1489]; [1490; 1491]; [1492; 1493]]
              [1488; 1489; 1490; 1491; 1492] (World [] [] []))
    as (w' & new & cs & H1 & H2 & H3 & H4 & H5 & H6 & H7).
  - repeat constructor; discriminate.
  - exists w', new, cs. split; [exact H1|]. split; [|auto].
    rewrite H7; [reflexivity|].
    repeat constructor; simpl; intuition discriminate.
Defined.

(** ** The session *)

Lemma draw_entries_logged (d : Drop.t) (tr : list Drop.entry) (evs : list event) :
  Drop.draw_entries d tr = Ok evs -> logged evs = [].
Proof.
  revert evs; induction tr as [|[r c a] rest IH]; intros evs H; simpl in H.
  - injection H as <-; reflexivity.
  - inv_bind H. inv_bind H. injection H as <-. simpl. eapply IH; eassumption.
Qed.

Lemma handle_key_frozen (st st1 : state) (ch : Z) :
  handle_key st ch = Some st1 ->
  frozen st st1 /\ frame st1 = frame st /\ spin st1 = spin st.
Proof.
  unfold handle_key, frozen.
  repeat match goal with
         | |- context [?a =? ?b] => destruct (a =? b)
         end; intros H; try discriminate; injection H as <-; simpl; auto.
Qed.

Section Session.

Variable WORD_LIST : list pystr.
Variables height width : Z.
Variables cos sin : PyFloat.float -> result PyFloat.float.

Local Abbreviation step_drops' := (step_drops WORD_LIST height width).
Local Abbreviation update_phase' := (update_phase WORD_LIST height width cos sin).
Local Abbreviation tick' := (tick WORD_LIST height width cos sin).
Local Abbreviation run' := (run WORD_LIST height width cos sin).

Lemma extends_refl (fd : list pystr) (evs evs' : list event) :
  logged evs' = logged evs -> extends fd evs fd evs'.
Proof.
  intros H. exists []. rewrite !app_nil_r.
  repeat split; [exact H | constructor | intros wd []].
Qed.

Lemma extends_trans (fd1 fd2 fd3 : list pystr) (e1 e2 e3 : list event) :
  extends fd1 e1 fd2 e2 -> extends fd2 e2 fd3 e3 -> extends fd1 e1 fd3 e3.
Proof.
  intros (n1 & -> & Hl1 & Hd1 & Hn1) (n2 & -> & Hl2 & Hd2 & Hn2).
  exists (n1 ++ n2). rewrite Hl2, Hl1, <- !app_assoc.
  repeat split.
  - apply NoDup_app; try assumption.
    intros wd Hin1 Hin2. apply (Hn2 wd Hin2). apply in_or_app; auto.
  - intros wd Hin Hfd. apply in_app_or in Hin. destruct Hin as [Hin|Hin].
    + exact (Hn1 wd Hin Hfd).
    + apply (Hn2 wd Hin). apply in_or_app; auto.
Qed.

Lemma extends_NoDup (fd fd' : list pystr) (evs evs' : list event) :
  extends fd evs fd' evs' -> NoDup fd -> NoDup fd'.
Proof.
  intros (new & -> & _ & Hd & Hn) Hfd. apply NoDup_app; try assumption.
  intros wd Hin Hin'. exact (Hn wd Hin' Hin).
Qed.

Lemma step_drops_extends (ds kept : list Drop.t) (ms : list (option glyph))
    (w w' : world) :
  step_drops' ds ms w = Ok (kept, w') ->
  extends (w_found w) (w_events w) (w_found w') (w_events w').
Proof.
  revert ms w kept; induction ds as [|d rest IH]; intros ms w kept H;
    cbn [step_drops] in H.
  - injection H as <- <-. apply extends_refl; reflexivity.
  - bind_inv H as r1 Hupd. destruct r1 as [d' alive].
    bind_inv H as w1 Hw1. bind_inv H as r2 Hrest.
    destruct r2 as [kept' w2]. injection H as <- <-.
    eapply extends_trans; [|eapply IH; eassumption].
    destruct alive.
    + bind_inv Hw1 as evs Hdraw. injection Hw1 as <-. simpl.
      apply extends_refl. rewrite logged_app.
      unfold Drop.draw in Hdraw. rewrite (draw_entries_logged _ _ _ Hdraw).
      apply app_nil_r.
    + destruct (detect_words_spec _ _ _ _ _ _ Hw1)
        as (new & cs & H1 & H2 & H3 & H4 & H5 & H6).
      exists new. rewrite H1, H3, logged_app, logged_claim_events.
      repeat split; try assumption. intros wd Hin. apply H6 in Hin. tauto.
Qed.

Lemma update_phase_extends (st st' : state) (inp : input) (wps : PyFloat.float)
    (evs : list event) :
  update_phase' st inp wps = Ok (st', evs) ->
  extends (found st) [] (found st') evs /\ clusters st' = [] /\
  paused st' = paused st.
Proof.
  unfold update_phase. intros H.
  bind_inv H as ds Hds. bind_inv H as r1 Hstep. destruct r1 as [new_drops w].
  bind_inv H as r2 Hcl. destruct r2 as [cs cevs]. bind_inv H as sp Hsp.
  injection H as <- <-.
  simpl. split; [|split; [|reflexivity]].
  - apply step_drops_extends in Hstep. simpl in Hstep.
    destruct Hstep as (new & H1 & H2 & H3 & H4).
    exists new. rewrite !logged_app, H2.
    rewrite (update_clusters_logged _ _ _ _ _ _ _ Hcl). simpl.
    rewrite app_nil_r. repeat split; assumption.
  - eapply update_clusters_keeps_nothing; eassumption.
Qed.

Lemma tick_extends (st : state) (inp : input) (o : outcome) (evs : list event) :
  tick' st inp = Ok (o, evs) -> extends (found st) [] (found (state_of o)) evs.
Proof.
  unfold tick. intros H.
  destruct (handle_key _ (key inp)) as [st1|] eqn:Hk.
  - apply handle_key_frozen in Hk. destruct Hk as ((_ & _ & Hf) & _).
    simpl in Hf.
    destruct (paused st1).
    + injection H as <- <-. simpl. rewrite Hf. apply extends_refl; reflexivity.
    + bind_inv H as r Hup. destruct r as [st2 evs2].
      apply update_phase_extends in Hup. destruct Hup as (Hext & _).
      rewrite Hf in Hext.
      destruct (TARGET_COUNT <=? len (found st2)); injection H as <- <-;
        simpl; exact Hext.
  - injection H as <- <-. simpl. apply extends_refl; reflexivity.
Qed.

Lemma extends_frame (fd fd' : list pystr) (pre evs evs' : list event) :
  extends fd evs fd' evs' -> extends fd (pre ++ evs) fd' (pre ++ evs').
Proof.
  intros (new & H1 & H2 & H3 & H4). exists new.
  rewrite !logged_app, H2, app_assoc. repeat split; assumption.
Qed.

Lemma run_extends (st : state) (ins : list input) (o : outcome)
    (evs : list event) :
  run' st ins = Ok (o, evs) -> extends (found st) [] (found (state_of o)) evs.
Proof.
  revert st o evs; induction ins as [|inp rest IH]; intros st o evs H;
    cbn [run] in H.
  - injection H as <- <-. apply extends_refl; reflexivity.
  - bind_inv H as r1 Htick. destruct r1 as [o1 evs1].
    pose proof (tick_extends _ _ _ _ Htick) as H1.
    destruct o1 as [st1|st1].
    + bind_inv H as r2 Hrun. destruct r2 as [o2 evs2]. injection H as <- <-.
      eapply extends_trans; [exact H1|].
      apply IH in Hrun. simpl.
      pose proof (extends_frame _ _ evs1 _ _ Hrun) as H2.
      rewrite app_nil_r in H2. exact H2.
    + injection H as <- <-. exact H1.
Qed.

Lemma initial_state_fields (draws : list spawn_draw) (st0 : state) :
  initial_state width draws = Ok st0 ->
  found st0 = [] /\ clusters st0 = [] /\ paused st0 = false /\
  delay st0 = PyFloat.f0_05.
Proof.
  unfold initial_state. intros H. bind_inv H as ds Hds. injection H as <-. auto.
Qed.

End Session.

(** ** Termination, uniqueness and pause *)

(** C6: a word enters the found set at most once in a session.  For one
    retired drop, lines 150-155 append to a duplicate-free [found] only
    words it does not hold, each once, with exactly one cluster spelling it
    and one log entry, so a word already found gets no second insertion,
    cluster or log entry.  Over a whole session [found] stays free of
    duplicates and the log holds exactly the found words, each once. *)
Theorem word_claimed_at_most_once :
  (forall (height width : Z) (words : list pystr) (p : pystr) (w w' : world),
     NoDup (w_found w) ->
     detect_words height width words p w = Ok w' ->
     exists new cs,
       w_found w' = w_found w ++ new /\
       w_clusters w' = w_clusters w ++ cs /\
       w_events w' = w_events w ++ claim_events new /\
       map cluster_word cs = new /\
       NoDup (w_found w') /\
       forall wd, In wd (w_found w) -> ~ In wd new) /\
  (forall (WORD_LIST : list pystr) (height width : Z)
          (cos sin : PyFloat.float -> result PyFloat.float)
          (draws : list spawn_draw) (st0 : state) (ins : list input)
          (o : outcome) (evs : list event),
     initial_state width draws = Ok st0 ->
     run WORD_LIST height width cos sin st0 ins = Ok (o, evs) ->
     NoDup (found (state_of o)) /\ logged evs = found (state_of o)).
Proof.
  split.
  - intros height width words p w w' Hnd H.
    destruct (detect_words_spec _ _ _ _ _ _ H)
      as (new & cs & H1 & H2 & H3 & H4 & H5 & H6).
    exists new, cs. repeat split; try assumption.
    + rewrite H1. apply NoDup_app; try assumption.
      intros wd Hin Hin'. apply H6 in Hin'. tauto.
    + intros wd Hin Hin'. apply H6 in Hin'. tauto.
  - intros WORD_LIST height width cos sin draws st0 ins o evs H0 Hrun.
    destruct (initial_state_fields _ _ _ H0) as (Hf & _).
    pose proof (run_extends _ _ _ _ _ _ _ _ _ Hrun) as Hext.
    rewrite Hf in Hext. split.
    + eapply extends_NoDup; [exact Hext | constructor].
    + destruct Hext as (new & -> & -> & _). reflexivity.
Qed.

Lemma word_claimed_at_most_once_witness :
  (exists w',
     detect_words 2 16 [[1488; 1489]] [1488; 1489; 1489]
                  (World [[1488; 1489]] [] []) = Ok w' /\
     w' = World [[1488; 1489]] [] []) /\
  (exists st0 st8 evs8 dB d9 o evs,
     initial_state 16 twice_draws = Ok st0 /\
     run [[1488; 1489]] 2 16 trig_returns trig_returns st0
         (firstn 8 twice_inputs) = Ok (Running st8, evs8) /\
     found st8 = [[1488; 1489]] /\ drops st8 = [dB] /\
     Drop.update dB (rows 2) None = Ok (d9, false) /\
     str_contains (probe d9) [1488; 1489] = true /\
     run [[1488; 1489]] 2 16 trig_returns trig_returns st0 twice_inputs
       = Ok (o, evs) /\
     found (state_of o) = [[1488; 1489]] /\
     drops (state_of o) = [] /\
     NoDup (found (state_of o)) /\ logged evs = found (state_of o)).
Proof.
  split.
  - eexists. split; [vm_compute; reflexivity | reflexivity].
  - do 7 eexists.
    split; [vm_compute; reflexivity|]. split; [vm_compute; reflexivity|].
    split; [reflexivity|]. split; [reflexivity|].
    split; [vm_compute; reflexivity|]. split; [vm_compute; reflexivity|].
    split; [vm_compute; reflexivity|].
    split; [reflexivity|]. split; [reflexivity|].
    eapply (proj2 word_claimed_at_most_once [[1488; 1489]] 2 16 trig_returns
              trig_returns twice_draws _ twice_inputs);
      [vm_compute; reflexivity | vm_compute; reflexivity].
Defined.

Section Pause.

Variable WORD_LIST : list pystr.
Variables height width : Z.
Variables cos sin : PyFloat.float -> result PyFloat.float.

Local Abbreviation update_phase' := (update_phase WORD_LIST height width cos sin).
Local Abbreviation tick' := (tick WORD_LIST height width cos sin).
Local Abbreviation run' := (run WORD_LIST height width cos sin).

(** An iteration whose pause test finds the session paused polls the key and
    does nothing else; [q] leaves the loop all the same. *)
Lemma tick_paused (st : state) (inp : input) :
  paused_in_tick st (key inp) = true ->
  exists st',
    tick' st inp =
      Ok (if key inp =? 113 then Summary st' else Running st', [Getch]) /\
    frozen st st' /\ (key inp <> 113 -> paused st' = true).
Proof.
  unfold paused_in_tick, tick, handle_key, frozen.
  repeat match goal with
         | |- context [key inp =? ?c] => destruct (Z.eqb_spec (key inp) c)
         end; try (exfalso; congruence);
    cbn [paused drops clusters found]; intros Hp; try rewrite Hp;
    eexists; (split; [reflexivity|]); cbn [paused drops clusters found];
    repeat split; intros; congruence.
Qed.

Lemma paused_in_tick_other (st : state) (ch : Z) :
  ch <> 112 -> ch <> 113 -> paused_in_tick st ch = paused st.
Proof.
  unfold paused_in_tick, handle_key. intros Hp Hq.
  repeat match goal with
         | |- context [ch =? ?c] => destruct (Z.eqb_spec ch c)
         end; try reflexivity; contradiction.
Qed.

(** The iteration that reads [p] while paused runs the update phase once,
    on the drops, clusters and found words it is given. *)
Lemma tick_resume (st : state) (inp : input) :
  paused st = true -> key inp = 112 ->
  tick' st inp =
    ('(st2, evs) <-
       update_phase'
         (State (drops st) (clusters st) (found st) (frame st + 1) (spin st)
                (delay st) false)
         inp (words_per_second (found st) (elapsed inp)) ;;
     if TARGET_COUNT <=? len (found st2)
     then Ok (Summary st2, Getch :: evs)
     else Ok (Running st2, Getch :: evs)).
Proof.
  intros Hp Hk. unfold tick, handle_key. rewrite Hk.
  cbn [Z.eqb Pos.eqb paused drops clusters found frame spin delay negb].
  rewrite Hp. reflexivity.
Qed.

Lemma run_paused (st : state) (ins : list input) :
  paused st = true ->
  Forall (fun i => key i <> 112 /\ key i <> 113) ins ->
  exists st',
    run' st ins = Ok (Running st', repeat Getch (length ins)) /\
    frozen st st' /\ paused st' = true.
Proof.
  intros Hp Hall; revert st Hp; induction Hall as [|inp rest [Hk1 Hk2] _ IH];
    intros st Hp; cbn [run length repeat].
  - exists st. unfold frozen. auto.
  - destruct (tick_paused st inp) as (st1 & Ht & Hfr & Hp1).
    { rewrite paused_in_tick_other; assumption. }
    destruct (Z.eqb_spec (key inp) 113) as [|_]; [contradiction|].
    destruct (IH st1 (Hp1 Hk2)) as (st' & Hr & Hfr' & Hp').
    exists st'. rewrite Ht. cbn [bind]. rewrite Hr. cbn [bind app].
    split; [reflexivity|]. split; [|exact Hp'].
    unfold frozen in *. intuition congruence.
Qed.

(** C8: an iteration during which the session is paused polls the key once
    ([Getch] is its only call: nothing is drawn, nothing sleeps) and leaves
    the drops, the clusters and the found words as they were; the key [q]
    still sends it to the end screen.  However many such iterations go by,
    the iteration that reads [p] again runs one ordinary update phase on the
    drops, clusters and found words that were there when the pause began. *)
Theorem paused_ticks_freeze :
  (forall (st : state) (inp : input),
     paused_in_tick st (key inp) = true ->
     exists st',
       tick' st inp =
         Ok (if key inp =? 113 then Summary st' else Running st', [Getch]) /\
       frozen st st' /\ (key inp <> 113 -> paused st' = true)) /\
  (forall (st : state) (ins : list input) (resume : input),
     paused st = true ->
     Forall (fun i => key i <> 112 /\ key i <> 113) ins ->
     key resume = 112 ->
     exists st',
       run' st ins = Ok (Running st', repeat Getch (length ins)) /\
       frozen st st' /\ paused st' = true /\
       tick' st' resume =
         ('(st2, evs) <-
            update_phase'
              (State (drops st) (clusters st) (found st) (frame st' + 1)
                     (spin st') (delay st') false)
              resume (words_per_second (found st) (elapsed resume)) ;;
          if TARGET_COUNT <=? len (found st2)
          then Ok (Summary st2, Getch :: evs)
          else Ok (Running st2, Getch :: evs))).
Proof.
  split; [exact tick_paused|].
  intros st ins resume Hp Hall Hk.
  destruct (run_paused st ins Hp Hall) as (st' & Hr & Hfr & Hp').
  exists st'. repeat split; try assumption; try apply Hfr.
  rewrite (tick_resume st' resume Hp' Hk).
  destruct Hfr as (-> & -> & ->). reflexivity.
Qed.

End Pause.

Lemma paused_ticks_freeze_witness :
  (exists st',
     tick [] 2 16 trig_missing trig_missing paused_sample (keypress 113)
       = Ok (Summary st', [Getch]) /\
     frozen paused_sample st') /\
  (exists st',
     run [] 2 16 trig_missing trig_missing paused_sample
         [keypress 43; quiet []; keypress 115]
       = Ok (Running st', [Getch; Getch; Getch]) /\
     frozen paused_sample st' /\ paused st' = true /\
     delay st' = S754_finite false 5764607523034235 (-57)).
Proof.
  split.
  - destruct (proj1 (paused_ticks_freeze [] 2 16 trig_missing trig_missing)
                paused_sample (keypress 113) eq_refl) as (st' & Ht & Hfr & _).
    exists st'. split; [exact Ht | exact Hfr].
  - destruct (proj2 (paused_ticks_freeze [] 2 16 trig_missing trig_missing)
                paused_sample [keypress 43; quiet []; keypress 115]
                (keypress 112) eq_refl)
      as (st' & Hr & Hfr & Hp & _).
    + repeat (constructor; [split; intro; discriminate|]). constructor.
    + reflexivity.
    + exists st'. split; [exact Hr|]. split; [exact Hfr|]. split; [exact Hp|].
      vm_compute in Hr. injection Hr as <-. reflexivity.
Defined.

(** ** The dictionary as line 47 leaves it *)

Lemma starts_with_length (s w : pystr) :
  starts_with s w = true -> len w <= len s.
Proof.
  revert s; induction w as [|a w IH]; intros s H.
  - unfold len; simpl; lia.
  - destruct s as [|b s]; simpl in H; [discriminate|].
    apply andb_true_iff in H. destruct H as [_ H]. apply IH in H.
    rewrite !len_cons. lia.
Qed.

Lemma str_contains_length (s w : pystr) :
  str_contains s w = true -> len w <= len s.
Proof.
  induction s as [|b s IH]; cbn [str_contains]; intros H.
  - rewrite orb_false_r in H. apply starts_with_length in H. exact H.
  - apply orb_true_iff in H. destruct H as [H|H].
    + apply starts_with_length in H. exact H.
    + apply IH in H. rewrite len_cons. lia.
Qed.

Lemma probe_length (d : Drop.t) : len (probe d) = len (Drop.trail d).
Proof. unfold probe, len. rewrite length_map. reflexivity. Qed.

Section ShippedDictionary.

Variable WORD_LIST : list pystr.
Variables height width : Z.
Variables cos sin : PyFloat.float -> result PyFloat.float.

Hypothesis dictionary_filtered :
  Forall (fun wd => in_length_range wd = true) WORD_LIST.

Lemma detect_words_too_long (words : list pystr) (p : pystr) (w : world) :
  Forall (fun wd => in_length_range wd = true) words ->
  len p < MIN_LEN ->
  detect_words height width words p w = Ok w.
Proof.
  intros Hall Hp; induction Hall as [|wd rest Hwd _ IH]; cbn [detect_words].
  - reflexivity.
  - destruct (str_contains p wd) eqn:Hc; [|exact IH].
    apply str_contains_length in Hc.
    unfold in_length_range in Hwd. apply andb_true_iff in Hwd.
    destruct Hwd as [Hmin _]. apply Z.leb_le in Hmin. lia.
Qed.

Lemma step_drops_no_match (ds kept : list Drop.t) (ms : list (option glyph))
    (w w' : world) :
  Forall main_drop ds ->
  step_drops WORD_LIST height width ds ms w = Ok (kept, w') ->
  Forall main_drop kept /\ w_found w' = w_found w /\
  w_clusters w' = w_clusters w.
Proof.
  intros Hall; revert ms w kept; induction Hall as [|d rest Hd _ IH];
    intros ms w kept H; cbn [step_drops] in H.
  - injection H as <- <-. auto.
  - bind_inv H as r1 Hupd. destruct r1 as [d' alive].
    bind_inv H as w1 Hw1. bind_inv H as r2 Hrest.
    destruct r2 as [kept' w2]. injection H as <- <-.
    destruct Hd as [Hinv H5].
    pose proof (update_trail_inv _ _ _ _ _ Hinv Hupd) as Hinv'.
    destruct (update_fields _ _ _ _ _ Hupd) as (_ & _ & _ & Hc & _).
    assert (Hd' : main_drop d') by (split; [exact Hinv' | congruence]).
    destruct (IH _ _ _ Hrest) as (Hk & Hf & Hcl).
    destruct alive.
    + bind_inv Hw1 as evs Hdraw. injection Hw1 as <-. simpl in Hf, Hcl.
      split; [constructor; assumption | auto].
    + rewrite detect_words_too_long in Hw1.
      * injection Hw1 as <-. auto.
      * exact dictionary_filtered.
      * rewrite probe_length. destruct Hd' as [[_ Hlen] Hfive].
        unfold MIN_LEN. lia.
Qed.

Lemma initial_drops_main (draws : list spawn_draw) (ds : list Drop.t) :
  initial_drops draws = Ok ds -> Forall main_drop ds.
Proof.
  revert ds; induction draws as [|sd rest IH]; intros ds H; simpl in H.
  - injection H as <-. constructor.
  - bind_inv H as d Hd. bind_inv H as ds' Hds. injection H as <-.
    constructor; [|apply IH; exact Hds].
    destruct (new_drop_colors _ _ Hd). split; assumption.
Qed.

Lemma tick_no_match (st : state) (inp : input) (o : outcome) (evs : list event) :
  Forall main_drop (drops st) ->
  tick WORD_LIST height width cos sin st inp = Ok (o, evs) ->
  Forall main_drop (drops (state_of o)) /\ found (state_of o) = found st.
Proof.
  unfold tick. intros Hall H.
  destruct (handle_key _ (key inp)) as [st1|] eqn:Hk.
  - apply handle_key_frozen in Hk. destruct Hk as ((Hd & _ & Hf) & _).
    simpl in Hd, Hf.
    destruct (paused st1).
    + injection H as <- <-. simpl. rewrite Hd, Hf. auto.
    + bind_inv H as r Hup. destruct r as [st2 evs2].
      assert (Hgoal : Forall main_drop (drops st2) /\ found st2 = found st).
      { unfold update_phase in Hup.
        bind_inv Hup as ds Hds. bind_inv Hup as r1 Hstep.
        destruct r1 as [new_drops w].
        bind_inv Hup as r2 Hcl. destruct r2 as [cs cevs].
        bind_inv Hup as sp Hsp. injection Hup as <- <-. simpl.
        assert (Hall' : Forall main_drop ds).
        { destruct (spawn inp) as [sd|].
          - bind_inv Hds as d Hnew. injection Hds as <-. rewrite Hd.
            apply Forall_app. split; [exact Hall|].
            constructor; [|constructor].
            destruct (new_drop_colors _ _ Hnew). split; assumption.
          - injection Hds as <-. rewrite Hd. exact Hall. }
        destruct (step_drops_no_match _ _ _ _ _ Hall' Hstep) as (Hk & Hfd & _).
        simpl in Hfd. split; [exact Hk | congruence]. }
      destruct (TARGET_COUNT <=? len (found st2)); injection H as <- <-;
        exact Hgoal.
  - injection H as <- <-. simpl. auto.
Qed.

(** With every dictionary word at least [MIN_LEN = 10] characters long and
    every gradient five colours deep, no probe string is long enough to
    contain a word: the found set stays empty for the whole session. *)
Lemma filtered_dictionary_never_matches (draws : list spawn_draw)
    (st0 : state) (ins : list input) (o : outcome) (evs : list event) :
  initial_state width draws = Ok st0 ->
  run WORD_LIST height width cos sin st0 ins = Ok (o, evs) ->
  found (state_of o) = [].
Proof.
  intros H0 Hrun.
  assert (Hinit : Forall main_drop (drops st0) /\ found st0 = []).
  { unfold initial_state in H0. bind_inv H0 as ds Hds. injection H0 as <-.
    simpl. split; [eapply initial_drops_main; eassumption | reflexivity]. }
  destruct Hinit as [Hall Hf]. rewrite <- Hf. clear Hf H0.
  revert st0 o evs Hall Hrun; induction ins as [|inp rest IH];
    intros st o evs Hall H; cbn [run] in H.
  - injection H as <- <-. reflexivity.
  - bind_inv H as r1 Htick. destruct r1 as [o1 evs1].
    destruct (tick_no_match _ _ _ _ Hall Htick) as [Hall1 Hf1].
    destruct o1 as [st1|st1].
    + bind_inv H as r2 Hrun. destruct r2 as [o2 evs2]. injection H as <- <-.
      simpl in Hall1, Hf1. rewrite <- Hf1. eapply IH; eassumption.
    + injection H as <- <-. exact Hf1.
Qed.

End ShippedDictionary.

(** * Further properties of the code *)

(** ** Loading the dictionary *)

Lemma lstrip_idem (s : pystr) : lstrip (lstrip s) = lstrip s.
Proof.
  induction s as [|c rest IH]; simpl; [reflexivity|].
  destruct (is_space c) eqn:Hc; [exact IH|]. simpl. rewrite Hc. reflexivity.
Qed.

Lemma lstrip_snoc (l : pystr) (c : glyph) :
  is_space c = false -> lstrip (l ++ [c]) = lstrip l ++ [c].
Proof.
  intros Hc. induction l as [|a rest IH]; simpl.
  - rewrite Hc. reflexivity.
  - destruct (is_space a); [exact IH | reflexivity].
Qed.

Lemma rstrip_cons (c : glyph) (r : pystr) :
  is_space c = false -> rstrip (c :: r) = c :: rstrip r.
Proof.
  intros Hc. unfold rstrip. simpl rev.
  rewrite (lstrip_snoc _ _ Hc), rev_app_distr. reflexivity.
Qed.

Lemma rstrip_idem (s : pystr) : rstrip (rstrip s) = rstrip s.
Proof. unfold rstrip. rewrite rev_involutive, lstrip_idem. reflexivity. Qed.

Lemma lstrip_shape (s : pystr) :
  lstrip s = [] \/ exists c r, lstrip s = c :: r /\ is_space c = false.
Proof.
  induction s as [|c rest IH]; simpl; [auto|].
  destruct (is_space c) eqn:Hc; [exact IH | eauto].
Qed.

Lemma strip_idem (s : pystr) : strip (strip s) = strip s.
Proof.
  unfold strip.
  destruct (lstrip_shape s) as [-> | (c & r & -> & Hc)]; [reflexivity|].
  rewrite (rstrip_cons _ _ Hc). simpl lstrip. rewrite Hc.
  rewrite (rstrip_cons _ _ Hc), rstrip_idem. reflexivity.
Qed.

Lemma strip_ends (s : pystr) (c : glyph) (r : pystr) :
  strip s = c :: r -> is_space c = false /\ is_space (last r c) = false.
Proof.
  unfold strip. intros H.
  destruct (lstrip_shape s) as [E | (c0 & r0 & E & Hc)]; rewrite E in H.
  - discriminate.
  - rewrite (rstrip_cons _ _ Hc) in H. injection H as <- <-.
    split; [exact Hc|].
    unfold rstrip. destruct (lstrip_shape (rev r0)) as [E' | (a & t & E' & Ha)];
      rewrite E'; simpl; [exact Hc|].
    rewrite last_last. exact Ha.
Qed.

Lemma last_cons_default {A : Type} (c d : A) (r : list A) :
  last (c :: r) d = last r c.
Proof.
  revert c d; induction r as [|c' r' IH]; intros c d; [reflexivity|].
  change (last (c :: c' :: r') d) with (last (c' :: r') d).
  change (last (c' :: r') c) with (last (c' :: r') c).
  rewrite (IH c' d), (IH c' c). reflexivity.
Qed.

Lemma in_length_range_nonempty (w : pystr) :
  in_length_range w = true -> w <> [].
Proof. intros H ->. discriminate. Qed.

Lemma load_dictionary_in_range (lines : list pystr) (words : list pystr) :
  load_dictionary (Content lines) = Loaded words ->
  Forall (fun wd => in_length_range wd = true) words.
Proof.
  unfold load_dictionary.
  set (kept := filter (fun w => in_length_range (strip w)) lines).
  intros H.
  assert (Hw : words = map strip kept).
  { destruct (map strip kept); [discriminate | injection H as <-; reflexivity]. }
  subst words. apply Forall_forall. intros w Hin.
  apply in_map_iff in Hin. destruct Hin as (l & <- & Hl).
  apply filter_In in Hl. apply Hl.
Qed.

(** X1: whatever the file holds, the list [WORD_LIST] that line 47 binds is
    not empty and each of its entries is a stripped line of the file, 10 to
    13 characters long, that begins and ends with a character that is not
    white space. *)
Theorem loaded_words_are_filtered (lines : list pystr) (words : list pystr) :
  load_dictionary (Content lines) = Loaded words ->
  words <> [] /\
  Forall (fun w => in_length_range w = true /\ strip w = w /\
                   (exists l, In l lines /\ w = strip l) /\
                   is_space (hd 0 w) = false /\ is_space (last w 0) = false)
         words.
Proof.
  unfold load_dictionary.
  set (kept := filter (fun w => in_length_range (strip w)) lines).
  intros H.
  assert (Hw : words = map strip kept).
  { destruct (map strip kept); [discriminate | injection H as <-; reflexivity]. }
  split.
  - destruct (map strip kept); [discriminate | injection H as <-; discriminate].
  - subst words. apply Forall_forall. intros w Hin.
    apply in_map_iff in Hin. destruct Hin as (l & <- & Hl).
    apply filter_In in Hl. destruct Hl as [Hl Hr].
    split; [exact Hr|]. split; [apply strip_idem|].
    split; [exists l; auto|].
    destruct (strip l) as [|c r] eqn:E.
    + discriminate.
    + destruct (strip_ends _ _ _ E) as [Hc Hlast]. split; [exact Hc|].
      rewrite last_cons_default. exact Hlast.
Qed.

Lemma loaded_words_are_filtered_witness :
  exists words,
    load_dictionary
      (Content [[1488; 1489; 10];
             [32; 1488; 1489; 1490; 1491; 1492; 1493; 1494; 1495; 1496; 1497; 13; 10];
             [10]]) = Loaded words /\
    words = [[1488; 1489; 1490; 1491; 1492; 1493; 1494; 1495; 1496; 1497]] /\
    words <> [].
Proof.
  eexists. split; [reflexivity|]. split; [reflexivity|].
  eapply (loaded_words_are_filtered
            [[1488; 1489; 10];
             [32; 1488; 1489; 1490; 1491; 1492; 1493; 1494; 1495; 1496; 1497; 13; 10];
             [10]] _ eq_refl).
Defined.

(** ** Sessions over a loaded dictionary *)

Lemma handle_key_None (st : state) (ch : Z) :
  handle_key st ch = None -> ch = 113.
Proof.
  unfold handle_key.
  repeat match goal with
         | |- context [?a =? ?b] => destruct (Z.eqb_spec a b)
         end; intros H; try discriminate; assumption.
Qed.

Section Endings.

Variable WORD_LIST : list pystr.
Variables height width : Z.
Variables cos sin : PyFloat.float -> result PyFloat.float.

Lemma tick_summary_cause (st st' : state) (inp : input) (evs : list event) :
  tick WORD_LIST height width cos sin st inp = Ok (Summary st', evs) ->
  key inp = 113 \/ TARGET_COUNT <= len (found st').
Proof.
  unfold tick. intros H.
  destruct (handle_key _ (key inp)) as [st1|] eqn:Hk.
  - right. destruct (paused st1); [discriminate|].
    bind_inv H as r Hup. destruct r as [st2 evs2].
    destruct (Z.leb_spec TARGET_COUNT (len (found st2))); [|discriminate].
    inversion H; subst. assumption.
  - left. eapply handle_key_None; eassumption.
Qed.

Lemma run_summary_cause (st st' : state) (ins : list input) (evs : list event) :
  run WORD_LIST height width cos sin st ins = Ok (Summary st', evs) ->
  Exists (fun i => key i = 113) ins \/ TARGET_COUNT <= len (found st').
Proof.
  revert st evs; induction ins as [|inp rest IH]; intros st evs H;
    cbn [run] in H.
  - discriminate.
  - bind_inv H as r1 Htick. destruct r1 as [o1 evs1]. destruct o1 as [st1|st1].
    + bind_inv H as r2 Hrun. destruct r2 as [o2 evs2]. inversion H; subst.
      destruct (IH _ _ Hrun) as [Hq|Ht]; [left; constructor 2; exact Hq | auto].
    + inversion H; subst.
      destruct (tick_summary_cause _ _ _ _ Htick) as [Hq|Ht];
        [left; constructor 1; exact Hq | auto].
Qed.

End Endings.

(** X3: with the dictionary as lines 44-49 load it, whatever the file, the
    viewport, the keys and the random draws, no session ever finds a word:
    the found set stays empty, nothing is logged, and the loop is only left
    through the key [q], never through the target count of line 166.  (The
    words are at least 10 characters long and a trail holds at most 5.) *)
Theorem loaded_dictionary_never_completes (lines words : list pystr)
    (height width : Z) (cos sin : PyFloat.float -> result PyFloat.float)
    (draws : list spawn_draw) (st0 : state) (ins : list input) (o : outcome)
    (evs : list event) :
  load_dictionary (Content lines) = Loaded words ->
  initial_state width draws = Ok st0 ->
  run words height width cos sin st0 ins = Ok (o, evs) ->
  found (state_of o) = [] /\ logged evs = [] /\
  (forall st, o = Summary st -> Exists (fun i => key i = 113) ins).
Proof.
  intros Hload H0 Hrun.
  assert (Hfilt : Forall (fun wd => in_length_range wd = true) words).
  { exact (load_dictionary_in_range _ _ Hload). }
  pose proof (filtered_dictionary_never_matches words height width cos sin
                Hfilt draws st0 ins o evs H0 Hrun) as Hf.
  split; [exact Hf|]. split.
  - pose proof (run_extends _ _ _ _ _ _ _ _ _ Hrun) as (new & H1 & H2 & _).
    destruct (initial_state_fields _ _ _ H0) as (Hf0 & _).
    rewrite Hf, Hf0 in H1. simpl in H1, H2. congruence.
  - intros st ->. simpl in Hf.
    destruct (run_summary_cause _ _ _ _ _ _ _ _ _ Hrun) as [Hq|Ht]; [exact Hq|].
    rewrite Hf in Ht. unfold TARGET_COUNT, len in Ht. simpl in Ht. lia.
Qed.

Lemma loaded_dictionary_never_completes_witness :
  exists words st0 o evs,
    load_dictionary
      (Content [[1488; 1489; 1490; 1491; 1492; 1493; 1494; 1495; 1496; 1497; 10]])
      = Loaded words /\
    initial_state 16 twice_draws = Ok st0 /\
    run words 2 16 trig_missing trig_missing st0
        (twice_inputs ++ [keypress 113]) = Ok (o, evs) /\
    drops (state_of o) = [] /\
    found (state_of o) = [] /\ logged evs = [] /\
    (forall st, o = Summary st ->
                Exists (fun i => key i = 113) (twice_inputs ++ [keypress 113])).
Proof.
  do 4 eexists.
  split; [reflexivity|]. split; [vm_compute; reflexivity|].
  split; [vm_compute; reflexivity|]. split; [reflexivity|].
  eapply (loaded_dictionary_never_completes
            [[1488; 1489; 1490; 1491; 1492; 1493; 1494; 1495; 1496; 1497; 10]]
            _ 2 16 trig_missing trig_missing twice_draws _
            (twice_inputs ++ [keypress 113]));
    [reflexivity | vm_compute; reflexivity | vm_compute; reflexivity].
Defined.

(** ** The drop phase never raises *)

(** The sum of a finite number below [2^1022] in magnitude and a layer
    speed is a zero, a negative number below [2^1022] in magnitude or a
    positive finite number. *)
Lemma add_speed_shape (x : spec_float) (ms : positive) (es : Z) :
  valid_binary x = true -> moderate x = true ->
  bounded prec emax ms es = true -> es <= 969 ->
  match SF64add x (S754_finite false ms es) with
  | S754_zero _ => True
  | S754_finite true _ e => e <= 969
  | S754_finite false _ _ => True
  | _ => False
  end.
Proof.
  intros Hvx Hmx Hvs Hes.
  apply bounded_spec in Hvs. destruct Hvs as [Hcs Hbs].
  destruct x as [sx|sx| |sx mx ex]; try discriminate; [exact I|].
  simpl in Hvx, Hmx. apply bounded_spec in Hvx. destruct Hvx as [Hcx Hbx].
  apply Z.leb_le in Hmx.
  unfold SF64add, SFadd.
  set (ez := Z.min ex es).
  rewrite !align_value by (unfold ez; lia).
  pose proof (pow2_pos (ex - ez) ltac:(unfold ez; lia)) as Hpx.
  pose proof (pow2_pos (es - ez) ltac:(unfold ez; lia)) as Hps.
  pose proof (canonical_mantissa_lt mx ex Hcx) as Hmx53.
  pose proof (canonical_mantissa_lt ms es Hcs) as Hms53.
  set (X := Z.pos mx * 2 ^ (ex - ez)) in *.
  set (S := Z.pos ms * 2 ^ (es - ez)) in *.
  assert (HX : 0 < X) by (unfold X; nia).
  assert (HS : 0 < S) by (unfold S; nia).
  assert (Hbig : forall m e, Z.pos m < 2 ^ 53 -> ez <= e -> e <= 969 ->
                             Z.pos m * 2 ^ (e - ez) < 2 ^ (1022 - ez)).
  { intros m e Hm He1 He2.
    pose proof (pow2_pos (e - ez) ltac:(lia)).
    assert (2 ^ 53 * 2 ^ (e - ez) <= 2 ^ (1022 - ez)).
    { rewrite <- Z.pow_add_r by lia. apply Z.pow_le_mono_r; lia. }
    nia. }
  pose proof (Hbig mx ex Hmx53 ltac:(unfold ez; lia) Hmx) as HXb. fold X in HXb.
  pose proof (Hbig ms es Hms53 ltac:(unfold ez; lia) Hes) as HSb. fold S in HSb.
  assert (Htop : 2 ^ 52 * 2 ^ (971 - ez) = 2 * 2 ^ (1022 - ez)).
  { rewrite <- Z.pow_add_r by (unfold ez; lia).
    replace (52 + (971 - ez)) with ((1022 - ez) + 1) by lia.
    apply pow2_succ. unfold ez; lia. }
  destruct sx; unfold cond_Zopp, binary_normalize.
  - destruct (- X + S) as [|p|p] eqn:HM; [exact I | |].
    + destruct (binary_round_le false p ez ms es Hcs Hbs
                  ltac:(unfold ez; lia) ltac:(fold S; lia))
        as [-> | (m3 & e3 & -> & _)]; exact I.
    + destruct (binary_round_le true p ez mx ex Hcx Hbx
                  ltac:(unfold ez; lia) ltac:(fold X; lia))
        as [-> | (m3 & e3 & -> & He3)]; [exact I | lia].
  - destruct (X + S) as [|p|p] eqn:HM; try lia.
    destruct (binary_round_le false p ez 4503599627370496 971)
      as [-> | (m3 & e3 & -> & _)]; try exact I; try (unfold ez; lia);
      try reflexivity.
    change (Z.pos 4503599627370496) with (2 ^ 52). rewrite Htop. lia.
Qed.

(** A positive well-formed float below an integer that is at most [2^1021]
    is below [2^1022]. *)
Lemma lt_int_moderate (m : positive) (e n : Z) :
  bounded prec emax m e = true ->
  PyFloat.lt_int (S754_finite false m e) n = true -> n <= 2 ^ 1021 ->
  e <= 969.
Proof.
  intros Hb Hlt Hn. apply bounded_spec in Hb. destruct Hb as [Hc _].
  destruct (Z.le_gt_cases e 969) as [|Hbig]; [assumption|exfalso].
  unfold PyFloat.lt_int in Hlt. destruct (Z.leb_spec 0 e); [|lia].
  apply Z.ltb_lt in Hlt. unfold cond_Zopp in Hlt.
  destruct (Zdigits2_bounds (Z.pos m) ltac:(lia)) as (_ & Hlo & _).
  rewrite fexp64_eq in Hc.
  assert (Hd : Zdigits2 (Z.pos m) = 53) by lia.
  rewrite Hd in Hlo. change (53 - 1) with 52 in Hlo.
  assert (H970 : 2 ^ 970 <= 2 ^ e) by (apply Z.pow_le_mono_r; lia).
  pose proof (pow2_pos 970 ltac:(lia)) as Hp970.
  assert (Hprod : 2 ^ 52 * 2 ^ 970 <= Z.pos m * 2 ^ e) by nia.
  rewrite <- Z.pow_add_r in Hprod by lia. change (52 + 970) with 1022 in Hprod.
  assert (2 ^ 1021 < 2 ^ 1022) by (apply Z.pow_lt_mono_r; lia).
  lia.
Qed.

Lemma py_index_total {A : Type} (l : list A) (i : Z) :
  0 <= i < len l -> exists a, py_index l i = Ok a.
Proof.
  intros Hi. unfold py_index.
  destruct (Z.ltb_spec i 0); [lia|].
  destruct (Z.leb_spec 0 i); [|lia]. destruct (Z.ltb_spec i (len l)); [|lia].
  simpl. destruct (nth_error l (Z.to_nat i)) eqn:Hn; [eauto|].
  apply nth_error_None in Hn. unfold len in Hi. lia.
Qed.

Lemma ages_from_range (k : Z) (tr : list Drop.entry) :
  ages_from k tr -> Forall (fun e => k <= Drop.age e < k + len tr) tr.
Proof.
  revert k; induction tr as [|e rest IH]; intros k H; constructor.
  - destruct H as [-> _]. rewrite len_cons. pose proof (len_nonneg rest). lia.
  - destruct H as [_ H]. apply IH in H.
    eapply Forall_impl; [|exact H]. simpl. intros a Ha.
    rewrite len_cons. lia.
Qed.

Lemma draw_entries_total (d : Drop.t) (tr : list Drop.entry) :
  Forall (fun e => 0 <= Drop.color_idx d (Drop.age e) < len (Drop.colors d)) tr ->
  exists evs, Drop.draw_entries d tr = Ok evs /\ length evs = length tr.
Proof.
  induction 1 as [|[r c a] rest Hidx _ IH]; simpl.
  - exists []. auto.
  - simpl in Hidx. destruct (py_index_total _ _ Hidx) as [cp ->].
    destruct IH as (evs & -> & Hlen). simpl.
    eexists. split; [reflexivity|]. simpl. congruence.
Qed.

Lemma draw_total (d : Drop.t) (max_col : Z) :
  trail_inv d ->
  exists evs, Drop.draw d max_col = Ok evs /\ length evs = length (Drop.trail d).
Proof.
  intros [Hages Hlen]. unfold Drop.draw. apply draw_entries_total.
  apply ages_from_range in Hages.
  eapply Forall_impl; [|exact Hages]. intros e He.
  unfold Drop.color_idx, len in *. cbv beta in He. lia.
Qed.

(** X4: [draw] never raises for a drop that went through [__init__] and
    [update] only, whatever its gradient: each index [min(age, depth-1)]
    falls inside the gradient, and exactly one [addstr] is issued per trail
    entry. *)
Theorem draw_never_raises (x layer : Z) (y0 : PyFloat.float) (c : glyph)
    (colors : list Z) (d0 d : Drop.t) (max_row max_col : Z)
    (ms : list (option glyph)) :
  Drop.init x layer y0 c colors = Ok d0 ->
  Drop.updates d0 max_row ms = Ok d ->
  exists evs, Drop.draw d max_col = Ok evs /\ length evs = length (Drop.trail d).
Proof.
  intros H0 H.
  destruct (init_trail_inv _ _ _ _ _ _ H0) as [Hinv _].
  destruct (updates_trail_inv _ _ _ _ Hinv H) as [Hinv' _].
  apply draw_total. exact Hinv'.
Qed.

Lemma draw_never_raises_witness :
  exists d0 d evs,
    Drop.init 3 0 (PyFloat.of_int (-1)) 1488 [7] = Ok d0 /\
    Drop.updates d0 20 [None; None; None] = Ok d /\
    Drop.draw d 80 = Ok evs /\ evs = [AddStr 0 3 [1488] 7] /\
    exists evs', Drop.draw d 80 = Ok evs' /\
                 length evs' = length (Drop.trail d).
Proof.
  do 3 eexists.
  split; [reflexivity|]. split; [vm_compute; reflexivity|].
  split; [vm_compute; reflexivity|]. split; [reflexivity|].
  eapply (draw_never_raises 3 0 (PyFloat.of_int (-1)) 1488 [7] _ _ 20 80
            [None; None; None]);
    [reflexivity | vm_compute; reflexivity].
Defined.

Lemma moderate_not_nan (a : PyFloat.float) :
  moderate a = true -> PyFloat.is_nan a = false.
Proof. destruct a; simpl; congruence. Qed.

Lemma new_drop_live (sd : spawn_draw) :
  draw_ok sd -> exists d, new_drop sd = Ok d /\ live_drop d.
Proof.
  intros (Hl & Hg & Hv & Hm). unfold new_drop.
  destruct (py_index_total layer_colors (s_gradient sd)) as [grad Hgrad];
    [exact Hg|].
  destruct (py_index_total Drop.LAYER_SPEEDS (s_layer sd)) as [sp Hsp];
    [exact Hl|].
  rewrite Hgrad. cbn [bind]. unfold Drop.init. rewrite Hsp. cbn [bind].
  eexists. split; [reflexivity|].
  assert (Hnew : new_drop sd = Ok (Drop.Make (s_x sd) (s_layer sd) (s_y0 sd) sp
                                             (s_char sd) [] grad)).
  { unfold new_drop. rewrite Hgrad. cbn [bind]. unfold Drop.init.
    rewrite Hsp. reflexivity. }
  destruct (new_drop_colors _ _ Hnew) as [H5 Hinv].
  destruct (new_drop_position _ _ Hv (moderate_not_nan _ Hm) Hnew) as [Hpos _].
  repeat split; try assumption; try apply Hinv; try apply Hpos.
Qed.

Lemma update_live (d : Drop.t) (max_row : Z) (m : option glyph) :
  live_drop d -> max_row + 5 <= 2 ^ 1021 ->
  exists d' alive,
    Drop.update d max_row m = Ok (d', alive) /\ main_drop d' /\
    (alive = true -> live_drop d').
Proof.
  intros ((Hinv & H5) & Hpos & Hmod) Hrow.
  destruct (update_total d max_row m Hpos Hmod) as (d' & alive & Hup).
  exists d', alive. split; [exact Hup|].
  pose proof (update_trail_inv _ _ _ _ _ Hinv Hup) as Hinv'.
  destruct (update_fields _ _ _ _ _ Hup)
    as (_ & _ & _ & Hc & _ & _ & _ & Hy & Halive).
  assert (Hmain : main_drop d') by (split; [exact Hinv' | congruence]).
  split; [exact Hmain|]. intros ->.
  destruct (update_position _ _ _ _ _ Hpos Hup) as [Hpos' _].
  split; [exact Hmain|]. split; [exact Hpos'|].
  destruct Hpos as (Hv & _ & Hs).
  destruct (layer_speed_positive _ Hs) as (ms & es & Hse & Hb & Hes).
  pose proof (add_speed_shape (Drop.y d) ms es Hv Hmod Hb Hes) as Hshape.
  destruct Hpos' as (Hv' & _ & _).
  rewrite Hy in Hv' |- *. rewrite Hy in Halive.
  unfold PyFloat.add in *. rewrite Hse in *.
  destruct (SF64add (Drop.y d) (S754_finite false ms es)) as [s|s| |s m3 e3];
    try contradiction; [reflexivity|].
  destruct s; simpl; apply Z.leb_le; [exact Hshape|].
  eapply lt_int_moderate; [exact Hv' | symmetry; exact Halive | lia].
Qed.

Lemma Forall_firstn_keep {A : Type} (P : A -> Prop) (n : nat) (l : list A) :
  Forall P l -> Forall P (firstn n l).
Proof.
  intros H; revert n; induction H; intros [|n]; simpl; constructor; auto.
Qed.

Lemma initial_drops_live (draws : list spawn_draw) :
  Forall draw_ok draws ->
  exists ds, initial_drops draws = Ok ds /\ Forall live_drop ds.
Proof.
  induction 1 as [|sd rest Hsd _ IH]; simpl.
  - eauto.
  - destruct (new_drop_live _ Hsd) as (d & -> & Hd).
    destruct IH as (ds & -> & Hds). simpl. eauto.
Qed.

Lemma py_chr_total (ch : Z) :
  -1 <= ch < 1114112 ->
  exists c, (if ch =? -1 then Ok ch else py_chr ch) = Ok c.
Proof.
  intros Hch. destruct (Z.eqb_spec ch (-1)); [eauto|].
  unfold py_chr. destruct (Z.leb_spec 0 ch); [|lia].
  destruct (Z.ltb_spec ch 1114112); [|lia]. simpl. eauto.
Qed.

Lemma hud_numbers_total (t : PyFloat.float) :
  PyFloat.is_finite t = true ->
  exists r, hud_numbers t (words_per_second [] t) = Ok r.
Proof.
  unfold hud_numbers, words_per_second.
  destruct t as [s|s| |s m e]; intros Hfin; try discriminate.
  - destruct s; simpl; eauto.
  - destruct s; simpl; eauto.
Qed.

Section NeverRaises.

Variable WORD_LIST : list pystr.
Variables height width : Z.
Variables cos sin : PyFloat.float -> result PyFloat.float.

Hypothesis dictionary_filtered :
  Forall (fun wd => in_length_range wd = true) WORD_LIST.
Hypothesis screen_bounded : height <= 2 ^ 1000.

Lemma rows_bounded : rows height + 5 <= 2 ^ 1021.
Proof.
  assert (H : 2 ^ 1000 + 4 <= 2 ^ 1021)
    by (apply Z.leb_le; vm_compute; reflexivity).
  unfold rows. lia.
Qed.

Lemma step_drops_live (ds : list Drop.t) (ms : list (option glyph)) (w : world) :
  Forall live_drop ds ->
  exists kept w',
    step_drops WORD_LIST height width ds ms w = Ok (kept, w') /\
    Forall live_drop kept /\ w_found w' = w_found w /\
    w_clusters w' = w_clusters w.
Proof.
  intros Hall; revert ms w; induction Hall as [|d rest Hd _ IH]; intros ms w;
    cbn [step_drops].
  - do 2 eexists. split; [reflexivity|]. auto.
  - destruct (update_live d (rows height) (hd None ms) Hd rows_bounded)
      as (d' & alive & Hup & Hmain & Hlive).
    rewrite Hup. cbn [bind]. destruct alive.
    + destruct (draw_total d' (cols width) (proj1 Hmain)) as (evs & Hdraw & _).
      rewrite Hdraw. cbn [bind].
      destruct (IH (tl ms) (World (w_found w) (w_clusters w) (w_events w ++ evs)))
        as (kept & w' & Hrest & Hk & Hf & Hc).
      rewrite Hrest. cbn [bind]. do 2 eexists. split; [reflexivity|].
      split; [constructor; auto|]. simpl in Hf, Hc. auto.
    + rewrite (detect_words_too_long height width WORD_LIST (probe d') w
                 dictionary_filtered).
      * cbn [bind]. destruct (IH (tl ms) w) as (kept & w' & Hrest & Hk & Hf & Hc).
        rewrite Hrest. cbn [bind]. do 2 eexists. split; [reflexivity|]. auto.
      * rewrite probe_length. destruct Hmain as [[_ Hlen] Hfive].
        unfold MIN_LEN. lia.
Qed.

Lemma update_phase_drop_phase (st : state) (inp : input)
    (wps : PyFloat.float) :
  update_phase WORD_LIST height width cos sin st inp wps =
  ('(new_drops, w) <- drop_phase WORD_LIST height width st inp ;;
   '(cs, cevs) <- update_clusters height width cos sin (w_clusters w) ;;
   let spin' := if frame st mod SPIN_SPEED =? 0
                then (spin st + 1) mod len SPINNER else spin st in
   sp <- py_index SPINNER spin' ;;
   Ok (State new_drops cs (w_found w) (frame st) spin' (delay st) (paused st),
       w_events w ++ cevs ++
       [AddStr 0 (cols width - 2) [sp] 5;
        Hud (height - 1) (elapsed inp) wps (len new_drops) (len cs);
        Refresh; Sleep (delay st)])).
Proof.
  unfold update_phase, drop_phase.
  destruct (spawn inp) as [sd|]; [destruct (new_drop sd)|]; reflexivity.
Qed.

Lemma drop_phase_live (st : state) (inp : input) :
  Forall live_drop (drops st) -> input_ok inp ->
  exists kept w,
    drop_phase WORD_LIST height width st inp = Ok (kept, w) /\
    Forall live_drop kept /\ w_found w = found st /\
    w_clusters w = clusters st.
Proof.
  intros Hdrops (_ & _ & Hsp). unfold drop_phase.
  assert (Hds : exists ds,
             match spawn inp with
             | Some sd => d <- new_drop sd ;; Ok (drops st ++ [d])
             | None => Ok (drops st)
             end = Ok ds /\ Forall live_drop ds).
  { destruct (spawn inp) as [sd|].
    - destruct (new_drop_live sd Hsp) as (d & -> & Hd). cbn [bind].
      eexists. split; [reflexivity|]. apply Forall_app. split; auto.
    - eauto. }
  destruct Hds as (ds & -> & Hds). cbn [bind].
  destruct (step_drops_live ds (morphs inp)
              (World (found st) (clusters st) [Erase]) Hds)
    as (kept & w' & Hstep & Hk & Hf & Hc).
  exists kept, w'. auto.
Qed.

(** An update phase that returns leaves the session as it found it: live
    drops only, no cluster, a spinner index in range, the same found words. *)
Lemma update_phase_inv (st st' : state) (inp : input) (wps : PyFloat.float)
    (evs : list event) :
  session_inv st -> input_ok inp ->
  update_phase WORD_LIST height width cos sin st inp wps = Ok (st', evs) ->
  session_inv st' /\ found st' = found st.
Proof.
  intros (Hdrops & Hcl & Hspin) Hin H. rewrite update_phase_drop_phase in H.
  destruct (drop_phase_live st inp Hdrops Hin) as (kept & w & Hdp & Hk & Hf & Hc).
  rewrite Hdp in H. cbn [bind] in H.
  bind_inv H as r Hupd. destruct r as [cs cevs].
  apply update_clusters_keeps_nothing in Hupd. subst cs.
  bind_inv H as sp Hsp. injection H as <- <-. simpl.
  split; [|exact Hf]. split; [exact Hk|]. split; [reflexivity|].
  destruct (_ =? 0); [|assumption].
  change (len SPINNER) with 4. apply Z.mod_pos_bound. lia.
Qed.

Lemma tick_inv (st : state) (inp : input) (o : outcome) (evs : list event) :
  session_inv st -> input_ok inp ->
  tick WORD_LIST height width cos sin st inp = Ok (o, evs) ->
  session_inv (state_of o) /\ found (state_of o) = found st.
Proof.
  intros Hinv Hin H. unfold tick in H.
  destruct (handle_key _ (key inp)) as [st1|] eqn:Hk.
  - apply handle_key_frozen in Hk.
    destruct Hk as ((Hd & Hc & Hf) & _ & Hs). simpl in Hd, Hc, Hf, Hs.
    assert (Hinv1 : session_inv st1).
    { destruct Hinv as (H1 & H2 & H3). unfold session_inv.
      rewrite Hd, Hc, Hs. auto. }
    destruct (paused st1).
    + injection H as <- <-. simpl. auto.
    + bind_inv H as r Hup. destruct r as [st2 evs2].
      destruct (update_phase_inv _ _ _ _ _ Hinv1 Hin Hup) as [Hinv2 Hf2].
      destruct (TARGET_COUNT <=? len (found st2)); injection H as <- <-;
        simpl; (split; [exact Hinv2 | congruence]).
  - injection H as <- <-. simpl. auto.
Qed.

Lemma run_inv (st : state) (ins : list input) (o : outcome) (evs : list event) :
  session_inv st -> Forall input_ok ins ->
  run WORD_LIST height width cos sin st ins = Ok (o, evs) ->
  session_inv (state_of o) /\ found (state_of o) = found st.
Proof.
  intros Hinv Hins; revert st o evs Hinv;
    induction Hins as [|inp rest Hin _ IH]; intros st o evs Hinv H;
    cbn [run] in H.
  - injection H as <- <-. simpl. auto.
  - bind_inv H as r1 Htick. destruct r1 as [o1 evs1].
    destruct (tick_inv _ _ _ _ Hinv Hin Htick) as [Hinv1 Hf1].
    destruct o1 as [st1|st1].
    + bind_inv H as r2 Hrun. destruct r2 as [o2 evs2]. injection H as <- <-.
      simpl in Hinv1, Hf1. destruct (IH _ _ _ Hinv1 Hrun) as [Hinv2 Hf2].
      split; [exact Hinv2 | congruence].
    + injection H as <- <-. auto.
Qed.

End NeverRaises.

Lemma input_of_main_ok (height width : Z) (inp : input) :
  input_of_main height width inp -> input_ok inp.
Proof. intros [H _]. exact H. Qed.

(** X5: the drop phase never raises.  On a window of at most 2^15 lines and
    columns, with a dictionary as line 47 leaves it and draws as [random]
    gives them, the drops of lines 123-127 are created, and in every state a
    session reaches the operations of the next iteration that are the
    program's own return: [chr(ch)] of line 133, the new drop of line 144,
    the loop of lines 145-156 over the drops ([update], [draw], the
    detection) and [int(elapsed)], [int(wps)] of line 163.  Every drop the
    loop keeps is well formed again, and no word and no cluster is added.
    (The session is taken as far as it has come: the [addstr] calls of lines
    161 and 164, outside any [try], end an iteration where [curses] raises.) *)
Theorem drop_phase_never_raises (WORD_LIST : list pystr) (height width : Z)
    (cos sin : PyFloat.float -> result PyFloat.float)
    (draws : list spawn_draw) :
  Forall (fun wd => in_length_range wd = true) WORD_LIST ->
  0 < height <= 2 ^ 15 -> 0 < width <= 2 ^ 15 ->
  Forall (draw_of_main height width) draws ->
  exists st0,
    initial_state width draws = Ok st0 /\
    forall (ins : list input) (st : state) (evs : list event) (inp : input),
      Forall (input_of_main height width) ins ->
      input_of_main height width inp ->
      run WORD_LIST height width cos sin st0 ins = Ok (Running st, evs) ->
      session_inv st /\ found st = [] /\
      (key inp <> -1 -> exists c, py_chr (key inp) = Ok c) /\
      (exists r, hud_numbers (elapsed inp)
                   (words_per_second (found st) (elapsed inp)) = Ok r) /\
      exists kept w,
        drop_phase WORD_LIST height width st inp = Ok (kept, w) /\
        Forall live_drop kept /\ w_found w = [] /\ w_clusters w = [].
Proof.
  intros Hdict [_ Hh] _ Hdraws.
  assert (Hbig : height <= 2 ^ 1000).
  { assert (2 ^ 15 <= 2 ^ 1000) by (apply Z.pow_le_mono_r; lia). lia. }
  unfold initial_state.
  destruct (initial_drops_live (firstn (Z.to_nat (cols width / 8)) draws))
    as (ds & -> & Hds).
  { apply Forall_firstn_keep. eapply Forall_impl; [|exact Hdraws].
    intros sd Hsd. apply Hsd. }
  cbn [bind]. eexists. split; [reflexivity|].
  intros ins st evs inp Hins Hinp Hrun.
  assert (Hinv0 : session_inv (State ds [] [] 0 0 PyFloat.f0_05 false)).
  { unfold session_inv. simpl. split; [exact Hds|]. split; [reflexivity | lia]. }
  assert (Hins' : Forall input_ok ins).
  { eapply Forall_impl; [|exact Hins]. apply input_of_main_ok. }
  destruct (run_inv WORD_LIST height width cos sin Hdict Hbig _ _ _ _
              Hinv0 Hins' Hrun) as [Hinv Hf].
  simpl in Hinv, Hf.
  pose proof (input_of_main_ok _ _ _ Hinp) as Hok.
  split; [exact Hinv|]. split; [exact Hf|]. split; [|split].
  - intros Hkey. destruct Hok as (Hrange & _).
    destruct (py_chr_total _ Hrange) as [c Hc].
    destruct (Z.eqb_spec (key inp) (-1)); [contradiction | eauto].
  - rewrite Hf. apply hud_numbers_total. apply Hok.
  - destruct (drop_phase_live WORD_LIST height width Hdict Hbig st inp
                (proj1 Hinv) Hok) as (kept & w & Hdp & Hk & Hfw & Hcw).
    exists kept, w. split; [exact Hdp|]. split; [exact Hk|].
    destruct Hinv as (_ & Hcl & _). split; congruence.
Qed.

(** Discharges the conditions on concrete draws and inputs by evaluation. *)
Ltac evaluate_inputs :=
  unfold draw_of_main, draw_ok, input_of_main, input_ok;
  repeat (cbn [map repeat spawn key elapsed morphs
               s_x s_layer s_gradient s_y0 s_char];
          lazymatch goal with
          | |- draw_ok _ => unfold draw_ok
          | |- draw_of_main _ _ _ => unfold draw_of_main
          | |- input_ok _ => unfold input_ok
          | |- input_of_main _ _ _ => unfold input_of_main
          | |- Forall _ [] => constructor
          | |- Forall _ (_ :: _) => constructor
          | |- _ /\ _ => split
          | |- True => exact I
          | |- In _ _ =>
              unfold ALPHABET; cbn [In];
              repeat (first [left; reflexivity | right])
          | |- _ = true => vm_compute; reflexivity
          | |- _ <= _ => apply Z.leb_le; vm_compute; reflexivity
          | |- _ < _ => apply Z.ltb_lt; vm_compute; reflexivity
          end).

Lemma drop_phase_never_raises_witness :
  exists st0 st evs,
    initial_state 80 wide_draws = Ok st0 /\
    run [[1488; 1489; 1490; 1491; 1492; 1493; 1494; 1495; 1496; 1497]]
      24 80 trig_missing trig_missing st0 wide_inputs = Ok (Running st, evs) /\
    len (drops st) = 11 /\
    session_inv st /\ found st = [] /\
    (key wide_next <> -1 -> exists c, py_chr (key wide_next) = Ok c) /\
    (exists r, hud_numbers (elapsed wide_next)
                 (words_per_second (found st) (elapsed wide_next)) = Ok r) /\
    exists kept w,
      drop_phase [[1488; 1489; 1490; 1491; 1492; 1493; 1494; 1495; 1496; 1497]]
        24 80 st wide_next = Ok (kept, w) /\
      Forall live_drop kept /\ w_found w = [] /\ w_clusters w = [].
Proof.
  assert (Hdict : Forall (fun wd => in_length_range wd = true)
                    [[1488; 1489; 1490; 1491; 1492; 1493; 1494; 1495; 1496; 1497]])
    by (repeat constructor).
  assert (Hh : 0 < 24 <= 2 ^ 15) by (change (2 ^ 15) with 32768; lia).
  assert (Hw : 0 < 80 <= 2 ^ 15) by (change (2 ^ 15) with 32768; lia).
  assert (Hdraws : Forall (draw_of_main 24 80) wide_draws)
    by (unfold wide_draws; evaluate_inputs).
  assert (Hins : Forall (input_of_main 24 80) wide_inputs)
    by (unfold wide_inputs; evaluate_inputs).
  assert (Hnext : input_of_main 24 80 wide_next)
    by (unfold wide_next; evaluate_inputs).
  destruct (drop_phase_never_raises
              [[1488; 1489; 1490; 1491; 1492; 1493; 1494; 1495; 1496; 1497]]
              24 80 trig_missing trig_missing wide_draws Hdict Hh Hw Hdraws)
    as (st0 & H0 & Hall).
  vm_compute in H0. injection H0 as <-.
  do 3 eexists.
  split; [vm_compute; reflexivity|]. split; [vm_compute; reflexivity|].
  split; [reflexivity|].
  eapply (Hall wide_inputs _ _ wide_next Hins Hnext). vm_compute. reflexivity.
Defined.

(** ** Finding a word without [curses.cos] *)

Lemma cluster_init_fresh (w : pystr) (cx cy : Z) (cols : list Z) (c : Cluster.t) :
  Cluster.init w cx cy 40 cols = Ok c -> fresh_cluster c /\ cluster_word c = w.
Proof.
  intros H. destruct (cluster_init_fields _ _ _ _ _ _ H) as (Hw & Ha & Hl).
  split; [|exact Hw]. split; [exact Ha|]. split; [exact Hl|].
  intros Hnil. unfold cluster_word in Hw. rewrite Hnil in Hw. simpl in Hw.
  subst w. discriminate H.
Qed.

Section MissingCos.

Variable WORD_LIST : list pystr.
Variables height width : Z.

Lemma detect_words_fresh (words : list pystr) (p : pystr) (w w' : world) :
  detect_words height width words p w = Ok w' ->
  exists cs,
    w_clusters w' = w_clusters w ++ cs /\
    w_found w' = w_found w ++ map cluster_word cs /\ Forall fresh_cluster cs.
Proof.
  revert w; induction words as [|wd rest IH]; intros w H; cbn [detect_words] in H.
  - injection H as <-. exists []. rewrite !app_nil_r. auto.
  - destruct (str_contains p wd); [|apply IH; exact H].
    destruct (list_contains (w_found w) wd); cbn [negb] in H;
      [apply IH; exact H|].
    bind_inv H as c Hc. destruct (cluster_init_fresh _ _ _ _ _ Hc) as [Hfr Hw].
    destruct (IH _ H) as (cs & Hcs & Hfd & Hall). simpl in Hcs, Hfd.
    exists (c :: cs). rewrite Hcs, Hfd, <- !app_assoc. simpl. rewrite Hw.
    auto.
Qed.

Lemma step_drops_fresh (ds kept : list Drop.t) (ms : list (option glyph))
    (w w' : world) :
  step_drops WORD_LIST height width ds ms w = Ok (kept, w') ->
  exists cs,
    w_clusters w' = w_clusters w ++ cs /\
    w_found w' = w_found w ++ map cluster_word cs /\ Forall fresh_cluster cs.
Proof.
  revert ms w kept; induction ds as [|d rest IH]; intros ms w kept H;
    cbn [step_drops] in H.
  - injection H as <- <-. exists []. rewrite !app_nil_r. auto.
  - bind_inv H as r1 Hupd. destruct r1 as [d' alive].
    bind_inv H as w1 Hw1. bind_inv H as r2 Hrest. destruct r2 as [kept' w2].
    injection H as <- <-.
    destruct (IH _ _ _ Hrest) as (cs2 & Hc2 & Hf2 & Hall2).
    destruct alive.
    + bind_inv Hw1 as evs Hdraw. injection Hw1 as <-. simpl in Hc2, Hf2. eauto.
    + destruct (detect_words_fresh _ _ _ _ Hw1) as (cs1 & Hc1 & Hf1 & Hall1).
      exists (cs1 ++ cs2). rewrite Hc2, Hf2, Hc1, Hf1, map_app, <- !app_assoc.
      split; [reflexivity|]. split; [reflexivity|].
      apply Forall_app. auto.
Qed.

Lemma update_clusters_fresh_raises
    (sin : PyFloat.float -> result PyFloat.float)
    (c : Cluster.t) (cs : list Cluster.t) :
  fresh_cluster c ->
  update_clusters height width trig_missing sin (c :: cs) = Raise AttributeError.
Proof.
  intros (Ha & Hl & Hne). destruct c as [ls life a cols x y]. simpl in *.
  subst. destruct ls as [|l ls]; [congruence|]. reflexivity.
Qed.

Lemma update_phase_without_cos
    (cos sin sin' : PyFloat.float -> result PyFloat.float)
    (st st' : state) (inp : input) (wps : PyFloat.float) (evs : list event) :
  clusters st = [] ->
  update_phase WORD_LIST height width cos sin st inp wps = Ok (st', evs) ->
  found st' <> found st ->
  update_phase WORD_LIST height width trig_missing sin' st inp wps
  = Raise AttributeError.
Proof.
  intros Hcl H Hneq. unfold update_phase in *.
  bind_inv H as ds Hds. rewrite Hds. cbn [bind].
  bind_inv H as r1 Hstep. destruct r1 as [new_drops w]. rewrite Hstep.
  cbn [bind].
  destruct (step_drops_fresh _ _ _ _ _ Hstep) as (cs & Hc & Hf & Hall).
  simpl in Hc, Hf. rewrite Hcl in Hc. simpl in Hc.
  bind_inv H as r2 Hupd. destruct r2 as [cs' cevs].
  bind_inv H as sp Hsp. injection H as <- <-. simpl in Hneq.
  destruct Hall as [|c rest Hfresh _].
  - simpl in Hf. rewrite app_nil_r in Hf. congruence.
  - rewrite Hc. rewrite (update_clusters_fresh_raises sin' c rest Hfresh).
    reflexivity.
Qed.

Variable sin : PyFloat.float -> result PyFloat.float.

Lemma tick_missing_no_find (st : state) (inp : input) (o : outcome)
    (evs : list event) :
  clusters st = [] ->
  tick WORD_LIST height width trig_missing sin st inp = Ok (o, evs) ->
  found (state_of o) = found st /\ clusters (state_of o) = [] /\
  logged evs = [].
Proof.
  intros Hcl H.
  assert (Hf : found (state_of o) = found st).
  { unfold tick in H. destruct (handle_key _ (key inp)) as [st1|] eqn:Hk.
    - apply handle_key_frozen in Hk. destruct Hk as ((_ & Hc & Hfd) & _).
      simpl in Hc, Hfd. destruct (paused st1).
      + injection H as <- <-. exact Hfd.
      + bind_inv H as r Hup. destruct r as [st2 evs2].
        assert (Hf2 : found st2 = found st1).
        { destruct (list_eq_dec (list_eq_dec Z.eq_dec) (found st2) (found st1))
            as [|Hneq]; [assumption|].
          pose proof (update_phase_without_cos trig_missing sin sin st1 st2 inp
                        _ evs2 ltac:(congruence) Hup Hneq) as Hr.
          rewrite Hr in Hup. discriminate Hup. }
        destruct (TARGET_COUNT <=? len (found st2)); injection H as <- <-;
          simpl; congruence.
    - injection H as <- <-. reflexivity. }
  split; [exact Hf|]. split.
  - unfold tick in H. destruct (handle_key _ (key inp)) as [st1|] eqn:Hk.
    + apply handle_key_frozen in Hk. destruct Hk as ((_ & Hc & _) & _).
      simpl in Hc. destruct (paused st1).
      * injection H as <- <-. simpl. congruence.
      * bind_inv H as r Hup. destruct r as [st2 evs2].
        apply update_phase_extends in Hup. destruct Hup as (_ & Hc2 & _).
        destruct (TARGET_COUNT <=? len (found st2)); injection H as <- <-;
          exact Hc2.
    + injection H as <- <-. exact Hcl.
  - destruct (tick_extends _ _ _ _ _ _ _ _ _ H) as (new & Hnew & Hlog & _).
    rewrite Hf in Hnew. rewrite <- (app_nil_r (found st)) in Hnew at 1.
    apply app_inv_head in Hnew. subst new. exact Hlog.
Qed.

Lemma run_missing_no_find (st : state) (ins : list input) (o : outcome)
    (evs : list event) :
  clusters st = [] ->
  run WORD_LIST height width trig_missing sin st ins = Ok (o, evs) ->
  found (state_of o) = found st /\ logged evs = [].
Proof.
  revert st o evs; induction ins as [|inp rest IH]; intros st o evs Hcl H;
    cbn [run] in H.
  - injection H as <- <-. auto.
  - bind_inv H as r1 Htick. destruct r1 as [o1 evs1].
    destruct (tick_missing_no_find _ _ _ _ Hcl Htick) as (Hf1 & Hc1 & Hl1).
    destruct o1 as [st1|st1].
    + bind_inv H as r2 Hrun. destruct r2 as [o2 evs2]. injection H as <- <-.
      simpl in Hf1, Hc1. destruct (IH _ _ _ Hc1 Hrun) as [Hf2 Hl2].
      rewrite logged_app, Hl1, Hl2. split; [congruence | reflexivity].
    + injection H as <- <-. auto.
Qed.

(** With no new word an iteration never reaches [curses.cos]: it ends as it
    does with a [cos] that returns. *)
Lemma update_phase_same_without_find
    (cos' sin' : PyFloat.float -> result PyFloat.float)
    (st st' : state) (inp : input) (wps : PyFloat.float) (evs : list event) :
  clusters st = [] ->
  update_phase WORD_LIST height width cos' sin' st inp wps = Ok (st', evs) ->
  found st' = found st ->
  update_phase WORD_LIST height width trig_missing sin st inp wps
  = Ok (st', evs).
Proof.
  intros Hcl H Heq. unfold update_phase in *.
  bind_inv H as ds Hds. rewrite Hds. cbn [bind].
  bind_inv H as r1 Hstep. destruct r1 as [new_drops w]. rewrite Hstep.
  cbn [bind].
  destruct (step_drops_fresh _ _ _ _ _ Hstep) as (cs & Hc & Hf & _).
  simpl in Hc, Hf. rewrite Hcl in Hc. simpl in Hc.
  bind_inv H as r2 Hupd. destruct r2 as [cs' cevs].
  bind_inv H as sp Hsp. injection H as <- <-. simpl in Heq.
  assert (Hnil : cs = []).
  { rewrite Heq in Hf. rewrite <- (app_nil_r (found st)) in Hf at 1.
    apply app_inv_head in Hf. symmetry in Hf. apply map_eq_nil in Hf.
    exact Hf. }
  rewrite Hnil in Hc. rewrite Hc in Hupd |- *. cbn [update_clusters] in Hupd.
  injection Hupd as <- <-. cbn [update_clusters bind]. rewrite Hsp.
  reflexivity.
Qed.

Lemma tick_cos_cases (cos' sin' : PyFloat.float -> result PyFloat.float)
    (st : state) (inp : input) (o : outcome) (evs : list event) :
  clusters st = [] ->
  tick WORD_LIST height width cos' sin' st inp = Ok (o, evs) ->
  (found (state_of o) = found st /\ clusters (state_of o) = [] /\
   tick WORD_LIST height width trig_missing sin st inp = Ok (o, evs)) \/
  (found (state_of o) <> found st /\
   tick WORD_LIST height width trig_missing sin st inp = Raise AttributeError).
Proof.
  intros Hcl H. unfold tick in *.
  destruct (handle_key _ (key inp)) as [st1|] eqn:Hk.
  - apply handle_key_frozen in Hk. destruct Hk as ((_ & Hc & Hf) & _).
    simpl in Hc, Hf. destruct (paused st1).
    + injection H as <- <-. left. simpl. split; [exact Hf|].
      split; [congruence | reflexivity].
    + bind_inv H as r Hup. destruct r as [st2 evs2].
      assert (Hcl1 : clusters st1 = []) by congruence.
      destruct (list_eq_dec (list_eq_dec Z.eq_dec) (found st2) (found st1))
        as [Heq|Hneq].
      * left.
        rewrite (update_phase_same_without_find cos' sin' st1 st2 inp _ evs2
                   Hcl1 Hup Heq).
        cbn [bind]. apply update_phase_extends in Hup.
        destruct Hup as (_ & Hc2 & _).
        destruct (TARGET_COUNT <=? len (found st2)); injection H as <- <-;
          simpl; (split; [congruence | split; [exact Hc2 | reflexivity]]).
      * right.
        rewrite (update_phase_without_cos cos' sin' sin st1 st2 inp _ evs2
                   Hcl1 Hup Hneq).
        split; [|reflexivity].
        destruct (TARGET_COUNT <=? len (found st2)); injection H as <- <-;
          simpl; congruence.
  - injection H as <- <-. left. simpl. auto.
Qed.

(** A session in which a word is found raises once [curses.cos] does. *)
Lemma run_without_cos (cos' sin' : PyFloat.float -> result PyFloat.float)
    (st : state) (ins : list input) (o : outcome) (evs : list event) :
  clusters st = [] ->
  run WORD_LIST height width cos' sin' st ins = Ok (o, evs) ->
  found (state_of o) <> found st ->
  run WORD_LIST height width trig_missing sin st ins = Raise AttributeError.
Proof.
  revert st o evs; induction ins as [|inp rest IH]; intros st o evs Hcl H Hneq;
    cbn [run] in *.
  - injection H as <- <-. simpl in Hneq. congruence.
  - bind_inv H as r1 Htick. destruct r1 as [o1 evs1].
    destruct (tick_cos_cases _ _ _ _ _ _ Hcl Htick)
      as [(Hf1 & Hc1 & ->) | (_ & ->)]; [|reflexivity].
    cbn [bind]. destruct o1 as [st1|st1].
    + bind_inv H as r2 Hrun. destruct r2 as [o2 evs2]. injection H as <- <-.
      simpl in Hf1, Hc1.
      rewrite (IH st1 o2 evs2 Hc1 Hrun); [reflexivity | congruence].
    + injection H as <- <-. simpl in Hf1, Hneq. congruence.
Qed.

End MissingCos.

(** C3: the check of line 166 is never reached with the target met.  On an
    interpreter whose [curses] module has no [cos] (Python's has none), a
    session that would bring [found] to [TARGET_COUNT] words, as it does
    with whatever [cos] and [sin] that return, raises [AttributeError]
    instead: line 158 draws the cluster of the first word found in the very
    iteration that finds it, before line 166.  A session that has not raised
    has an empty [found], and has left the loop only if [q] was read. *)
Theorem target_reached_raises_before_check (WORD_LIST : list pystr)
    (height width : Z) (sin : PyFloat.float -> result PyFloat.float)
    (draws : list spawn_draw) (st0 : state) (ins : list input) :
  initial_state width draws = Ok st0 ->
  (forall (cos' sin' : PyFloat.float -> result PyFloat.float) (o : outcome)
          (evs : list event),
     run WORD_LIST height width cos' sin' st0 ins = Ok (o, evs) ->
     TARGET_COUNT <= len (found (state_of o)) ->
     run WORD_LIST height width trig_missing sin st0 ins
     = Raise AttributeError) /\
  (forall (o : outcome) (evs : list event),
     run WORD_LIST height width trig_missing sin st0 ins = Ok (o, evs) ->
     found (state_of o) = [] /\
     (forall st, o = Summary st -> Exists (fun i => key i = 113) ins)).
Proof.
  intros H0. destruct (initial_state_fields _ _ _ H0) as (Hf0 & Hc0 & _).
  split.
  - intros cos' sin' o evs Hrun Hlen.
    apply (run_without_cos WORD_LIST height width sin cos' sin' st0 ins o evs
             Hc0 Hrun).
    rewrite Hf0. intros Hnil. rewrite Hnil in Hlen.
    unfold TARGET_COUNT, len in Hlen. simpl in Hlen. lia.
  - intros o evs Hrun.
    destruct (run_missing_no_find WORD_LIST height width sin st0 ins o evs
                Hc0 Hrun) as [Hf _].
    assert (Hnil : found (state_of o) = []) by congruence.
    split; [exact Hnil|]. intros st ->. simpl in Hnil.
    destruct (run_summary_cause _ _ _ _ _ _ _ _ _ Hrun) as [Hq|Ht]; [exact Hq|].
    rewrite Hnil in Ht. unfold TARGET_COUNT, len in Ht. simpl in Ht. lia.
Qed.

Lemma target_reached_raises_before_check_witness :
  exists st0 st evs,
    initial_state 80 ten_letter_draws = Ok st0 /\
    run ten_letter_words 24 80 trig_returns trig_returns st0 ten_letter_inputs
      = Ok (Summary st, evs) /\
    found st = ten_letter_words /\
    TARGET_COUNT <= len (found st) /\
    run ten_letter_words 24 80 trig_missing trig_missing st0 ten_letter_inputs
      = Raise AttributeError.
Proof.
  do 3 eexists.
  split; [vm_compute; reflexivity|]. split; [vm_compute; reflexivity|].
  split; [reflexivity|]. split; [vm_compute; discriminate|].
  eapply (proj1 (target_reached_raises_before_check ten_letter_words 24 80
                   trig_missing ten_letter_draws _ ten_letter_inputs _)
            trig_returns trig_returns);
    [vm_compute; reflexivity | vm_compute; discriminate].
  Unshelve. vm_compute. reflexivity.
Defined.

(** X6: the iteration that claims a word does not complete on an interpreter
    whose [curses] module has no [cos].  Whenever an iteration entered with
    no cluster alive adds a word to [found] (with whatever [cos] and [sin]
    that return), the same iteration raises [AttributeError] once
    [curses.cos] does: the new cluster is updated and drawn on line 158 of
    that very iteration. *)
Theorem found_word_raises_without_cos (WORD_LIST : list pystr)
    (height width : Z)
    (cos sin sin' : PyFloat.float -> result PyFloat.float)
    (st : state) (inp : input) (o : outcome) (evs : list event) :
  clusters st = [] ->
  tick WORD_LIST height width cos sin st inp = Ok (o, evs) ->
  found (state_of o) <> found st ->
  tick WORD_LIST height width trig_missing sin' st inp = Raise AttributeError.
Proof.
  intros Hcl H Hneq. unfold tick in *.
  destruct (handle_key _ (key inp)) as [st1|] eqn:Hk.
  - apply handle_key_frozen in Hk. destruct Hk as ((_ & Hc & Hf) & _).
    simpl in Hc, Hf.
    destruct (paused st1).
    + injection H as <- <-. simpl in Hneq. congruence.
    + bind_inv H as r Hup. destruct r as [st2 evs2].
      assert (Hneq2 : found st2 <> found st1).
      { rewrite Hf.
        destruct (TARGET_COUNT <=? len (found st2)); injection H as <- <-;
          exact Hneq. }
      rewrite (update_phase_without_cos WORD_LIST height width cos sin sin'
                 st1 st2 inp _ evs2);
        [reflexivity | congruence | exact Hup | exact Hneq2].
  - injection H as <- <-. simpl in Hneq. congruence.
Qed.

Lemma found_word_raises_without_cos_witness :
  exists o evs,
    clusters retiring_sample = [] /\
    tick [[1488; 1489]] 10 16 trig_returns trig_returns retiring_sample
      (quiet [None]) = Ok (o, evs) /\
    found (state_of o) = [[1488; 1489]] /\
    found (state_of o) <> found retiring_sample /\
    tick [[1488; 1489]] 10 16 trig_missing trig_missing retiring_sample
      (quiet [None]) = Raise AttributeError.
Proof.
  do 2 eexists.
  split; [reflexivity|]. split; [vm_compute; reflexivity|].
  split; [reflexivity|]. split; [discriminate|].
  eapply (found_word_raises_without_cos [[1488; 1489]] 10 16
            trig_returns trig_returns trig_missing retiring_sample
            (quiet [None]));
    [reflexivity | vm_compute; reflexivity | discriminate].
Defined.

(** X7: on such an interpreter a session that has not raised has found
    nothing, whatever the dictionary: [found] is still empty and no word was
    logged. *)
Theorem session_without_cos_finds_nothing (WORD_LIST : list pystr)
    (height width : Z) (sin : PyFloat.float -> result PyFloat.float)
    (draws : list spawn_draw) (st0 : state) (ins : list input) (o : outcome)
    (evs : list event) :
  initial_state width draws = Ok st0 ->
  run WORD_LIST height width trig_missing sin st0 ins = Ok (o, evs) ->
  found (state_of o) = [] /\ logged evs = [].
Proof.
  intros H0 Hrun.
  destruct (initial_state_fields _ _ _ H0) as (Hf0 & Hc0 & _).
  destruct (run_missing_no_find WORD_LIST height width sin st0 ins o evs)
    as [Hf Hl]; [exact Hc0 | exact Hrun |].
  split; [congruence | exact Hl].
Qed.

Lemma session_without_cos_finds_nothing_witness :
  exists st0 o evs,
    initial_state 16 twice_draws = Ok st0 /\
    run [[1488; 1489]] 2 16 trig_missing trig_missing st0
      [quiet []; quiet []; keypress 43] = Ok (o, evs) /\
    found (state_of o) = [] /\ logged evs = [].
Proof.
  do 3 eexists.
  split; [vm_compute; reflexivity|]. split; [vm_compute; reflexivity|].
  eapply (session_without_cos_finds_nothing [[1488; 1489]] 2 16 trig_missing
            twice_draws _ [quiet []; quiet []; keypress 43]);
    [vm_compute; reflexivity | vm_compute; reflexivity].
Defined.

(** ** The floor of the pacing delay *)

Lemma SFltb_leb (a b : spec_float) : SFltb a b = true -> SFleb a b = true.
Proof.
  unfold SFltb, SFleb. destruct (SFcompare a b) as [[| |]|]; congruence.
Qed.

(** Subtracting a finite number from a well-formed one gives a well-formed
    one. *)
Lemma SF64sub_valid (x : spec_float) (sy : bool) (my : positive) (ey : Z) :
  valid_binary x = true -> bounded prec emax my ey = true ->
  valid_binary (SF64sub x (S754_finite sy my ey)) = true.
Proof.
  intros Hx Hy. destruct x as [sx|sx| |sx mx ex]; try exact Hx.
  - exact Hy.
  - unfold SF64sub, SFsub, binary_normalize.
    destruct (_ - _) as [|p|p]; [reflexivity| |].
    + destruct (binary_round_shape false p (Z.min ex ey))
        as [-> | [-> | (m3 & e3 & -> & Hv)]]; [reflexivity | reflexivity | exact Hv].
    + destruct (binary_round_shape true p (Z.min ex ey))
        as [-> | [-> | (m3 & e3 & -> & Hv)]]; [reflexivity | reflexivity | exact Hv].
Qed.

Lemma speed_up_ok (d : PyFloat.float) :
  PyFloat.leb PyFloat.f0_01 (speed_up d) = true /\
  (PyFloat.valid d = true -> PyFloat.valid (speed_up d) = true).
Proof.
  unfold speed_up, PyFloat.max, PyFloat.ltb, PyFloat.leb, PyFloat.valid.
  destruct (SFltb PyFloat.f0_01 (PyFloat.sub d PyFloat.f0_01)) eqn:Hlt.
  - split; [apply SFltb_leb; exact Hlt|].
    intros Hv. apply SF64sub_valid; [exact Hv | reflexivity].
  - split; reflexivity.
Qed.

Lemma slow_down_ok (d : PyFloat.float) : delay_ok d -> delay_ok (slow_down d).
Proof.
  intros [Hv Hle]. unfold slow_down, PyFloat.add, PyFloat.f0_01.
  assert (Hnan : d <> S754_nan).
  { intros ->. discriminate Hle. }
  destruct (SF64add_pos_ge d 5764607523034235 (-59) Hv Hnan eq_refl)
    as (Hge & Hv' & _).
  split; [exact Hv'|].
  eapply SFleb_trans; [exact Hle | exact Hge].
Qed.

Lemma handle_key_delay (st st1 : state) (ch : Z) :
  handle_key st ch = Some st1 -> delay_ok (delay st) -> delay_ok (delay st1).
Proof.
  unfold handle_key. intros H Hd.
  repeat match type of H with
         | context [?a =? ?b] => destruct (a =? b)
         end; try discriminate; injection H as <-; simpl; try exact Hd.
  - destruct Hd as [Hv _]. destruct (speed_up_ok (delay st)) as [Hle Hvalid].
    split; [apply Hvalid; exact Hv | exact Hle].
  - apply slow_down_ok. exact Hd.
Qed.

Lemma sleeps_app (evs evs' : list event) :
  sleeps (evs ++ evs') = sleeps evs ++ sleeps evs'.
Proof.
  induction evs as [|e rest IH]; simpl; [reflexivity|].
  destruct e; simpl; rewrite ?IH; reflexivity.
Qed.

Lemma sleeps_claim_events (ws : list pystr) : sleeps (claim_events ws) = [].
Proof. induction ws as [|w rest IH]; simpl; [|rewrite IH]; reflexivity. Qed.

Lemma draw_entries_sleeps (d : Drop.t) (tr : list Drop.entry) (evs : list event) :
  Drop.draw_entries d tr = Ok evs -> sleeps evs = [].
Proof.
  revert evs; induction tr as [|[r c a] rest IH]; intros evs H; simpl in H.
  - injection H as <-; reflexivity.
  - bind_inv H as cp Hcp. bind_inv H as evs' Hrest. injection H as <-.
    simpl. apply IH. exact Hrest.
Qed.

Section DelayFloor.

Variable WORD_LIST : list pystr.
Variables height width : Z.
Variables cos sin : PyFloat.float -> result PyFloat.float.

Lemma draw_letters_sleeps (c : Cluster.t) (ls : list Cluster.letter)
    (evs : list event) :
  Cluster.draw_letters width height cos sin c ls = Ok evs -> sleeps evs = [].
Proof.
  revert evs; induction ls as [|l rest IH]; intros evs H; simpl in H.
  - injection H as <-; reflexivity.
  - bind_inv H as e1 H1. bind_inv H as e2 H2. injection H as <-.
    rewrite sleeps_app, (IH _ H2), app_nil_r.
    unfold Cluster.draw_letter in H1.
    bind_inv H1 as vc Hvc. bind_inv H1 as px Hpx.
    bind_inv H1 as vs Hvs. bind_inv H1 as py Hpy.
    destruct (py_index _ _); injection H1 as <-; reflexivity.
Qed.

Lemma update_clusters_sleeps (cs kept : list Cluster.t) (evs : list event) :
  update_clusters height width cos sin cs = Ok (kept, evs) -> sleeps evs = [].
Proof.
  revert kept evs; induction cs as [|c rest IH]; intros kept evs H;
    cbn [update_clusters] in H.
  - injection H as <- <-; reflexivity.
  - destruct (Cluster.update c) as [c' alive].
    bind_inv H as r1 H1. destruct r1 as [keep evs1].
    bind_inv H as r2 H2. destruct r2 as [kept' evs2].
    injection H as <- <-. rewrite sleeps_app, (IH _ _ H2), app_nil_r.
    destruct alive.
    + bind_inv H1 as r3 H3. destruct r3 as [v evs0]. injection H1 as <- <-.
      unfold Cluster.draw in H3. bind_inv H3 as e H4. injection H3 as <- <-.
      eapply draw_letters_sleeps; eassumption.
    + injection H1 as <- <-. reflexivity.
Qed.

Lemma step_drops_sleeps (ds kept : list Drop.t) (ms : list (option glyph))
    (w w' : world) :
  step_drops WORD_LIST height width ds ms w = Ok (kept, w') ->
  sleeps (w_events w') = sleeps (w_events w).
Proof.
  revert ms w kept; induction ds as [|d rest IH]; intros ms w kept H;
    cbn [step_drops] in H.
  - injection H as <- <-. reflexivity.
  - bind_inv H as r1 Hupd. destruct r1 as [d' alive].
    bind_inv H as w1 Hw1. bind_inv H as r2 Hrest. destruct r2 as [kept' w2].
    injection H as <- <-. rewrite (IH _ _ _ Hrest).
    destruct alive.
    + bind_inv Hw1 as evs Hdraw. injection Hw1 as <-. simpl.
      unfold Drop.draw in Hdraw.
      rewrite sleeps_app, (draw_entries_sleeps _ _ _ Hdraw), app_nil_r.
      reflexivity.
    + destruct (detect_words_spec _ _ _ _ _ _ Hw1)
        as (new & cs & _ & _ & Hev & _).
      rewrite Hev, sleeps_app, sleeps_claim_events, app_nil_r. reflexivity.
Qed.

Lemma update_phase_sleeps (st st' : state) (inp : input) (wps : PyFloat.float)
    (evs : list event) :
  update_phase WORD_LIST height width cos sin st inp wps = Ok (st', evs) ->
  sleeps evs = [delay st] /\ delay st' = delay st.
Proof.
  unfold update_phase. intros H.
  bind_inv H as ds Hds. bind_inv H as r1 Hstep. destruct r1 as [new_drops w].
  bind_inv H as r2 Hcl. destruct r2 as [cs cevs].
  bind_inv H as sp Hsp. injection H as <- <-. simpl.
  rewrite !sleeps_app, (step_drops_sleeps _ _ _ _ _ Hstep),
    (update_clusters_sleeps _ _ _ Hcl).
  split; reflexivity.
Qed.

Lemma tick_sleeps (st : state) (inp : input) (o : outcome) (evs : list event) :
  delay_ok (delay st) ->
  tick WORD_LIST height width cos sin st inp = Ok (o, evs) ->
  Forall delay_ok (sleeps evs) /\ delay_ok (delay (state_of o)) /\
  (length (sleeps evs) <= 1)%nat.
Proof.
  intros Hd H. unfold tick in H.
  destruct (handle_key _ (key inp)) as [st1|] eqn:Hk.
  - apply handle_key_delay in Hk; [|exact Hd].
    destruct (paused st1).
    + injection H as <- <-. simpl. auto.
    + bind_inv H as r Hup. destruct r as [st2 evs2].
      destruct (update_phase_sleeps _ _ _ _ _ Hup) as [Hs H2].
      destruct (TARGET_COUNT <=? len (found st2)); injection H as <- <-;
        simpl; rewrite Hs, H2; simpl; auto.
  - injection H as <- <-. simpl. auto.
Qed.

Lemma run_sleeps (st : state) (ins : list input) (o : outcome)
    (evs : list event) :
  delay_ok (delay st) ->
  run WORD_LIST height width cos sin st ins = Ok (o, evs) ->
  Forall delay_ok (sleeps evs) /\ delay_ok (delay (state_of o)) /\
  (length (sleeps evs) <= length ins)%nat.
Proof.
  revert st o evs; induction ins as [|inp rest IH]; intros st o evs Hd H;
    cbn [run] in H.
  - injection H as <- <-. simpl. auto.
  - bind_inv H as r1 Htick. destruct r1 as [o1 evs1].
    destruct (tick_sleeps _ _ _ _ Hd Htick) as (Hs1 & Hd1 & Hn1).
    destruct o1 as [st1|st1].
    + bind_inv H as r2 Hrun. destruct r2 as [o2 evs2]. injection H as <- <-.
      destruct (IH _ _ _ Hd1 Hrun) as (Hs2 & Hd2 & Hn2).
      rewrite sleeps_app, length_app. simpl.
      split; [apply Forall_app; auto|]. split; [exact Hd2 | lia].
    + injection H as <- <-. simpl. split; [exact Hs1|]. split; [exact Hd1 | lia].
Qed.

End DelayFloor.

(** X8: the pacing delay never falls below 0.01 s.  Whatever keys are read,
    every [time.sleep] call of a session is given a well-formed float of at
    least 0.01, at most one call is made per iteration, and the delay the
    session is left with is again such a float. *)
Theorem sleep_delay_at_least_minimum (WORD_LIST : list pystr)
    (height width : Z) (cos sin : PyFloat.float -> result PyFloat.float)
    (draws : list spawn_draw) (st0 : state) (ins : list input) (o : outcome)
    (evs : list event) :
  initial_state width draws = Ok st0 ->
  run WORD_LIST height width cos sin st0 ins = Ok (o, evs) ->
  Forall delay_ok (sleeps evs) /\ delay_ok (delay (state_of o)) /\
  (length (sleeps evs) <= length ins)%nat.
Proof.
  intros H0 Hrun.
  destruct (initial_state_fields _ _ _ H0) as (_ & _ & _ & Hd0).
  eapply run_sleeps; [|exact Hrun].
  rewrite Hd0. split; reflexivity.
Qed.

Lemma sleep_delay_at_least_minimum_witness :
  exists st0 o evs,
    initial_state 16 twice_draws = Ok st0 /\
    run [[1488; 1489]] 24 16 trig_missing trig_missing st0
      (repeat (keypress 43) 6) = Ok (o, evs) /\
    delay (state_of o) = PyFloat.f0_01 /\
    length (sleeps evs) = 6%nat /\
    Forall delay_ok (sleeps evs) /\ delay_ok (delay (state_of o)) /\
    (length (sleeps evs) <= length (repeat (keypress 43) 6))%nat.
Proof.
  do 3 eexists.
  split; [vm_compute; reflexivity|]. split; [vm_compute; reflexivity|].
  split; [vm_compute; reflexivity|]. split; [reflexivity|].
  eapply (sleep_delay_at_least_minimum [[1488; 1489]] 24 16 trig_missing
            trig_missing twice_draws _ (repeat (keypress 43) 6));
    [vm_compute; reflexivity | vm_compute; reflexivity].
Defined.

(** ** What a claimed word was read from *)

Lemma starts_with_spec (s w : pystr) :
  starts_with s w = true <-> exists post, s = w ++ post.
Proof.
  revert s; induction w as [|a w IH]; intros s.
  - split; [intros _; exists s; reflexivity | intros _; destruct s; reflexivity].
  - destruct s as [|b s]; simpl.
    + split; [discriminate | intros [post H]; discriminate H].
    + rewrite andb_true_iff, Z.eqb_eq, IH. split.
      * intros [-> [post ->]]. eauto.
      * intros [post H]. injection H as -> ->. eauto.
Qed.

Lemma str_contains_spec (s w : pystr) :
  str_contains s w = true <-> exists pre post, s = pre ++ w ++ post.
Proof.
  induction s as [|b s IH]; cbn [str_contains];
    rewrite orb_true_iff, starts_with_spec.
  - split.
    + intros [[post H]|H]; [|discriminate]. exists [], post. exact H.
    + intros (pre & post & H). left.
      destruct pre; [|discriminate]. eauto.
  - rewrite IH. split.
    + intros [[post H]|(pre & post & H)].
      * exists [], post. exact H.
      * exists (b :: pre), post. rewrite H. reflexivity.
    + intros (pre & post & H). destruct pre as [|c pre].
      * left. eauto.
      * right. injection H as _ H. eauto.
Qed.

(** X9: a word is in [found] after the detection loop of a retired drop
    exactly when it was there before or it is a dictionary word whose
    letters are the glyphs of consecutive trail entries of that drop, read
    from the newest entry to the oldest. *)
Theorem claimed_word_read_from_trail (height width : Z) (words : list pystr)
    (d : Drop.t) (w w' : world) (wd : pystr) :
  detect_words height width words (probe d) w = Ok w' ->
  (In wd (w_found w') <->
   In wd (w_found w) \/
   (In wd words /\
    exists newer run older,
      Drop.trail d = newer ++ run ++ older /\ map Drop.ch run = wd)).
Proof.
  intros H.
  destruct (detect_words_spec _ _ _ _ _ _ H) as (new & cs & Hf & _ & _ & _ & _ & Hnew).
  rewrite Hf, in_app_iff, Hnew, str_contains_spec.
  assert (Hsub : (exists pre post, probe d = pre ++ wd ++ post) <->
                 (exists newer run older,
                    Drop.trail d = newer ++ run ++ older /\
                    map Drop.ch run = wd)).
  { unfold probe. split.
    - intros (pre & post & Hp).
      apply map_eq_app in Hp. destruct Hp as (newer & rest & Ht & Hpre & Hrest).
      apply map_eq_app in Hrest. destruct Hrest as (run & older & Hr & Hrun & _).
      exists newer, run, older. subst rest. auto.
    - intros (newer & run & older & Ht & Hrun).
      exists (map Drop.ch newer), (map Drop.ch older).
      rewrite Ht, !map_app, Hrun. reflexivity. }
  rewrite Hsub. split.
  - intros [Hin | (Hw & Hc & _)]; auto.
  - intros [Hin | (Hw & Hc)]; [auto|].
    destruct (in_dec (list_eq_dec Z.eq_dec) wd (w_found w)); auto.
Qed.

Lemma claimed_word_read_from_trail_witness :
  exists w',
    detect_words 10 16 [[1488; 1489]; [1490]]
      (probe (Drop.Make 3 0 (PyFloat.of_int 30) PyFloat.f0_4 1488
                [Drop.Entry 30 1487 1; Drop.Entry 30 1488 2;
                 Drop.Entry 29 1489 3] [1; 2; 3; 4; 5]))
      (World [] [] []) = Ok w' /\
    (In [1488; 1489] (w_found w') <->
     In [1488; 1489] (w_found (World [] [] [])) \/
     (In [1488; 1489] [[1488; 1489]; [1490]] /\
      exists newer run older,
        Drop.trail (Drop.Make 3 0 (PyFloat.of_int 30) PyFloat.f0_4 1488
                      [Drop.Entry 30 1487 1; Drop.Entry 30 1488 2;
                       Drop.Entry 29 1489 3] [1; 2; 3; 4; 5])
        = newer ++ run ++ older /\ map Drop.ch run = [1488; 1489])).
Proof.
  eexists. split; [vm_compute; reflexivity|].
  eapply (claimed_word_read_from_trail 10 16 [[1488; 1489]; [1490]]
            (Drop.Make 3 0 (PyFloat.of_int 30) PyFloat.f0_4 1488
               [Drop.Entry 30 1487 1; Drop.Entry 30 1488 2;
                Drop.Entry 29 1489 3] [1; 2; 3; 4; 5])
            (World [] [] []) _ [1488; 1489]).
  vm_compute; reflexivity.
Defined.

(** ** The rows of a trail *)

Lemma shiftl_scaled (m e K : Z) :
  0 <= K -> 0 <= e + K -> Z.shiftl m e = (m * 2 ^ (e + K)) / 2 ^ K.
Proof.
  intros HK HeK. pose proof (pow2_pos K HK) as HpK.
  destruct (Z.le_gt_cases 0 e) as [He|He].
  - rewrite Z.shiftl_mul_pow2 by lia. rewrite Z.pow_add_r by lia.
    rewrite Z.mul_assoc. rewrite Z.div_mul by lia. reflexivity.
  - rewrite Z.shiftl_div_pow2 by lia.
    pose proof (pow2_pos (e + K) HeK) as Hp.
    replace (2 ^ K) with (2 ^ (e + K) * 2 ^ (- e))
      by (rewrite <- Z.pow_add_r by lia; f_equal; lia).
    rewrite (Z.mul_comm m). rewrite Z.div_mul_cancel_l; [reflexivity | |lia].
    pose proof (pow2_pos (- e) ltac:(lia)). lia.
Qed.

Lemma canonical_normal (m : positive) (e : Z) :
  fexp prec emax (Zdigits2 (Z.pos m) + e) = e ->
  -1074 <= e /\ (-1074 < e -> 2 ^ 52 <= Z.pos m).
Proof.
  intros Hc. rewrite fexp64_eq in Hc. split; [lia|]. intros He.
  destruct (Zdigits2_bounds (Z.pos m) ltac:(lia)) as (_ & Hlo & _).
  replace (Zdigits2 (Z.pos m)) with 53 in Hlo by lia. exact Hlo.
Qed.

(** Among canonical mantissa-exponent pairs the order of the floats is the
    order of their integer parts. *)
Lemma shiftl_canonical_mono (m1 m2 : positive) (e1 e2 : Z) :
  bounded prec emax m1 e1 = true -> bounded prec emax m2 e2 = true ->
  e1 < e2 \/ (e1 = e2 /\ Z.pos m1 <= Z.pos m2) ->
  Z.shiftl (Z.pos m1) e1 <= Z.shiftl (Z.pos m2) e2.
Proof.
  intros H1 H2 Hle.
  apply bounded_spec in H1. destruct H1 as [Hc1 _].
  apply bounded_spec in H2. destruct H2 as [Hc2 _].
  pose proof (canonical_mantissa_lt _ _ Hc1) as Hm1.
  destruct (canonical_normal _ _ Hc1) as [He1 _].
  destruct (canonical_normal _ _ Hc2) as [He2 Hn2].
  set (K := Z.max 0 (- e1)).
  rewrite (shiftl_scaled (Z.pos m1) e1 K), (shiftl_scaled (Z.pos m2) e2 K)
    by (unfold K; lia).
  apply Z.div_le_mono; [apply pow2_pos; unfold K; lia|].
  destruct Hle as [Hlt | [-> Hm]].
  - specialize (Hn2 ltac:(lia)).
    replace (e2 + K) with ((e1 + K) + (e2 - e1)) by lia.
    rewrite (Z.pow_add_r 2 (e1 + K) (e2 - e1)) by (unfold K; lia).
    pose proof (pow2_pos (e1 + K) ltac:(unfold K; lia)) as HP.
    assert (HQ : 2 ^ 1 <= 2 ^ (e2 - e1)) by (apply Z.pow_le_mono_r; lia).
    change (2 ^ 1) with 2 in HQ.
    change (2 ^ 53) with (2 * 2 ^ 52) in Hm1.
    set (P := 2 ^ (e1 + K)) in *. set (Q := 2 ^ (e2 - e1)) in *.
    set (B := 2 ^ 52) in *.
    assert (Z.pos m1 * P <= 2 * B * P)
      by (apply Z.mul_le_mono_nonneg_r; lia).
    assert (B * P <= Z.pos m2 * P)
      by (apply Z.mul_le_mono_nonneg_r; lia).
    assert (Z.pos m2 * P * 2 <= Z.pos m2 * P * Q)
      by (apply Z.mul_le_mono_nonneg_l; [apply Z.mul_nonneg_nonneg; lia | lia]).
    lia.
  - apply Z.mul_le_mono_nonneg_r; [|exact Hm].
    pose proof (pow2_pos (e2 + K) ltac:(unfold K; lia)). lia.
Qed.

Lemma SFleb_finite_inv (s1 s2 : bool) (m1 m2 : positive) (e1 e2 : Z) :
  SFleb (S754_finite s1 m1 e1) (S754_finite s2 m2 e2) = true ->
  match s1, s2 with
  | true, false => True
  | false, true => False
  | false, false => e1 < e2 \/ (e1 = e2 /\ Z.pos m1 <= Z.pos m2)
  | true, true => e2 < e1 \/ (e2 = e1 /\ Z.pos m2 <= Z.pos m1)
  end.
Proof.
  unfold SFleb, SFcompare.
  change (Pos.compare_cont Eq m1 m2) with (Pos.compare m1 m2).
  destruct s1, s2; try (intros; exact I); try discriminate;
    destruct (Z.compare_spec e1 e2); destruct (Pos.compare_spec m1 m2);
    simpl; try discriminate; intros _; lia.
Qed.

(** [int] is monotone on well-formed floats. *)
Lemma to_int_mono (a b : PyFloat.float) (ra rb : Z) :
  PyFloat.valid a = true -> PyFloat.valid b = true ->
  PyFloat.leb a b = true ->
  PyFloat.to_int a = Ok ra -> PyFloat.to_int b = Ok rb -> ra <= rb.
Proof.
  unfold PyFloat.valid, PyFloat.leb. intros Hva Hvb Hle Ha Hb.
  destruct a as [sa|sa| |sa ma ea]; try discriminate Ha;
    destruct b as [sb|sb| |sb mb eb]; try discriminate Hb;
    simpl in Ha, Hb; injection Ha as <-; injection Hb as <-.
  - lia.
  - destruct sb; [discriminate Hle|]. simpl.
    apply Z.shiftl_nonneg. lia.
  - destruct sa; [|discriminate Hle]. simpl.
    pose proof (proj2 (Z.shiftl_nonneg (Z.pos ma) ea) ltac:(lia)). lia.
  - apply SFleb_finite_inv in Hle. simpl in Hva, Hvb.
    destruct sa, sb; simpl; try contradiction.
    + pose proof (shiftl_canonical_mono mb ma eb ea Hvb Hva Hle). lia.
    + pose proof (proj2 (Z.shiftl_nonneg (Z.pos ma) ea) ltac:(lia)).
      pose proof (proj2 (Z.shiftl_nonneg (Z.pos mb) eb) ltac:(lia)). lia.
    + exact (shiftl_canonical_mono ma mb ea eb Hva Hvb Hle).
Qed.

Lemma rows_descend_weaken (top top' : Z) (tr : list Drop.entry) :
  rows_descend top tr -> top <= top' -> rows_descend top' tr.
Proof.
  destruct tr as [|e rest]; simpl; [auto|].
  intros [H1 H2] Hle. split; [lia | exact H2].
Qed.

Lemma age_and_prune_descend (depth top : Z) (tr : list Drop.entry) :
  rows_descend top tr -> rows_descend top (Drop.age_and_prune depth tr).
Proof.
  revert top; induction tr as [|[r c a] rest IH]; intros top H; simpl.
  - exact I.
  - simpl in H. destruct H as [Hr Hrest].
    destruct (a <? depth); simpl.
    + split; [exact Hr | apply IH; exact Hrest].
    + apply IH. eapply rows_descend_weaken; eassumption.
Qed.

Lemma rows_descend_sorted (top : Z) (tr : list Drop.entry) :
  rows_descend top tr ->
  StronglySorted (fun newer older => Drop.ty older <= Drop.ty newer) tr /\
  Forall (fun e => Drop.ty e <= top) tr.
Proof.
  revert top; induction tr as [|e rest IH]; intros top H; simpl in H.
  - split; constructor.
  - destruct H as [He Hrest]. destruct (IH _ Hrest) as [Hs Hall].
    split.
    + constructor; assumption.
    + constructor; [exact He|].
      eapply Forall_impl; [|exact Hall]. simpl. intros. lia.
Qed.

Lemma update_trail_below (d d' : Drop.t) (max_row : Z) (m : option glyph)
    (alive : bool) :
  position_inv d -> trail_below d ->
  Drop.update d max_row m = Ok (d', alive) -> trail_below d'.
Proof.
  intros Hpos Hbelow Hup.
  destruct (update_position _ _ _ _ _ Hpos Hup) as [(Hv' & _ & _) Hle].
  destruct (update_fields _ _ _ _ _ Hup)
    as (row & Hrow & Htr & _ & _ & _ & _ & Hy & _).
  intros row' Hrow'. rewrite Hy, Hrow in Hrow'. injection Hrow' as <-.
  rewrite Htr. apply age_and_prune_descend. simpl. split; [lia|].
  destruct Hpos as (Hv & Hnan & Hs).
  destruct (PyFloat.to_int (Drop.y d)) as [r0|e] eqn:H0.
  - eapply rows_descend_weaken; [exact (Hbelow r0 H0)|].
    rewrite Hy in Hle, Hv'.
    exact (to_int_mono _ _ _ _ Hv Hv' Hle H0 Hrow).
  - exfalso. destruct (layer_speed_positive _ Hs) as (ms & es & Hse & _).
    rewrite Hse in Hrow.
    destruct (Drop.y d) as [s|s| |s m0 e0]; try discriminate.
Qed.

Lemma init_position (x layer : Z) (y0 : PyFloat.float) (c : glyph)
    (colors : list Z) (d : Drop.t) :
  PyFloat.valid y0 = true -> PyFloat.is_nan y0 = false ->
  Drop.init x layer y0 c colors = Ok d ->
  position_inv d /\ trail_below d.
Proof.
  unfold Drop.init. intros Hv Hn H. bind_inv H as s Hs. injection H as <-.
  split.
  - split; [exact Hv|]. split; [exact Hn|].
    exact (py_index_In _ _ _ Hs).
  - intros row _. exact I.
Qed.

Lemma updates_trail_below (d d' : Drop.t) (max_row : Z)
    (ms : list (option glyph)) :
  position_inv d -> trail_below d ->
  Drop.updates d max_row ms = Ok d' -> trail_below d'.
Proof.
  revert d; induction ms as [|m rest IH]; intros d Hpos Hb H; simpl in H.
  - injection H as <-. exact Hb.
  - bind_inv H as r Hup. destruct r as [d1 alive].
    destruct (update_position _ _ _ _ _ Hpos Hup) as [Hpos1 _].
    apply (IH d1 Hpos1); [|exact H].
    exact (update_trail_below _ _ _ _ _ Hpos Hb Hup).
Qed.

Lemma updates_row (d d' : Drop.t) (max_row : Z) (ms : list (option glyph)) :
  ms <> [] -> Drop.updates d max_row ms = Ok d' ->
  exists row, PyFloat.to_int (Drop.y d') = Ok row.
Proof.
  revert d; induction ms as [|m rest IH]; intros d Hne H; [congruence|].
  simpl in H. bind_inv H as r Hup. destruct r as [d1 alive].
  destruct rest as [|m' rest'].
  - simpl in H. injection H as <-.
    destruct (update_fields _ _ _ _ _ Hup)
      as (row & Hrow & _ & _ & _ & _ & _ & Hy & _).
    exists row. rewrite Hy. exact Hrow.
  - apply (IH d1); [discriminate | exact H].
Qed.

(** X10: a trail is laid out top to bottom.  After any number of updates of
    a drop created with a well-formed start row, the rows of its trail
    entries never increase from the newest entry to the oldest, and none
    lies below [int(self.y)]. *)
Theorem trail_rows_descend (x layer : Z) (y0 : PyFloat.float) (c : glyph)
    (colors : list Z) (d0 d : Drop.t) (max_row : Z)
    (ms : list (option glyph)) :
  PyFloat.valid y0 = true -> PyFloat.is_nan y0 = false ->
  Drop.init x layer y0 c colors = Ok d0 ->
  Drop.updates d0 max_row ms = Ok d ->
  StronglySorted (fun newer older => Drop.ty older <= Drop.ty newer)
                 (Drop.trail d) /\
  (ms <> [] ->
   exists row, PyFloat.to_int (Drop.y d) = Ok row /\
               Forall (fun e => Drop.ty e <= row) (Drop.trail d)).
Proof.
  intros Hv Hn H0 H.
  destruct (init_position _ _ _ _ _ _ Hv Hn H0) as [Hpos Hb].
  pose proof (updates_trail_below _ _ _ _ Hpos Hb H) as Hb'.
  pose proof (fun Hne => updates_row _ _ _ _ Hne H) as Hrow.
  destruct (PyFloat.to_int (Drop.y d)) as [row|e] eqn:Hy.
  - destruct (rows_descend_sorted _ _ (Hb' row Hy)) as [Hs Hall].
    split; [exact Hs|]. intros _. eauto.
  - split.
    + destruct ms as [|m rest].
      * simpl in H. injection H as <-.
        unfold Drop.init in H0. bind_inv H0 as s Hs. injection H0 as <-.
        simpl. constructor.
      * destruct (Hrow ltac:(discriminate)) as [row Hr]. discriminate Hr.
    + intros Hne. destruct (Hrow Hne) as [row Hr]. discriminate Hr.
Qed.

Lemma trail_rows_descend_witness :
  exists d0 d,
    Drop.init 3 3 (PyFloat.of_int (-1)) 1488 [1; 2; 3; 4; 5] = Ok d0 /\
    Drop.updates d0 20 [None; None; None; None] = Ok d /\
    map Drop.ty (Drop.trail d) = [5; 3; 2; 0] /\
    StronglySorted (fun newer older => Drop.ty older <= Drop.ty newer)
                   (Drop.trail d) /\
    ([None; None; None; None] <> ([] : list (option glyph)) ->
     exists row, PyFloat.to_int (Drop.y d) = Ok row /\
                 Forall (fun e => Drop.ty e <= row) (Drop.trail d)).
Proof.
  do 2 eexists.
  split; [reflexivity|]. split; [vm_compute; reflexivity|].
  split; [reflexivity|].
  eapply (trail_rows_descend 3 3 (PyFloat.of_int (-1)) 1488 [1; 2; 3; 4; 5]
            _ _ 20 [None; None; None; None]);
    [reflexivity | reflexivity | reflexivity | vm_compute; reflexivity].
Defined.

(** ** The length of a trail *)

Lemma prune_length (depth : Z) (tr : list Drop.entry) (k : Z) :
  ages_from k tr ->
  len (Drop.age_and_prune depth tr) = Z.min (len tr) (Z.max 0 (depth - k)).
Proof.
  revert k; induction tr as [|[r c a] rest IH]; intros k H.
  - unfold len. simpl. lia.
  - simpl in H. destruct H as [-> Hrest]. specialize (IH _ Hrest).
    pose proof (len_nonneg rest) as Hn.
    cbn [Drop.age_and_prune]. destruct (Z.ltb_spec k depth).
    + rewrite !len_cons, IH. lia.
    + rewrite len_cons, IH. lia.
Qed.

Lemma update_length (d d' : Drop.t) (max_row : Z) (m : option glyph)
    (alive : bool) :
  trail_inv d -> Drop.update d max_row m = Ok (d', alive) ->
  len (Drop.trail d') = Z.min (len (Drop.trail d) + 1) (len (Drop.colors d)).
Proof.
  intros [Hages _] Hup.
  destruct (update_fields _ _ _ _ _ Hup) as (row & _ & Htr & _).
  rewrite Htr, (prune_length _ _ 0); [|split; [reflexivity | exact Hages]].
  rewrite len_cons. pose proof (len_nonneg (Drop.colors d)). lia.
Qed.

Lemma updates_length (d d' : Drop.t) (max_row : Z) (ms : list (option glyph)) :
  trail_inv d -> Drop.updates d max_row ms = Ok d' ->
  len (Drop.trail d') =
  Z.min (len (Drop.trail d) + len ms) (len (Drop.colors d)).
Proof.
  revert d; induction ms as [|m rest IH]; intros d Hinv H; simpl in H.
  - injection H as <-. destruct Hinv as [_ Hle].
    change (len (@nil (option glyph))) with 0. lia.
  - bind_inv H as r Hup. destruct r as [d1 alive].
    pose proof (update_trail_inv _ _ _ _ _ Hinv Hup) as Hinv1.
    pose proof (update_length _ _ _ _ _ Hinv Hup) as Hlen1.
    destruct (update_fields _ _ _ _ _ Hup) as (_ & _ & _ & Hc & _).
    rewrite (IH _ Hinv1 H), Hlen1, Hc, len_cons.
    pose proof (len_nonneg rest). lia.
Qed.

(** X11: after [k] updates the trail of a drop holds exactly
    [min(k, len(colors))] entries: it grows by one entry per update until it
    is as long as the gradient, and keeps that length. *)
Theorem trail_length_exact (x layer : Z) (y0 : PyFloat.float) (c : glyph)
    (colors : list Z) (d0 d : Drop.t) (max_row : Z)
    (ms : list (option glyph)) :
  Drop.init x layer y0 c colors = Ok d0 ->
  Drop.updates d0 max_row ms = Ok d ->
  len (Drop.trail d) = Z.min (len ms) (len colors) /\
  len (probe d) = Z.min (len ms) (len colors).
Proof.
  intros H0 H.
  destruct (init_trail_inv _ _ _ _ _ _ H0) as [Hinv Hc].
  pose proof (updates_length _ _ _ _ Hinv H) as Hlen.
  unfold Drop.init in H0. bind_inv H0 as s Hs. injection H0 as <-.
  cbn [Drop.trail Drop.colors] in Hlen. rewrite probe_length.
  change (len (@nil Drop.entry)) with 0 in Hlen. rewrite Z.add_0_l in Hlen.
  auto.
Qed.

Lemma trail_length_exact_witness :
  exists d0 d,
    Drop.init 3 1 (PyFloat.of_int (-9)) 1488 [1; 2; 3; 4; 5] = Ok d0 /\
    Drop.updates d0 20 (repeat None 7) = Ok d /\
    len (Drop.trail d) = Z.min (len (repeat (None : option glyph) 7))
                               (len [1; 2; 3; 4; 5]) /\
    len (probe d) = Z.min (len (repeat (None : option glyph) 7))
                          (len [1; 2; 3; 4; 5]).
Proof.
  do 2 eexists.
  split; [reflexivity|]. split; [vm_compute; reflexivity|].
  eapply (trail_length_exact 3 1 (PyFloat.of_int (-9)) 1488 [1; 2; 3; 4; 5]
            _ _ 20 (repeat None 7));
    [reflexivity | vm_compute; reflexivity].
Defined.

(** ** The frame counter and the spinner *)

Lemma handle_key_keeps_pause (st st1 : state) (ch : Z) :
  ch <> 112 -> handle_key st ch = Some st1 -> paused st1 = paused st.
Proof.
  unfold handle_key. intros Hp.
  repeat match goal with
         | |- context [ch =? ?c] => destruct (Z.eqb_spec ch c)
         end; intros H; try discriminate; try contradiction;
    injection H as <-; reflexivity.
Qed.

Lemma spinner_step (f s : Z) :
  0 <= f -> s = (f / 6) mod 4 ->
  (if (f + 1) mod 6 =? 0 then (s + 1) mod 4 else s) = ((f + 1) / 6) mod 4.
Proof.
  intros Hf ->. destruct (Z.eqb_spec ((f + 1) mod 6) 0) as [H|H].
  - replace ((f + 1) / 6) with (f / 6 + 1)
      by (revert H; Z.div_mod_to_equations; lia).
    rewrite Z.add_mod_idemp_l by lia. reflexivity.
  - replace ((f + 1) / 6) with (f / 6)
      by (revert H; Z.div_mod_to_equations; lia).
    reflexivity.
Qed.

Section Spinner.

Variable WORD_LIST : list pystr.
Variables height width : Z.
Variables cos sin : PyFloat.float -> result PyFloat.float.

Lemma update_phase_spin (st st' : state) (inp : input) (wps : PyFloat.float)
    (evs : list event) :
  update_phase WORD_LIST height width cos sin st inp wps = Ok (st', evs) ->
  frame st' = frame st /\
  spin st' = (if frame st mod SPIN_SPEED =? 0
              then (spin st + 1) mod len SPINNER else spin st).
Proof.
  unfold update_phase. intros H.
  bind_inv H as ds Hds. bind_inv H as r1 Hstep. destruct r1 as [new_drops w].
  bind_inv H as r2 Hcl. destruct r2 as [cs cevs].
  bind_inv H as sp Hsp. injection H as <- <-. split; reflexivity.
Qed.

Lemma tick_frame (st st' : state) (inp : input) (evs : list event) :
  tick WORD_LIST height width cos sin st inp = Ok (Running st', evs) ->
  frame st' = frame st + 1.
Proof.
  unfold tick. intros H.
  destruct (handle_key _ (key inp)) as [st1|] eqn:Hk; [|discriminate].
  apply handle_key_frozen in Hk. destruct Hk as (_ & Hf & _). simpl in Hf.
  destruct (paused st1).
  - inversion H; subst. exact Hf.
  - bind_inv H as r Hup. destruct r as [st2 evs2].
    destruct (update_phase_spin _ _ _ _ _ Hup) as [Hf2 _].
    destruct (TARGET_COUNT <=? len (found st2)); inversion H; subst.
    congruence.
Qed.

Lemma tick_spinner (st st' : state) (inp : input) (evs : list event) :
  paused st = false -> key inp <> 112 -> 0 <= frame st ->
  spin st = (frame st / SPIN_SPEED) mod len SPINNER ->
  tick WORD_LIST height width cos sin st inp = Ok (Running st', evs) ->
  paused st' = false /\
  spin st' = (frame st' / SPIN_SPEED) mod len SPINNER.
Proof.
  unfold tick. intros Hp Hkey Hfr Hspin H.
  destruct (handle_key _ (key inp)) as [st1|] eqn:Hk; [|discriminate].
  pose proof (handle_key_keeps_pause _ _ _ Hkey Hk) as Hp1. simpl in Hp1.
  apply handle_key_frozen in Hk. destruct Hk as (_ & Hf & Hs).
  simpl in Hf, Hs. rewrite Hp1, Hp in H.
  bind_inv H as r Hup. destruct r as [st2 evs2].
  destruct (update_phase_spin _ _ _ _ _ Hup) as [Hf2 Hs2].
  assert (Hpaused : paused st2 = false).
  { apply update_phase_extends in Hup. destruct Hup as (_ & _ & Hp2).
    congruence. }
  assert (Hgoal : spin st2 = (frame st2 / SPIN_SPEED) mod len SPINNER).
  { rewrite Hs2, Hf2, Hf, Hs.
    change SPIN_SPEED with 6. change (len SPINNER) with 4.
    apply spinner_step; [exact Hfr | exact Hspin]. }
  destruct (TARGET_COUNT <=? len (found st2)); inversion H; subst; auto.
Qed.

Lemma run_frame (st st' : state) (ins : list input) (evs : list event) :
  run WORD_LIST height width cos sin st ins = Ok (Running st', evs) ->
  frame st' = frame st + len ins.
Proof.
  revert st evs; induction ins as [|inp rest IH]; intros st evs H;
    cbn [run] in H.
  - inversion H; subst. change (len (@nil input)) with 0. lia.
  - bind_inv H as r1 Htick. destruct r1 as [o1 evs1]. destruct o1 as [st1|st1].
    + bind_inv H as r2 Hrun. destruct r2 as [o2 evs2]. inversion H; subst.
      rewrite (IH _ _ Hrun), (tick_frame _ _ _ _ Htick), len_cons. lia.
    + discriminate H.
Qed.

Lemma run_spinner (st st' : state) (ins : list input) (evs : list event) :
  paused st = false -> Forall (fun i => key i <> 112) ins -> 0 <= frame st ->
  spin st = (frame st / SPIN_SPEED) mod len SPINNER ->
  run WORD_LIST height width cos sin st ins = Ok (Running st', evs) ->
  spin st' = (frame st' / SPIN_SPEED) mod len SPINNER.
Proof.
  intros Hp Hkeys; revert st evs Hp;
    induction Hkeys as [|inp rest Hkey _ IH]; intros st evs Hp Hfr Hspin H;
    cbn [run] in H.
  - inversion H; subst. exact Hspin.
  - bind_inv H as r1 Htick. destruct r1 as [o1 evs1]. destruct o1 as [st1|st1].
    + bind_inv H as r2 Hrun. destruct r2 as [o2 evs2]. inversion H; subst.
      destruct (tick_spinner _ _ _ _ Hp Hkey Hfr Hspin Htick) as [Hp1 Hs1].
      pose proof (tick_frame _ _ _ _ Htick) as Hf1.
      eapply (IH st1); [exact Hp1 | lia | exact Hs1 | exact Hrun].
    + discriminate H.
Qed.

End Spinner.

(** X12: [frame] counts every iteration of the loop, paused or not, and in
    a session that is never paused the spinner shows
    [SPINNER[(frame // SPIN_SPEED) % len(SPINNER)]]: it advances once every
    six iterations. *)
Theorem spinner_follows_frame (WORD_LIST : list pystr) (height width : Z)
    (cos sin : PyFloat.float -> result PyFloat.float)
    (draws : list spawn_draw) (st0 st : state) (ins : list input)
    (evs : list event) :
  initial_state width draws = Ok st0 ->
  run WORD_LIST height width cos sin st0 ins = Ok (Running st, evs) ->
  frame st = len ins /\
  (Forall (fun i => key i <> 112) ins ->
   spin st = (len ins / SPIN_SPEED) mod len SPINNER).
Proof.
  intros H0 Hrun. unfold initial_state in H0.
  bind_inv H0 as ds Hds. injection H0 as <-.
  pose proof (run_frame _ _ _ _ _ _ _ _ _ Hrun) as Hf. simpl in Hf.
  split; [exact Hf|]. intros Hkeys. rewrite <- Hf.
  eapply run_spinner; [| exact Hkeys | | | exact Hrun];
    [reflexivity | simpl; lia | reflexivity].
Qed.

Lemma spinner_follows_frame_witness :
  exists st0 st evs,
    initial_state 16 twice_draws = Ok st0 /\
    run [[1488; 1489]] 24 16 trig_missing trig_missing st0
      (repeat (keypress 45) 13) = Ok (Running st, evs) /\
    spin st = 2 /\
    frame st = len (repeat (keypress 45) 13) /\
    (Forall (fun i => key i <> 112) (repeat (keypress 45) 13) ->
     spin st = (len (repeat (keypress 45) 13) / SPIN_SPEED) mod len SPINNER).
Proof.
  do 3 eexists.
  split; [vm_compute; reflexivity|]. split; [vm_compute; reflexivity|].
  split; [reflexivity|].
  eapply (spinner_follows_frame [[1488; 1489]] 24 16 trig_missing trig_missing
            twice_draws _ _ (repeat (keypress 45) 13));
    [vm_compute; reflexivity | vm_compute; reflexivity].
Defined.

(** ** The life of a cluster *)

Lemma make_letters_radius (step : PyFloat.float) (i : Z) (w : pystr) :
  Forall (fun l => Cluster.rad l = PyFloat.zero) (Cluster.make_letters step i w).
Proof.
  revert i; induction w as [|c rest IH]; intros i; simpl; constructor; auto.
Qed.

(** X13: [Cluster('', ...)] raises [ZeroDivisionError]; for any other word
    the constructor returns a cluster of age 0 with one letter per
    character, in order, each at radius 0. *)
Theorem cluster_init_cases (w : pystr) (cx cy life : Z) (cols : list Z) :
  (w = [] -> Cluster.init w cx cy life cols = Raise ZeroDivisionError) /\
  (w <> [] ->
   exists c,
     Cluster.init w cx cy life cols = Ok c /\
     cluster_word c = w /\ len (Cluster.letters c) = len w /\
     Cluster.age c = 0 /\ Cluster.lifespan c = life /\
     Cluster.colors c = cols /\ Cluster.cx c = cx /\ Cluster.cy c = cy /\
     Forall (fun l => Cluster.rad l = PyFloat.zero) (Cluster.letters c)).
Proof.
  split.
  - intros ->. reflexivity.
  - intros Hne. destruct (cluster_init_total w cx cy life cols Hne) as [c Hc].
    exists c. split; [exact Hc|].
    destruct (cluster_init_fields _ _ _ _ _ _ Hc) as (Hw & Ha & Hl).
    split; [exact Hw|].
    split; [unfold len; rewrite <- Hw; unfold cluster_word;
            rewrite length_map; reflexivity|].
    split; [exact Ha|]. split; [exact Hl|].
    unfold Cluster.init in Hc. bind_inv Hc as step Hstep. injection Hc as <-.
    simpl. repeat split. apply make_letters_radius.
Qed.

Lemma update_word (c : Cluster.t) :
  cluster_word (fst (Cluster.update c)) = cluster_word c.
Proof.
  unfold cluster_word, Cluster.update. simpl. rewrite map_map. reflexivity.
Qed.

Lemma update_radius (c : Cluster.t) :
  Forall radius_ok (Cluster.letters c) ->
  Forall radius_ok (Cluster.letters (fst (Cluster.update c))) /\
  Forall2 (fun l l' => PyFloat.leb (Cluster.rad l) (Cluster.rad l') = true)
          (Cluster.letters c) (Cluster.letters (fst (Cluster.update c))).
Proof.
  unfold Cluster.update. simpl.
  induction 1 as [|l rest [Hv Hn] _ [IH1 IH2]]; simpl.
  - split; constructor.
  - destruct (SF64add_pos_ge (Cluster.rad l) 5404319552844595 (-54) Hv Hn eq_refl)
      as (Hle & Hv' & Hn').
    split; constructor; try assumption. split; assumption.
Qed.

Lemma cluster_after_spec (n : nat) (c : Cluster.t) :
  Forall radius_ok (Cluster.letters c) ->
  cluster_word (cluster_after n c) = cluster_word c /\
  Cluster.age (cluster_after n c) = Cluster.age c + Z.of_nat n /\
  Cluster.lifespan (cluster_after n c) = Cluster.lifespan c /\
  Forall radius_ok (Cluster.letters (cluster_after n c)).
Proof.
  intros Hr. induction n as [|n (Hw & Ha & Hl & Hrad)].
  - simpl. repeat split; [lia | exact Hr].
  - change (cluster_after (S n) c)
      with (fst (Cluster.update (cluster_after n c))).
    rewrite update_word. split; [exact Hw|].
    split; [unfold Cluster.update; simpl; lia|].
    split; [exact Hl|]. apply update_radius. exact Hrad.
Qed.

(** X14: a cluster's [update] counts its calls.  From a cluster just
    created, the call number [n + 1] returns [True] exactly when
    [n + 1 < lifespan]; no call changes the word the letters spell, and no
    call shrinks the radius of a letter. *)
Theorem cluster_update_counts (w : pystr) (cx cy life : Z) (cols : list Z)
    (c0 : Cluster.t) (n : nat) :
  Cluster.init w cx cy life cols = Ok c0 ->
  cluster_word (cluster_after n c0) = w /\
  Cluster.age (cluster_after n c0) = Z.of_nat n /\
  snd (Cluster.update (cluster_after n c0)) = (Z.of_nat n + 1 <? life) /\
  Forall2 (fun l l' => PyFloat.leb (Cluster.rad l) (Cluster.rad l') = true)
          (Cluster.letters (cluster_after n c0))
          (Cluster.letters (cluster_after (S n) c0)).
Proof.
  intros H0.
  destruct (cluster_init_fields _ _ _ _ _ _ H0) as (Hw & Ha & Hl).
  assert (Hr : Forall radius_ok (Cluster.letters c0)).
  { unfold Cluster.init in H0. bind_inv H0 as step Hstep. injection H0 as <-.
    simpl. eapply Forall_impl; [|apply make_letters_radius].
    intros l Hrad. unfold radius_ok. rewrite Hrad. split; [reflexivity|discriminate]. }
  destruct (cluster_after_spec n c0 Hr) as (Hw' & Ha' & Hl' & Hr').
  split; [congruence|]. split; [lia|].
  split; [unfold Cluster.update; simpl; rewrite Ha', Hl', Ha, Hl; reflexivity|].
  change (cluster_after (S n) c0)
    with (fst (Cluster.update (cluster_after n c0))).
  apply update_radius. exact Hr'.
Qed.

Lemma cluster_update_counts_witness :
  exists c0,
    Cluster.init [1488; 1489] 8 4 40 [1; 2; 3; 4; 5] = Ok c0 /\
    snd (Cluster.update (cluster_after 38 c0)) = true /\
    snd (Cluster.update (cluster_after 39 c0)) = false /\
    cluster_word (cluster_after 39 c0) = [1488; 1489] /\
    Cluster.age (cluster_after 39 c0) = Z.of_nat 39 /\
    snd (Cluster.update (cluster_after 39 c0)) = (Z.of_nat 39 + 1 <? 40) /\
    Forall2 (fun l l' => PyFloat.leb (Cluster.rad l) (Cluster.rad l') = true)
            (Cluster.letters (cluster_after 39 c0))
            (Cluster.letters (cluster_after 40 c0)).
Proof.
  eexists.
  split; [vm_compute; reflexivity|]. split; [vm_compute; reflexivity|].
  split; [vm_compute; reflexivity|].
  eapply (cluster_update_counts [1488; 1489] 8 4 40 [1; 2; 3; 4; 5] _ 39%nat).
  vm_compute; reflexivity.
Defined.

Lemma cluster_init_cases_witness :
  Cluster.init [] 8 4 40 [1; 2; 3; 4; 5] = Raise ZeroDivisionError /\
  exists c,
    Cluster.init [1488; 1489] 8 4 40 [1; 2; 3; 4; 5] = Ok c /\
    cluster_word c = [1488; 1489] /\
    len (Cluster.letters c) = len [1488; 1489] /\
    Cluster.age c = 0 /\ Cluster.lifespan c = 40 /\
    Cluster.colors c = [1; 2; 3; 4; 5] /\ Cluster.cx c = 8 /\
    Cluster.cy c = 4 /\
    Forall (fun l => Cluster.rad l = PyFloat.zero) (Cluster.letters c).
Proof.
  split.
  - apply (proj1 (cluster_init_cases [] 8 4 40 [1; 2; 3; 4; 5])). reflexivity.
  - apply (proj2 (cluster_init_cases [1488; 1489] 8 4 40 [1; 2; 3; 4; 5])).
    discriminate.
Defined.
